(** * Polymarket trade indexer: store, market discovery and indexing pipeline

    A shallow embedding of [src/db/store.py], [src/db/schema.py],
    [src/indexer/market_discovery.py], [src/indexer/run.py],
    [src/api/server.py] and [src/demo.py], together with the properties of
    the indexer that the specification states.

    Conventions of the embedding:
    - Python integers (block numbers, log indexes, the [uint256] fields of a
      decoded event) are [Z]; where a statement depends on the range of a
      [uint256], it says so.
    - Python [str] and [bytes] values are [string] (a list of 8-bit
      characters). Case conversion and [int] are those of ASCII text; a
      statement that depends on either for text that may not be ASCII says
      so with [is_ascii].
    - A [Decimal] or a [float] (price, size) is the rational [Q] it denotes.
      A division of [Decimal]s rounds to the 28 significant digits of the
      default context, and [float] rounds to the 53 bits of a binary64, both
      half-even. For operands of the ABI type [uint256] neither the exponent
      limits of the context nor the range of a [float] are reached; they are
      not represented.
    - The rows of a table are listed in rowid order, which AUTOINCREMENT
      makes the insertion order.
    - A raised exception is the [Raise] outcome of a computation; the state
      reached when it is raised is kept, as in Python.
    - The chain RPC client, the ABI decoder of web3, the HTTP registry,
      [json.loads] and storage-engine failures are collaborators: they are
      the fields of the record [Env]. *)

From Stdlib Require Import ZArith QArith Qround Qabs Qpower Qreduction Lqa.
From Stdlib Require Import List String Ascii HexString Bool Lia.
From Stdlib Require Import Sorted Permutation.
From stdpp Require Import gmap strings.
Import ListNotations.

Set Warnings "-register-all".

Local Open Scope string_scope.
Local Open Scope list_scope.
Local Open Scope Z_scope.

(** ** Outcomes and the state-and-exception monad *)

Inductive exn : Type :=
  | StorageError        (* sqlite3.Error raised by a statement *)
  | DivisionByZero      (* decimal.DivisionByZero / InvalidOperation *).

Inductive result (A : Type) : Type :=
  | Ok (a : A)
  | Raise (e : exn).
Arguments Ok {A} a.
Arguments Raise {A} e.

Definition M (S A : Type) : Type := S -> result A * S.

Definition ret {S A} (a : A) : M S A := fun s => (Ok a, s).

Definition raise {S A} (e : exn) : M S A := fun s => (Raise e, s).

Definition bind {S A B} (m : M S A) (k : A -> M S B) : M S B :=
  fun s => match m s with
           | (Ok a, s') => k a s'
           | (Raise e, s') => (Raise e, s')
           end.

(** [try: m except: h]: the state changes made by [m] before it raised are
    kept. *)
Definition try_except {S A} (m : M S A) (h : exn -> M S A) : M S A :=
  fun s => match m s with
           | (Ok a, s') => (Ok a, s')
           | (Raise e, s') => h e s'
           end.

Definition gets {S A} (f : S -> A) : M S A := fun s => (Ok (f s), s).

Definition modify {S} (f : S -> S) : M S unit := fun s => (Ok tt, f s).

Notation "'let*' x ':=' m 'in' k" := (bind m (fun x => k))
  (at level 10, x name, m at level 100, k at level 200).
Notation "m1 '>>' m2" := (bind m1 (fun _ => m2))
  (at level 100, m2 at level 200, right associativity).

(** ** Python built-ins used by the code *)

Definition ascii_lower (c : ascii) : ascii :=
  let n := N_of_ascii c in
  if ((65 <=? n) && (n <=? 90))%N then ascii_of_N (n + 32) else c.

Definition ascii_upper (c : ascii) : ascii :=
  let n := N_of_ascii c in
  if ((97 <=? n) && (n <=? 122))%N then ascii_of_N (n - 32) else c.

(** [str.lower()], [str.upper()]. *)
Fixpoint lower (s : string) : string :=
  match s with
  | EmptyString => EmptyString
  | String c r => String (ascii_lower c) (lower r)
  end.

Fixpoint upper (s : string) : string :=
  match s with
  | EmptyString => EmptyString
  | String c r => String (ascii_upper c) (upper r)
  end.

(** [hex(n)]: ["0x.."], lowercase digits, no padding, ["-0x.."] below zero. *)
Definition hex (n : Z) : string := HexString.of_Z n.

(** Nearest integer, ties to the even one: ROUND_HALF_EVEN of [decimal] and
    the rounding of binary floating point. *)
Definition round_half_even (q : Q) : Z :=
  let f := Qfloor q in
  match (q - inject_Z f ?= 1 # 2)%Q with
  | Lt => f
  | Gt => f + 1
  | Eq => if Z.even f then f else f + 1
  end.

(** [floor (log_b n)] for [n >= 1], by repeated division. *)
Fixpoint zlog_aux (fuel : nat) (b n : Z) : Z :=
  match fuel with
  | O => 0
  | S fuel' => if n <? b then 0 else 1 + zlog_aux fuel' b (n / b)
  end.

Definition zlog (b n : Z) : Z := zlog_aux (S (Z.to_nat (Z.log2 n))) b n.

(** The exponent of the leading digit of [q <> 0] in base [b]:
    [b ^ ilog b q <= |q| < b ^ (ilog b q + 1)]. *)
Definition ilog (b : Z) (q : Q) : Z :=
  let k := zlog b (Z.abs (Qnum q)) - zlog b (Zpos (Qden q)) in
  if Qle_bool (inject_Z b ^ k) (Qabs q) then k else k - 1.

(** [q] rounded to [p] significant digits in base [b]. *)
Definition round_sig (b p : Z) (q : Q) : Q :=
  if Qnum q =? 0 then 0%Q
  else
    let e := ilog b q - (p - 1) in
    Qred (inject_Z (round_half_even (q / inject_Z b ^ e)) * inject_Z b ^ e).

(** [Decimal(a) / Decimal(b)] in the default context: the quotient rounded
    to 28 significant digits; raises on a zero divisor. *)
Definition decimal_div (a b : Z) : result Q :=
  if b =? 0 then Raise DivisionByZero
  else Ok (round_sig 10 28 (inject_Z a / inject_Z b)).

(** [float(d)] for a [Decimal]: the nearest binary64. *)
Definition float_of_decimal (d : Q) : Q := round_sig 2 53 d.

(** [float(Decimal(n))]. *)
Definition float_of_int (n : Z) : Q := float_of_decimal (inject_Z n).

(** JSON values as [json.loads] and [response.json()] produce them. A
    number with a fraction or an exponent is a [float]: [JFloat (Some q)]
    is the finite float of value [q], [JFloat None] an infinity or a NaN. *)
Inductive json : Type :=
  | JNull
  | JBool (b : bool)
  | JInt (n : Z)
  | JFloat (x : option Q)
  | JStr (s : string)
  | JList (l : list json)
  | JObj (kv : list (string * json)).

(** Truth value of a Python object. *)
Definition truthy (v : json) : bool :=
  match v with
  | JNull => false
  | JBool b => b
  | JInt n => negb (n =? 0)
  | JFloat (Some q) => negb (Qnum q =? 0)
  | JFloat None => true
  | JStr s => negb (String.eqb s "")
  | JList l => match l with [] => false | _ => true end
  | JObj kv => match kv with [] => false | _ => true end
  end.

(** All characters of a [str] are ASCII. *)
Definition is_ascii (s : string) : bool :=
  forallb (fun c => (N_of_ascii c <? 128)%N) (list_ascii_of_string s).

(** A value that is no [str] with characters outside ASCII. *)
Definition ascii_text (v : json) : bool :=
  match v with
  | JStr s => is_ascii s
  | _ => true
  end.

(** The whitespace that [int] skips around a literal. *)
Definition is_space (c : ascii) : bool :=
  let n := N_of_ascii c in
  (((9 <=? n) && (n <=? 13)) || (n =? 32))%N.

Definition digit_val (c : ascii) : option Z :=
  let n := N_of_ascii c in
  if ((48 <=? n) && (n <=? 57))%N then Some (Z.of_N (n - 48)) else None.

Fixpoint lstrip (s : string) : string :=
  match s with
  | String c r => if is_space c then lstrip r else s
  | EmptyString => EmptyString
  end.

Fixpoint rev_string (s acc : string) : string :=
  match s with
  | EmptyString => acc
  | String c r => rev_string r (String c acc)
  end.

Definition strip (s : string) : string :=
  rev_string (lstrip (rev_string (lstrip s) "")) "".

(** Digits of a decimal literal; a single underscore may separate two
    digits. [seen]: a digit was the previous character. *)
Fixpoint int_digits (s : string) (acc : Z) (seen : bool) : option Z :=
  match s with
  | EmptyString => if seen then Some acc else None
  | String c r =>
      match digit_val c with
      | Some d => int_digits r (10 * acc + d) true
      | None =>
          if Ascii.eqb c "_" && seen then
            match r with
            | String c' _ =>
                match digit_val c' with
                | Some _ => int_digits r acc false
                | None => None
                end
            | EmptyString => None
            end
          else None
      end
  end.

Fixpoint count_digits (s : string) : Z :=
  match s with
  | EmptyString => 0
  | String c r =>
      (match digit_val c with Some _ => 1 | None => 0 end) + count_digits r
  end.

(** [sys.get_int_max_str_digits()]: a literal of more digits is refused. *)
Definition int_max_str_digits : Z := 4300.

(** [int(s)] for a [str] (ASCII): [None] stands for [ValueError]. *)
Definition int_of_str (s : string) : option Z :=
  let literal := strip s in
  if int_max_str_digits <? count_digits literal then None
  else
    match literal with
    | String "-" r => option_map Z.opp (int_digits r 0 false)
    | String "+" r => int_digits r 0 false
    | r => int_digits r 0 false
    end.

(** [int(v)]: a [float] is truncated towards zero; [None] stands for
    [TypeError], [ValueError] or [OverflowError]. *)
Definition py_int (v : json) : option Z :=
  match v with
  | JInt n => Some n
  | JBool b => Some (if b then 1 else 0)
  | JFloat (Some q) => Some (Z.quot (Qnum q) (Zpos (Qden q)))
  | JStr s => int_of_str s
  | _ => None
  end.

Fixpoint chars (s : string) : list json :=
  match s with
  | EmptyString => []
  | String c r => JStr (String c EmptyString) :: chars r
  end.

(** The elements a [for] loop or a comprehension visits; [None] stands for
    [TypeError] (the object is not iterable). *)
Definition py_iter (v : json) : option (list json) :=
  match v with
  | JList l => Some l
  | JStr s => Some (chars s)
  | JObj kv => Some (map (fun p => JStr (fst p)) kv)
  | _ => None
  end.

(** [len(v)]. *)
Definition py_len (v : json) : option nat :=
  option_map (@List.length json) (py_iter v).

(** ** Data model *)

(** A raw log as the chain RPC client returns it. *)
Record Log : Type := {
  address : string;
  transactionHash : string;      (* HexBytes *)
  logIndex : Z;
  blockNumber : Z;
  topics : list string;
  data : string
}.

(** [event_data['args']] of a decoded [OrderFilled] event. *)
Record OrderFilledArgs : Type := {
  orderHash : string;
  maker : string;
  taker : string;
  makerAssetId : Z;
  takerAssetId : Z;
  makerAmountFilled : Z;
  takerAmountFilled : Z;
  fee : Z
}.

(** The dict [decode_and_process_log] returns. *)
Record Trade : Type := {
  t_tx_hash : string;
  t_log_index : Z;
  t_market_id : Z;
  t_maker : string;
  t_taker : string;
  t_side : string;
  t_outcome : string;
  t_price : Q;
  t_size : Q;
  t_timestamp : Z;
  t_token_id : string;
  t_block_number : Z
}.

(** A market entry of the registry response. A missing key and a JSON
    [null] both read as [None] through [dict.get]; the scalar fields are
    strings, the other fields are arbitrary JSON values. *)
Record RawMarket : Type := {
  rm_slug : option string;
  rm_conditionId : option string;
  rm_questionID : option string;
  rm_questionId : option string;
  rm_active : json;
  rm_closed : json;
  rm_resolved : json;
  rm_clobTokenIds : option json;   (* [None]: key absent *)
  rm_outcomes : option json        (* [None]: key absent *)
}.

(** One event of the registry response: [event.get('markets', [])]. *)
Record GammaEvent : Type := { ev_markets : list RawMarket }.

(** The dict [process_market_data] returns. *)
Record MarketData : Type := {
  md_slug : option string;
  md_condition_id : option string;
  md_question_id : option string;
  md_yes_token_id : option string;
  md_no_token_id : option string;
  md_status : string
}.

(** Rows of the tables of [create_tables]; a [None] column is SQL NULL. *)
Record MarketRow : Type := {
  m_id : Z;
  m_slug : option string;
  m_condition_id : option string;
  m_question_id : option string;
  m_yes_token_id : option string;
  m_no_token_id : option string;
  m_status : option string
}.

Record TradeRow : Type := {
  row_id : Z;
  row_tx_hash : string;
  row_log_index : Z;
  row_market_id : Z;
  row_maker : string;
  row_taker : string;
  row_side : string;
  row_outcome : string;
  row_price : Q;
  row_size : Q;
  row_timestamp : Z
}.

(** The database file. [markets_seq] and [trades_seq] are the entries of
    [sqlite_sequence] that AUTOINCREMENT keeps; the rows of a table are in
    rowid order, the order in which they were inserted. *)
Record DB : Type := {
  markets : list MarketRow;
  markets_seq : Z;
  trades : list TradeRow;
  trades_seq : Z;
  sync_state : gmap string Z
}.

(** Statements whose execution the storage engine may fail. *)
Inductive StoreOp : Type :=
  | OpUpsertMarket (market_data : MarketData)
  | OpInsertTrade (i : nat) (t : Trade)      (* i-th row of an executemany *)
  | OpUpdateSyncState (block_number : Z).

(** The collaborators of the indexer. [None] stands for a raised
    exception. *)
Record Env : Type := {
  get_logs : Z -> Z -> option (list Log);            (* w3.eth.get_logs *)
  get_block : Z -> option Z;                         (* w3.eth.get_block(n)['timestamp'] *)
  process_log : Log -> option OrderFilledArgs;       (* OrderFilled().process_log *)
  http_get_events : string -> option (list GammaEvent);   (* requests.get(..).json() *)
  json_loads : string -> option json;                (* json.loads *)
  storage_fails : StoreOp -> bool
}.

(** ** [db/schema.py] *)

Definition empty_db : DB :=
  {| markets := []; markets_seq := 0; trades := []; trades_seq := 0;
     sync_state := ∅ |}.

(** [create_tables]: the tables exist afterwards, and
    [INSERT OR IGNORE INTO sync_state VALUES ('last_block', 0)]. *)
Definition create_tables (db : DB) : DB :=
  match sync_state db !! "last_block" with
  | Some _ => db
  | None =>
      {| markets := markets db; markets_seq := markets_seq db;
         trades := trades db; trades_seq := trades_seq db;
         sync_state := <["last_block" := 0]> (sync_state db) |}
  end.

(** ** [db/store.py] *)

(** SQL [=] on a nullable TEXT column: never true on NULL. *)
Definition sql_eq (a b : option string) : bool :=
  match a, b with
  | Some x, Some y => String.eqb x y
  | _, _ => false
  end.

(** Largest rowid of a table (0 when empty). *)
Definition max_rowid {R} (id : R -> Z) (rows : list R) : Z :=
  fold_right (fun r acc => Z.max (id r) acc) 0 rows.

(** AUTOINCREMENT: one more than the largest rowid ever generated. *)
Definition new_rowid {R} (id : R -> Z) (rows : list R) (seq : Z) : Z :=
  Z.max seq (max_rowid id rows) + 1.

Definition update_market (market_data : MarketData) (r : MarketRow) : MarketRow :=
  {| m_id := m_id r;
     m_slug := md_slug market_data;
     m_condition_id := m_condition_id r;
     m_question_id := md_question_id market_data;
     m_yes_token_id := md_yes_token_id market_data;
     m_no_token_id := md_no_token_id market_data;
     m_status := Some (md_status market_data) |}.

Definition new_market (id : Z) (market_data : MarketData) : MarketRow :=
  {| m_id := id;
     m_slug := md_slug market_data;
     m_condition_id := md_condition_id market_data;
     m_question_id := md_question_id market_data;
     m_yes_token_id := md_yes_token_id market_data;
     m_no_token_id := md_no_token_id market_data;
     m_status := Some (md_status market_data) |}.

Definition set_markets (ms : list MarketRow) (seq : Z) (db : DB) : DB :=
  {| markets := ms; markets_seq := seq;
     trades := trades db; trades_seq := trades_seq db;
     sync_state := sync_state db |}.

Definition set_trades (ts : list TradeRow) (seq : Z) (db : DB) : DB :=
  {| markets := markets db; markets_seq := markets_seq db;
     trades := ts; trades_seq := seq;
     sync_state := sync_state db |}.

Definition set_sync_state (st : gmap string Z) (db : DB) : DB :=
  {| markets := markets db; markets_seq := markets_seq db;
     trades := trades db; trades_seq := trades_seq db;
     sync_state := st |}.

Definition trade_row (id : Z) (t : Trade) : TradeRow :=
  {| row_id := id;
     row_tx_hash := t_tx_hash t;
     row_log_index := t_log_index t;
     row_market_id := t_market_id t;
     row_maker := t_maker t;
     row_taker := t_taker t;
     row_side := t_side t;
     row_outcome := t_outcome t;
     row_price := t_price t;
     row_size := t_size t;
     row_timestamp := t_timestamp t |}.

(** The unique index [idx_trades_tx_log] on [(tx_hash, log_index)]. *)
Definition same_key (t : Trade) (r : TradeRow) : bool :=
  String.eqb (row_tx_hash r) (t_tx_hash t) && (row_log_index r =? t_log_index t).

(** One [INSERT OR IGNORE INTO trades]: a rowid is generated (and recorded
    in [sqlite_sequence]) before the unique index is checked; on a conflict
    the row is skipped. *)
Definition insert_or_ignore (t : Trade) (db : DB) : DB :=
  let rowid := new_rowid row_id (trades db) (trades_seq db) in
  if existsb (same_key t) (trades db)
  then set_trades (trades db) rowid db
  else set_trades (trades db ++ [trade_row rowid t]) rowid db.

Section Store.

Variable env : Env.

(** [upsert_market]: SELECT by [condition_id], then UPDATE the row found
    or INSERT a new one; a failing statement rolls back and re-raises. *)
Definition upsert_market (market_data : MarketData) : M DB unit :=
  fun db =>
    if storage_fails env (OpUpsertMarket market_data)
    then (Raise StorageError, db)
    else
      match find (fun r => sql_eq (m_condition_id r) (md_condition_id market_data))
                 (markets db) with
      | Some result =>
          let market_id := m_id result in
          (Ok tt,
           set_markets
             (map (fun r => if m_id r =? market_id
                            then update_market market_data r else r)
                  (markets db))
             (markets_seq db) db)
      | None =>
          let rowid := new_rowid m_id (markets db) (markets_seq db) in
          (Ok tt,
           set_markets (markets db ++ [new_market rowid market_data]) rowid db)
      end.

(** [cursor.executemany]: the statements run in order on the connection;
    [i] counts the rows already executed. *)
Fixpoint executemany (i : nat) (trades_list : list Trade) (conn : DB)
  : result DB :=
  match trades_list with
  | [] => Ok conn
  | t :: rest =>
      if storage_fails env (OpInsertTrade i t)
      then Raise StorageError
      else executemany (S i) rest (insert_or_ignore t conn)
  end.

(** [insert_trades]: nothing on an empty list; otherwise the batch is
    committed as a whole, or rolled back and the exception re-raised. *)
Definition insert_trades (trades_list : list Trade) : M DB unit :=
  fun db =>
    match trades_list with
    | [] => (Ok tt, db)
    | _ :: _ =>
        match executemany 0 trades_list db with
        | Ok conn => (Ok tt, conn)
        | Raise e => (Raise e, db)
        end
    end.

(** [INSERT OR REPLACE INTO sync_state (key, value) VALUES ('last_block', ?)]. *)
Definition update_sync_state (block_number : Z) : M DB unit :=
  fun db =>
    if storage_fails env (OpUpdateSyncState block_number)
    then (Raise StorageError, db)
    else (Ok tt, set_sync_state (<["last_block" := block_number]> (sync_state db)) db).

Definition get_sync_state : M DB Z :=
  gets (fun db => match sync_state db !! "last_block" with
                  | Some value => value
                  | None => 0
                  end).

(** [SELECT * FROM markets WHERE yes_token_id = ? OR no_token_id = ?],
    [fetchone()]. SQLite answers each term of the [OR] from the index of its
    column, in the order written: the first row is the oldest one whose YES
    token matches, and only when there is none the oldest one whose NO token
    matches. *)
Definition fetch_market_by_token_id (token_id : string) : M DB (option MarketRow) :=
  gets (fun db =>
          match find (fun r => sql_eq (m_yes_token_id r) (Some token_id))
                     (markets db) with
          | Some r => Some r
          | None => find (fun r => sql_eq (m_no_token_id r) (Some token_id))
                         (markets db)
          end).

End Store.

(** ** [indexer/market_discovery.py] *)

Definition str_truthy (s : option string) : bool :=
  match s with
  | Some x => negb (String.eqb x "")
  | None => false
  end.

(** [[hex(int(tid)).lower() for tid in clob_token_ids]]; [None] when a
    conversion raises. *)
Fixpoint token_hexes (clob_token_ids : list json) : option (list string) :=
  match clob_token_ids with
  | [] => Some []
  | tid :: rest =>
      match py_int tid with
      | Some n => option_map (cons (lower (hex n))) (token_hexes rest)
      | None => None
      end
  end.

(** The loop over [enumerate(outcomes)]; [None] when an outcome has no
    [upper()] or an index is out of range. *)
Fixpoint assign_tokens (outcomes : list json) (clob_token_ids : list string)
    (yes_token_id no_token_id : option string)
  : option (option string * option string) :=
  match outcomes with
  | [] => Some (yes_token_id, no_token_id)
  | outcome :: outcomes' =>
      match clob_token_ids, outcome with
      | token_id :: tokens', JStr o =>
          if String.eqb (upper o) "YES"
          then assign_tokens outcomes' tokens' (Some token_id) no_token_id
          else if String.eqb (upper o) "NO"
          then assign_tokens outcomes' tokens' yes_token_id (Some token_id)
          else assign_tokens outcomes' tokens' yes_token_id no_token_id
      | _, _ => None
      end
  end.

(** Placeholder of the source: always [True]. *)
Definition validate_market_tokens (market_data : MarketData) : bool := true.

Section Discovery.

Variable env : Env.

(** [fetch_markets_by_slug]: a [RequestException] and an empty response
    both give the empty list. *)
Definition fetch_markets_by_slug (slug : string) : list RawMarket :=
  match http_get_events env slug with
  | None => []
  | Some [] => []
  | Some response => flat_map ev_markets response
  end.

(** [market.get('clobTokenIds', [])], parsed by [json.loads] when it is a
    string; [None] when the parser raises (the entry is then rejected). *)
Definition load_token_ids (market : RawMarket) : option json :=
  let clob_token_ids :=
    match rm_clobTokenIds market with Some v => v | None => JList [] end in
  match clob_token_ids with
  | JStr s => json_loads env s
  | v => Some v
  end.

(** [market.get('outcomes', [])], parsed by [json.loads] when it is a
    string; a string that the parser rejects is kept as it is. *)
Definition load_outcomes (market : RawMarket) : json :=
  let outcomes :=
    match rm_outcomes market with Some v => v | None => JList [] end in
  match outcomes with
  | JStr s => match json_loads env s with
              | Some v => v
              | None => outcomes
              end
  | v => v
  end.

(** [process_market_data]: [None] for an entry that is rejected or whose
    processing raises. Rows lacking a YES or a NO token are kept (the
    source only logs a warning). *)
Definition process_market_data (market : RawMarket) : option MarketData :=
  let slug := rm_slug market in
  let condition_id := rm_conditionId market in
  let question_id := rm_questionID market in
  let question_id :=
    if str_truthy question_id then question_id else rm_questionId market in
  let status := if truthy (rm_active market) then "ACTIVE" else "CLOSED" in
  let status := if truthy (rm_closed market) then "CLOSED" else status in
  let status := if truthy (rm_resolved market) then "RESOLVED" else status in
  let condition_id :=
    if str_truthy condition_id then option_map lower condition_id
    else condition_id in
  let question_id :=
    if str_truthy question_id then option_map lower question_id
    else question_id in
  match load_token_ids market with
  | None => None
  | Some clob_token_ids =>
      match option_bind _ _ token_hexes (py_iter clob_token_ids) with
      | None => None
      | Some clob_token_ids =>
          let outcomes := load_outcomes market in
          match clob_token_ids with
          | [] => None
          | _ :: _ =>
              if negb (truthy outcomes) then None
              else
                match py_len outcomes, py_iter outcomes with
                | Some n, Some outcome_list =>
                    if negb (Nat.eqb (List.length clob_token_ids) n) then None
                    else
                      match assign_tokens outcome_list clob_token_ids None None with
                      | Some (yes_token_id, no_token_id) =>
                          Some {| md_slug := slug;
                                  md_condition_id := condition_id;
                                  md_question_id := question_id;
                                  md_yes_token_id := yes_token_id;
                                  md_no_token_id := no_token_id;
                                  md_status := status |}
                      | None => None
                      end
                | _, _ => None
                end
          end
      end
  end.

(** The loop of [discover_and_store_markets]. *)
Fixpoint store_markets (markets : list RawMarket) (count : Z) : M DB Z :=
  match markets with
  | [] => ret count
  | market_raw :: rest =>
      match process_market_data market_raw with
      | Some market_data =>
          if validate_market_tokens market_data
          then upsert_market env market_data >> store_markets rest (count + 1)
          else store_markets rest count
      | None => store_markets rest count
      end
  end.

Definition discover_and_store_markets (slug : string) : M DB Z :=
  store_markets (fetch_markets_by_slug slug) 0.

End Discovery.

(** ** [indexer/run.py] *)

(** Calls and log records observed during a run, oldest first. *)
Inductive Event : Type :=
  | CallGetLogs (from_block to_block : Z)
  | CallFetchMarketByTokenId (token_id : string)
  | CallDiscoverAndStoreMarkets (slug : string)
  | CallInsertTrades (trades_list : list Trade)
  | CallUpdateSyncState (block_number : Z)
  | LogWarning
  | LogError.

(** An [Indexer] instance with its store, and the calls it has made. *)
Record World : Type := {
  db : DB;
  block_timestamp_cache : gmap Z Z;
  trace : list Event
}.

Definition with_store {A} (m : M DB A) : M World A :=
  fun w =>
    let '(r, db') := m (db w) in
    (r, {| db := db'; block_timestamp_cache := block_timestamp_cache w;
           trace := trace w |}).

Definition emit (e : Event) : M World unit :=
  modify (fun w => {| db := db w;
                      block_timestamp_cache := block_timestamp_cache w;
                      trace := trace w ++ [e] |}).

Definition hex_digit (n : N) : ascii :=
  if (n <? 10)%N then ascii_of_N (48 + n) else ascii_of_N (87 + n).

(** [w3.to_hex] of a byte string: two digits per byte after ["0x"]. *)
Fixpoint hex_bytes (b : string) : string :=
  match b with
  | EmptyString => EmptyString
  | String c r =>
      let n := N_of_ascii c in
      String (hex_digit (n / 16)) (String (hex_digit (n mod 16)) (hex_bytes r))
  end.

Definition to_hex (b : string) : string := String "0" (String "x" (hex_bytes b)).

Definition str_eq (a : option string) (b : string) : bool :=
  match a with
  | Some x => String.eqb x b
  | None => false
  end.

Section Indexer.

Variable env : Env.

Definition get_block_timestamp (block_number : Z) : M World Z :=
  fun w =>
    match block_timestamp_cache w !! block_number with
    | Some timestamp => (Ok timestamp, w)
    | None =>
        match get_block env block_number with
        | Some timestamp =>
            (Ok timestamp,
             {| db := db w;
                block_timestamp_cache :=
                  <[block_number := timestamp]> (block_timestamp_cache w);
                trace := trace w |})
        | None => (emit LogError >> ret 0) w
        end
    end.

Definition decode_and_process_log (log : Log) (event_slug : option string)
  : M World (option Trade) :=
  match process_log env log with
  | None => ret None
  | Some args =>
      let exchange_address := address log in
      if String.eqb (lower (taker args)) (lower exchange_address) then ret None
      else
        let maker_asset_id := makerAssetId args in
        let taker_asset_id := takerAssetId args in
        let maker_amount := makerAmountFilled args in
        let taker_amount := takerAmountFilled args in
        let '(price, token_id_int, side) :=
          if maker_asset_id =? 0 then
            (match decimal_div maker_amount taker_amount with
             | Ok p => p
             | Raise _ => 0%Q
             end, taker_asset_id, "BUY")
          else
            (match decimal_div taker_amount maker_amount with
             | Ok p => p
             | Raise _ => 0%Q
             end, maker_asset_id, "SELL") in
        let token_id_hex := lower (hex token_id_int) in
        let* market :=
          (emit (CallFetchMarketByTokenId token_id_hex) >>
           with_store (fetch_market_by_token_id token_id_hex)) in
        let* market :=
          match market, event_slug with
          | None, Some slug =>
              if negb (String.eqb slug "") then
                emit (CallDiscoverAndStoreMarkets slug) >>
                with_store (discover_and_store_markets env slug) >>
                emit (CallFetchMarketByTokenId token_id_hex) >>
                with_store (fetch_market_by_token_id token_id_hex)
              else ret market
          | _, _ => ret market
          end in
        match market with
        | Some market =>
            let market_id := m_id market in
            let outcome :=
              if str_eq (m_yes_token_id market) token_id_hex then "YES"
              else if str_eq (m_no_token_id market) token_id_hex then "NO"
              else "" in
            let block_number := blockNumber log in
            let* timestamp := get_block_timestamp block_number in
            let size :=
              if String.eqb side "BUY" then inject_Z taker_amount
              else inject_Z maker_amount in
            ret (Some {| t_tx_hash := to_hex (transactionHash log);
                         t_log_index := logIndex log;
                         t_market_id := market_id;
                         t_maker := maker args;
                         t_taker := taker args;
                         t_side := side;
                         t_outcome := outcome;
                         t_price := float_of_decimal price;
                         t_size := float_of_decimal size;
                         t_timestamp := timestamp;
                         t_token_id := token_id_hex;
                         t_block_number := block_number |})
        | None => emit LogWarning >> ret None
        end
  end.

(** The [for log in logs] loop of [run_indexer]: an exception raised for
    one log is logged and the loop goes on. *)
Fixpoint process_logs (logs : list Log) (event_slug : option string)
    (processed_trades : list Trade) : M World (list Trade) :=
  match logs with
  | [] => ret processed_trades
  | log :: rest =>
      let* processed_trades :=
        try_except
          (let* trade := decode_and_process_log log event_slug in
           match trade with
           | Some t => ret (processed_trades ++ [t])
           | None => ret processed_trades
           end)
          (fun _ => emit LogError >> ret processed_trades) in
      process_logs rest event_slug processed_trades
  end.

Definition run_indexer (from_block to_block : Z) (event_slug : option string)
  : M World (list Trade) :=
  emit (CallGetLogs from_block to_block) >>
  match get_logs env from_block to_block with
  | None => emit LogError >> ret []
  | Some logs =>
      let* processed_trades := process_logs logs event_slug [] in
      match processed_trades with
      | [] => ret processed_trades
      | _ :: _ =>
          emit (CallInsertTrades processed_trades) >>
          with_store (insert_trades env processed_trades) >>
          emit (CallUpdateSyncState to_block) >>
          with_store (update_sync_state env to_block) >>
          ret processed_trades
      end
  end.

End Indexer.

(** ** Vocabulary of the statements *)

(** The token id a decoded fill trades, as the indexer renders it. *)
Definition traded_token_id (args : OrderFilledArgs) : string :=
  lower (hex (if makerAssetId args =? 0 then takerAssetId args
              else makerAssetId args)).

(** Step 3 of [decode_and_process_log] on its own: the lookup, and on a
    miss with an event slug the discovery and the second lookup. *)
Definition resolve_market (env : Env) (token_id_hex : string)
    (event_slug : option string) : M World (option MarketRow) :=
  let* market :=
    (emit (CallFetchMarketByTokenId token_id_hex) >>
     with_store (fetch_market_by_token_id token_id_hex)) in
  match market, event_slug with
  | None, Some slug =>
      if negb (String.eqb slug "") then
        emit (CallDiscoverAndStoreMarkets slug) >>
        with_store (discover_and_store_markets env slug) >>
        emit (CallFetchMarketByTokenId token_id_hex) >>
        with_store (fetch_market_by_token_id token_id_hex)
      else ret market
  | _, _ => ret market
  end.

(** Step 5 of [decode_and_process_log] on its own: the record built for a
    decoded fill, the market found and the block timestamp. *)
Definition trade_record (log : Log) (args : OrderFilledArgs)
    (market : MarketRow) (timestamp : Z) : Trade :=
  let buy := makerAssetId args =? 0 in
  {| t_tx_hash := to_hex (transactionHash log);
     t_log_index := logIndex log;
     t_market_id := m_id market;
     t_maker := maker args;
     t_taker := taker args;
     t_side := if buy then "BUY" else "SELL";
     t_outcome :=
       if str_eq (m_yes_token_id market) (traded_token_id args) then "YES"
       else if str_eq (m_no_token_id market) (traded_token_id args) then "NO"
       else "";
     t_price :=
       float_of_decimal
         match (if buy
                then decimal_div (makerAmountFilled args) (takerAmountFilled args)
                else decimal_div (takerAmountFilled args) (makerAmountFilled args))
         with
         | Ok p => p
         | Raise _ => 0%Q
         end;
     t_size :=
       float_of_int (if buy then takerAmountFilled args
                     else makerAmountFilled args);
     t_timestamp := timestamp;
     t_token_id := traded_token_id args;
     t_block_number := blockNumber log |}.

(** The ABI type [uint256]. *)
Definition uint256 (n : Z) : Prop := 0 <= n < 2 ^ 256.

(** What the rule table says of one row: the side, the token (rendered by
    [hex], from which it is read back), the size as the [float] of the token
    amount (the amount itself below [2 ^ 53]) and, for a non-zero divisor,
    the price as the [float] of the 28-digit quotient of the two amounts,
    which is the quotient up to a relative error of [2 ^ -52]. *)
Definition follows_rule (t : Trade) (side : string) (token amount paid : Z) : Prop :=
  t_side t = side /\
  t_token_id t = hex token /\
  HexString.to_Z (t_token_id t) = token /\
  t_size t = float_of_int amount /\
  (amount < 2 ^ 53 -> (t_size t == inject_Z amount)%Q) /\
  (amount <> 0 ->
   t_price t = float_of_decimal (round_sig 10 28 (inject_Z paid / inject_Z amount)) /\
   (Qabs (t_price t - inject_Z paid / inject_Z amount)
    <= inject_Z paid / inject_Z amount * 2 ^ (- 52))%Q).

(** The world after [evs] were recorded and the database became [d]. *)
Definition advance (d : DB) (evs : list Event) (w : World) : World :=
  {| db := d; block_timestamp_cache := block_timestamp_cache w;
     trace := trace w ++ evs |}.

Definition is_store_write (e : Event) : bool :=
  match e with
  | CallInsertTrades _ | CallUpdateSyncState _ => true
  | _ => false
  end.

(** The calls to [insert_trades] and [update_sync_state] of a trace. *)
Definition store_writes (tr : list Event) : list Event :=
  List.filter is_store_write tr.

Definition is_resolver_call (e : Event) : bool :=
  match e with
  | CallFetchMarketByTokenId _ | CallDiscoverAndStoreMarkets _ => true
  | _ => false
  end.

(** The market lookups and registry refreshes of a trace. *)
Definition resolver_calls (tr : list Event) : list Event :=
  List.filter is_resolver_call tr.

(** The value [get_sync_state] reads from a database. *)
Definition checkpoint (d : DB) : result Z := fst (get_sync_state d).

(** A trade has a row in the trades table. *)
Definition persisted (t : Trade) (d : DB) : Prop :=
  exists r, In r (trades d) /\ same_key t r = true.

(** The trades table, its sequence and the checkpoint are the same in both
    databases. *)
Definition trades_untouched (d d' : DB) : Prop :=
  trades d' = trades d /\ trades_seq d' = trades_seq d /\
  sync_state d' = sync_state d.

Definition trade_key (r : TradeRow) : string * Z :=
  (row_tx_hash r, row_log_index r).

(** No two rows of the markets table carry the same non-null
    [condition_id]. *)
Definition condition_ids_unique (ms : list MarketRow) : Prop :=
  NoDup (omap m_condition_id ms).

Definition matches_token (token_id : string) (r : MarketRow) : Prop :=
  m_yes_token_id r = Some token_id \/ m_no_token_id r = Some token_id.

(** The invariant of the Market table in the words of the specification:
    [condition_id] identifies a market, the two token ids of a row are
    distinct and not null, and a token id belongs to one market only. *)
Definition spec_market_invariant (ms : list MarketRow) : Prop :=
  (forall r1 r2, In r1 ms -> In r2 ms ->
                 m_condition_id r1 = m_condition_id r2 -> r1 = r2) /\
  (forall r, In r ms ->
             exists y n, m_yes_token_id r = Some y /\ m_no_token_id r = Some n /\ y <> n) /\
  (forall token_id r1 r2, In r1 ms -> In r2 ms ->
                          matches_token token_id r1 -> matches_token token_id r2 ->
                          r1 = r2).

(** ** Sample inputs *)

(** Scenario A of the specification, with token 77. *)
Definition args_buy : OrderFilledArgs :=
  {| orderHash := "h1"; maker := "0xMaker"; taker := "0xTaker";
     makerAssetId := 0; takerAssetId := 77;
     makerAmountFilled := 500000; takerAmountFilled := 1000000; fee := 0 |}.

(** Scenario B of the specification. *)
Definition args_sell : OrderFilledArgs :=
  {| orderHash := "h2"; maker := "0xMaker"; taker := "0xTaker";
     makerAssetId := 77; takerAssetId := 0;
     makerAmountFilled := 2000000; takerAmountFilled := 1000000; fee := 0 |}.

(** A fill of token 77 whose token amount is zero. *)
Definition args_zero : OrderFilledArgs :=
  {| orderHash := "h3"; maker := "0xMaker"; taker := "0xTaker";
     makerAssetId := 0; takerAssetId := 77;
     makerAmountFilled := 500000; takerAmountFilled := 0; fee := 0 |}.

(** A fill of token 99, which no market lists. *)
Definition args_unknown : OrderFilledArgs :=
  {| orderHash := "h4"; maker := "0xMaker"; taker := "0xTaker";
     makerAssetId := 0; takerAssetId := 99;
     makerAmountFilled := 1; takerAmountFilled := 4; fee := 0 |}.

(** A wrapper fill: the taker is the exchange itself, in another case. *)
Definition args_self : OrderFilledArgs :=
  {| orderHash := "h5"; maker := "0xMaker"; taker := "0xeXCHANGE";
     makerAssetId := 0; takerAssetId := 77;
     makerAmountFilled := 500000; takerAmountFilled := 1000000; fee := 0 |}.

Definition sample_log (index : Z) : Log :=
  {| address := "0xExchange"; transactionHash := "ab"; logIndex := index;
     blockNumber := 150; topics := []; data := "" |}.

(** A log of block 15. *)
Definition early_log (index : Z) : Log :=
  {| address := "0xExchange"; transactionHash := "cd"; logIndex := index;
     blockNumber := 15; topics := []; data := "" |}.

(** The sample decoder tells the logs apart by their index. *)
Definition sample_decoder (log : Log) : option OrderFilledArgs :=
  if logIndex log =? 1 then Some args_buy
  else if logIndex log =? 2 then Some args_sell
  else if logIndex log =? 3 then Some args_zero
  else if logIndex log =? 4 then Some args_unknown
  else if logIndex log =? 5 then Some args_self
  else None.

Definition market_77 : RawMarket :=
  {| rm_slug := Some "will-it-rain"; rm_conditionId := Some "0xABC";
     rm_questionID := None; rm_questionId := Some "0xQ1";
     rm_active := JBool true; rm_closed := JNull; rm_resolved := JNull;
     rm_clobTokenIds := Some (JList [JStr "78"; JStr "77"]);
     rm_outcomes := Some (JList [JStr "No"; JStr "Yes"]) |}.

(** Another market that lists token 77, on both of its sides. *)
Definition market_twice_77 : RawMarket :=
  {| rm_slug := Some "will-it-snow"; rm_conditionId := Some "0x999";
     rm_questionID := Some "0xQ2"; rm_questionId := None;
     rm_active := JNull; rm_closed := JBool true; rm_resolved := JNull;
     rm_clobTokenIds := Some (JStr "[77, 77]");
     rm_outcomes := Some (JList [JStr "YES"; JStr "no"]) |}.

(** A market whose outcomes are not YES and NO. *)
Definition market_up_down : RawMarket :=
  {| rm_slug := Some "btc-up-or-down"; rm_conditionId := Some "0xDEF";
     rm_questionID := None; rm_questionId := None;
     rm_active := JBool true; rm_closed := JNull; rm_resolved := JNull;
     rm_clobTokenIds := Some (JList [JStr "5"; JStr "6"]);
     rm_outcomes := Some (JList [JStr "Up"; JStr "Down"]) |}.

(** The text of a JSON array of strings. *)
Definition json_text (items : list string) : string :=
  let quote := String (ascii_of_N 34) EmptyString in
  String.append "["
    (String.append
       (String.concat ", "
          (map (fun s => String.append quote (String.append s quote)) items))
       "]").

(** [market_77] in the form the registry sends it: both fields are strings
    holding JSON. *)
Definition market_encoded : RawMarket :=
  {| rm_slug := Some "will-it-rain"; rm_conditionId := Some "0xABC";
     rm_questionID := None; rm_questionId := Some "0xQ1";
     rm_active := JBool true; rm_closed := JNull; rm_resolved := JNull;
     rm_clobTokenIds := Some (JStr (json_text ["78"; "77"]));
     rm_outcomes := Some (JStr (json_text ["No"; "Yes"])) |}.

(** An entry with three outcomes for two tokens. *)
Definition market_three_outcomes : RawMarket :=
  {| rm_slug := Some "three-way"; rm_conditionId := Some "0x333";
     rm_questionID := None; rm_questionId := None;
     rm_active := JBool true; rm_closed := JNull; rm_resolved := JNull;
     rm_clobTokenIds := Some (JStr (json_text ["78"; "77"]));
     rm_outcomes := Some (JList [JStr "Up"; JStr "Flat"; JStr "Down"]) |}.

(** An entry whose token ids are a number with a fraction, which [int]
    truncates, and the text of one, which [int] refuses. *)
Definition market_fraction : RawMarket :=
  {| rm_slug := Some "fraction"; rm_conditionId := Some "0x444";
     rm_questionID := None; rm_questionId := None;
     rm_active := JBool true; rm_closed := JNull; rm_resolved := JNull;
     rm_clobTokenIds := Some (JList [JFloat (Some (3 # 2)); JStr "7.5"]);
     rm_outcomes := Some (JStr (json_text ["No"; "Yes"])) |}.

(** A [json.loads] that knows the texts of the sample entries. *)
Definition sample_loads (s : string) : option json :=
  if String.eqb s (json_text ["78"; "77"])
  then Some (JList [JStr "78"; JStr "77"])
  else if String.eqb s (json_text ["No"; "Yes"])
  then Some (JList [JStr "No"; JStr "Yes"])
  else None.

Definition sample_env (logs : option (list Log)) (registry : list RawMarket)
    (fails : StoreOp -> bool) : Env :=
  {| get_logs := fun _ _ => logs;
     get_block := fun _ => Some 1700000000;
     process_log := sample_decoder;
     http_get_events := fun _ => Some [ {| ev_markets := registry |} ];
     json_loads := fun _ => None;
     storage_fails := fails |}.

Definition no_failure (op : StoreOp) : bool := false.

Definition insert_failure (op : StoreOp) : bool :=
  match op with
  | OpInsertTrade i _ => Nat.eqb i 1
  | _ => false
  end.

(** A run over one good fill, a fill of an unknown token and a second good
    fill. *)
Definition env_mixed : Env :=
  sample_env (Some [sample_log 1; sample_log 4; sample_log 2]) [market_77] no_failure.

(** The same run with a storage engine that fails on the second row. *)
Definition env_insert_fails : Env :=
  sample_env (Some [sample_log 1; sample_log 4; sample_log 2]) [market_77] insert_failure.

(** A run over an unknown token, a wrapper fill and a log that does not
    decode. *)
Definition env_nothing_survives : Env :=
  sample_env (Some [sample_log 4; sample_log 5; sample_log 9]) [market_77] no_failure.

(** A run over an earlier range that holds one good fill. *)
Definition env_early : Env :=
  sample_env (Some [early_log 1]) [market_77] no_failure.

(** The RPC endpoint is unreachable. *)
Definition env_rpc_down : Env := sample_env None [market_77] no_failure.

(** The registry lists the market without YES and NO outcomes. *)
Definition env_up_down : Env := sample_env (Some []) [market_up_down] no_failure.

(** The sample run with a registry that sends [market_encoded] and a
    [json.loads] that parses it. *)
Definition env_encoded : Env :=
  {| get_logs := fun _ _ => Some [sample_log 1; sample_log 4; sample_log 2];
     get_block := fun _ => Some 1700000000;
     process_log := sample_decoder;
     http_get_events := fun _ => Some [ {| ev_markets := [market_encoded] |} ];
     json_loads := sample_loads;
     storage_fails := no_failure |}.

(** The registry lists token 77 under two markets; [json.loads] knows the
    one string the registry sends. *)
Definition env_shared_token : Env :=
  {| get_logs := fun _ _ => Some [];
     get_block := fun _ => None;
     process_log := sample_decoder;
     http_get_events :=
       fun _ => Some [ {| ev_markets := [market_77] |};
                       {| ev_markets := [market_twice_77] |} ];
     json_loads :=
       fun s => if String.eqb s "[77, 77]" then Some (JList [JInt 77; JInt 77])
                else None;
     storage_fails := no_failure |}.

(** A freshly initialised indexer. *)
Definition fresh_world : World :=
  {| db := create_tables empty_db; block_timestamp_cache := ∅; trace := [] |}.

(** An indexer whose store knows market 77 and whose checkpoint is 200. *)
Definition synced_db : DB :=
  set_sync_state (<["last_block" := 200]> ∅)
    (snd (discover_and_store_markets env_mixed "rain" (create_tables empty_db))).

Definition synced_world : World :=
  {| db := synced_db; block_timestamp_cache := ∅; trace := [] |}.

(** The row discovery stores for [market_77] in an empty table, and the
    trades of the two sample fills of token 77. *)
Definition row_77 : MarketRow :=
  {| m_id := 1; m_slug := Some "will-it-rain"; m_condition_id := Some "0xabc";
     m_question_id := Some "0xq1"; m_yes_token_id := Some "0x4d";
     m_no_token_id := Some "0x4e"; m_status := Some "ACTIVE" |}.

Definition trade_buy : Trade :=
  trade_record (sample_log 1) args_buy row_77 1700000000.

Definition trade_sell : Trade :=
  trade_record (sample_log 2) args_sell row_77 1700000000.

Definition trade_early : Trade :=
  trade_record (early_log 1) args_buy row_77 1700000000.


(** ** [db/store.py]: the read side *)

(** [SELECT * FROM markets WHERE slug = ?], [fetchone()]. *)
Definition fetch_market_by_slug (slug : string) : M DB (option MarketRow) :=
  gets (fun db => find (fun r => sql_eq (m_slug r) (Some slug)) (markets db)).

(** [ORDER BY timestamp DESC, log_index DESC]: [a] may come before [b]. *)
Definition newer_first (a b : TradeRow) : bool :=
  (row_timestamp b <? row_timestamp a)
  || ((row_timestamp a =? row_timestamp b)
      && (row_log_index b <=? row_log_index a)).

(** The sorter of SQLite keeps rows that tie on the sort columns in the
    order in which the scan of [idx_trades_market_id] delivers them, the
    rowid order: [r], which precedes the rows of [sorted] in that order,
    goes before the first row it may come before. *)
Fixpoint sorter_insert (r : TradeRow) (sorted : list TradeRow) : list TradeRow :=
  match sorted with
  | [] => [r]
  | x :: rest =>
      if newer_first r x then r :: sorted else x :: sorter_insert r rest
  end.

Definition order_by (rows : list TradeRow) : list TradeRow :=
  fold_right sorter_insert [] rows.

(** [LIMIT ? OFFSET ?] of SQLite: a negative limit is no limit, a negative
    offset is 0. *)
Definition limit_offset {A} (limit offset : Z) (rows : list A) : list A :=
  let rows := drop (Z.to_nat offset) rows in
  if limit <? 0 then rows else take (Z.to_nat limit) rows.

(** [fetch_trades_for_market]: the cursor is an offset. *)
Definition fetch_trades_for_market (market_id limit cursor_val : Z)
  : M DB (list TradeRow) :=
  gets (fun db =>
          let offset := cursor_val in
          limit_offset limit offset
            (order_by
               (List.filter (fun r => row_market_id r =? market_id) (trades db)))).

(** ** [api/server.py] *)

Inductive http (A : Type) : Type :=
  | Response (a : A)
  | HTTPException (status_code : Z) (detail : string).
Arguments Response {A} a.
Arguments HTTPException {A} status_code detail.

(** [store] is the module-level [Optional[Store]]: [None] until
    [start_server] has run. *)
Definition get_market (store : option DB) (slug : string) : http MarketRow :=
  match store with
  | None => HTTPException 500 "Database not initialized"
  | Some d =>
      match fst (fetch_market_by_slug slug d) with
      | Ok (Some market) => Response market
      | _ => HTTPException 404 "Market not found"
      end
  end.

(** [limit] and [cursor] are query parameters with defaults 100 and 0. *)
Definition get_market_trades (store : option DB) (slug : string)
    (limit cursor : option Z) : http (list TradeRow) :=
  let limit := match limit with Some n => n | None => 100 end in
  let cursor := match cursor with Some n => n | None => 0 end in
  match store with
  | None => HTTPException 500 "Database not initialized"
  | Some d =>
      match fst (fetch_market_by_slug slug d) with
      | Ok (Some market) =>
          let market_id := m_id market in
          match fst (fetch_trades_for_market market_id limit cursor d) with
          | Ok trades => Response trades
          | Raise _ => HTTPException 500 "Internal Server Error"
          end
      | _ => HTTPException 404 "Market not found"
      end
  end.

(** ** [demo.py] *)

(** The parsed command line. *)
Record Args : Type := {
  a_tx_hash : option string;
  a_event_slug : option string;
  a_reset_db : bool;
  a_from_block : option Z;
  a_to_block : option Z
}.

(** The ["stage2"] object that [main] writes. *)
Record Stage2 : Type := {
  o_from_block : Z;
  o_to_block : Z;
  o_inserted_trades : nat;
  o_market_slug : option string;
  o_market_id : option Z;
  o_sample_trades : list Trade
}.

(** Truth value of an optional [int] argument. *)
Definition int_truthy (n : option Z) : bool :=
  match n with
  | Some v => negb (v =? 0)
  | None => false
  end.

Definition stage2 (args : Args) (trades : list Trade) : Stage2 :=
  {| o_from_block :=
       if int_truthy (a_from_block args)
       then match a_from_block args with Some v => v | None => 0 end
       else match trades with t :: _ => t_block_number t | [] => 0 end;
     o_to_block :=
       if int_truthy (a_to_block args)
       then match a_to_block args with Some v => v | None => 0 end
       else match last trades with Some t => t_block_number t | None => 0 end;
     o_inserted_trades := List.length trades;
     o_market_slug := a_event_slug args;
     o_market_id :=
       match trades with t :: _ => Some (t_market_id t) | [] => None end;
     o_sample_trades := take 5 trades |}.

(** [main] up to the output object. [rpc_url] is the environment variable,
    [get_transaction_receipt tx] the block number of the receipt ([None]
    when the call raises); the world is the database file at [--db] (an
    absent file reads as the empty database) with the trace so far; the
    [Indexer] is created anew. [None] is the early return without output. *)
Definition main (env : Env) (get_transaction_receipt : string -> option Z)
    (rpc_url : option string) (args : Args) : M World (option Stage2) :=
  if negb (str_truthy rpc_url) then emit LogError >> ret None
  else
    modify (fun w =>
              {| db := create_tables (if a_reset_db args then empty_db else db w);
                 block_timestamp_cache := ∅;
                 trace := trace w |}) >>
    (match a_event_slug args with
     | Some slug =>
         if negb (String.eqb slug "") then
           emit (CallDiscoverAndStoreMarkets slug) >>
           with_store (discover_and_store_markets env slug) >> ret tt
         else ret tt
     | None => ret tt
     end) >>
    let* trades :=
      (if str_truthy (a_tx_hash args) then
         let tx_hash := match a_tx_hash args with Some h => h | None => "" end in
         match get_transaction_receipt tx_hash with
         | None => emit LogError >> ret []
         | Some block_number =>
             try_except
               (let* block_trades :=
                  run_indexer env block_number block_number (a_event_slug args) in
                ret (List.filter
                       (fun t => String.eqb (lower (t_tx_hash t)) (lower tx_hash))
                       block_trades))
               (fun _ => emit LogError >> ret [])
         end
       else if int_truthy (a_from_block args) && int_truthy (a_to_block args) then
         run_indexer env
           (match a_from_block args with Some v => v | None => 0 end)
           (match a_to_block args with Some v => v | None => 0 end)
           (a_event_slug args)
       else emit LogWarning >> ret []) in
    ret (Some (stage2 args trades)).

(** ** Vocabulary of the further statements *)

(** A row holds the values of [market_data] in every column that
    [upsert_market] writes on both of its paths. *)
Definition carries (market_data : MarketData) (r : MarketRow) : Prop :=
  m_slug r = md_slug market_data /\
  m_question_id r = md_question_id market_data /\
  m_yes_token_id r = md_yes_token_id market_data /\
  m_no_token_id r = md_no_token_id market_data /\
  m_status r = Some (md_status market_data).


(** The values [process_market_data] derives from [market_77], and the
    database after storing them in an empty one. *)
Definition data_77 : MarketData :=
  {| md_slug := Some "will-it-rain"; md_condition_id := Some "0xabc";
     md_question_id := Some "0xq1"; md_yes_token_id := Some "0x4d";
     md_no_token_id := Some "0x4e"; md_status := "ACTIVE" |}.

Definition db_77 : DB :=
  snd (upsert_market env_mixed data_77 (create_tables empty_db)).

(** What a batch adds: rows at the end of the table, one for a trade of the
    batch whose key was absent, each with an id above every id of before. *)
Definition added_by (l : list Trade) (d : DB) (news : list TradeRow) : Prop :=
  (List.length news <= List.length l)%nat /\
  Forall (fun r =>
            (exists t, In t l /\ r = trade_row (row_id r) t /\ ~ persisted t d) /\
            (forall r0, In r0 (trades d) -> row_id r0 < row_id r)) news.

(** The sample store after the two fills of token 77 were inserted. *)
Definition db_traded : DB :=
  snd (insert_trades env_mixed [trade_buy; trade_sell] synced_db).

(** Whether [process_market_data] accepts a registry entry. *)
Definition accepted (env : Env) (market : RawMarket) : bool :=
  match process_market_data env market with
  | Some _ => true
  | None => false
  end.

(** The timestamp cache of [w'] holds what the cache of [w] held, and
    beyond that only timestamps the RPC client gave. *)
Definition cache_grows (env : Env) (w w' : World) : Prop :=
  (forall n ts, block_timestamp_cache w !! n = Some ts ->
                block_timestamp_cache w' !! n = Some ts) /\
  (forall n ts, block_timestamp_cache w' !! n = Some ts ->
                block_timestamp_cache w !! n = Some ts \/ get_block env n = Some ts).

(** Every registry refresh recorded in [w'] was already recorded in [w]. *)
Definition no_new_discovery (w w' : World) : Prop :=
  forall s, In (CallDiscoverAndStoreMarkets s) (trace w') ->
            In (CallDiscoverAndStoreMarkets s) (trace w).

(** The key of a log, as the key of the trade made from it. *)
Definition log_key (log : Log) : string * Z :=
  (to_hex (transactionHash log), logIndex log).

Definition trade_key_of (t : Trade) : string * Z := (t_tx_hash t, t_log_index t).

(** What the per-log part of a run may do between two worlds: it leaves the
    trades table and the checkpoint alone, only adds fetched timestamps to
    the cache, and without an event slug leaves the whole database alone
    and refreshes nothing. *)
Definition loop_frame (env : Env) (slug : option string) (w w' : World) : Prop :=
  trades_untouched (db w) (db w') /\
  cache_grows env w w' /\
  (str_truthy slug = false -> db w' = db w /\ no_new_discovery w w').

(** The world [main] indexes from: the database file after the optional
    reset and [init_db], and a new [Indexer]. *)
Definition main_setup (args : Args) (w : World) : World :=
  {| db := create_tables (if a_reset_db args then empty_db else db w);
     block_timestamp_cache := ∅;
     trace := trace w |}.

(** The market discovery of [main], made when an event slug is given. *)
Definition main_discovery (env : Env) (args : Args) : M World unit :=
  match a_event_slug args with
  | Some slug =>
      if negb (String.eqb slug "") then
        emit (CallDiscoverAndStoreMarkets slug) >>
        with_store (discover_and_store_markets env slug) >> ret tt
      else ret tt
  | None => ret tt
  end.

(** The logic decision of [main]: the trades of the mode that the
    arguments select. *)
Definition index_by_mode (env : Env) (get_transaction_receipt : string -> option Z)
    (args : Args) : M World (list Trade) :=
  if str_truthy (a_tx_hash args) then
    let tx_hash := match a_tx_hash args with Some h => h | None => "" end in
    match get_transaction_receipt tx_hash with
    | None => emit LogError >> ret []
    | Some block_number =>
        try_except
          (let* block_trades :=
             run_indexer env block_number block_number (a_event_slug args) in
           ret (List.filter
                  (fun t => String.eqb (lower (t_tx_hash t)) (lower tx_hash))
                  block_trades))
          (fun _ => emit LogError >> ret [])
    end
  else if int_truthy (a_from_block args) && int_truthy (a_to_block args) then
    run_indexer env
      (match a_from_block args with Some v => v | None => 0 end)
      (match a_to_block args with Some v => v | None => 0 end)
      (a_event_slug args)
  else emit LogWarning >> ret [].

(** A receipt lookup that knows the sample transaction, in block 150. *)
Definition sample_receipt (tx_hash : string) : option Z :=
  if String.eqb (lower tx_hash) "0x6162" then Some 150 else None.

Definition args_tx : Args :=
  {| a_tx_hash := Some "0X6162"; a_event_slug := None; a_reset_db := false;
     a_from_block := Some 1; a_to_block := Some 2 |}.

(** The sample transaction, with an event slug. *)
Definition args_tx_slug : Args :=
  {| a_tx_hash := Some "0X6162"; a_event_slug := Some "rain"; a_reset_db := false;
     a_from_block := None; a_to_block := None |}.

(** A transaction of which the node has no receipt. *)
Definition args_tx_unknown : Args :=
  {| a_tx_hash := Some "0xdead"; a_event_slug := None; a_reset_db := false;
     a_from_block := None; a_to_block := None |}.

Definition args_from_zero : Args :=
  {| a_tx_hash := None; a_event_slug := None; a_reset_db := false;
     a_from_block := Some 0; a_to_block := Some 200 |}.

Definition args_range : Args :=
  {| a_tx_hash := None; a_event_slug := None; a_reset_db := false;
     a_from_block := Some 100; a_to_block := Some 200 |}.

(** * Properties *)

(** ** Built-ins *)

Lemma lower_raw_of_pos (p : positive) (rest : string) :
  lower (HexString.Raw.of_pos p rest) = HexString.Raw.of_pos p (lower rest).
Proof.
  revert p rest. fix IH 1. intros p rest.
  do 4 try destruct p as [p|p|]; try reflexivity; cbn [HexString.Raw.of_pos];
    rewrite IH; reflexivity.
Qed.

(** [hex] yields no uppercase character: [.lower()] leaves it as it is. *)
Lemma lower_hex (n : Z) : lower (hex n) = hex n.
Proof.
  unfold hex, HexString.of_Z, HexString.of_pos.
  destruct n as [|p|p]; [reflexivity| |]; cbn [lower];
    rewrite lower_raw_of_pos; reflexivity.
Qed.

(** The rendering identifies the integer. *)
Lemma hex_inj (a b : Z) : hex a = hex b -> a = b.
Proof.
  intros H. rewrite <- (HexString.to_Z_of_Z a), <- (HexString.to_Z_of_Z b).
  unfold hex in H. now rewrite H.
Qed.

(** Rounding: [round_half_even], [ilog] and [round_sig]. *)
Lemma round_half_even_comp (q q' : Q) :
  (q == q')%Q -> round_half_even q = round_half_even q'.
Proof.
  intros E. unfold round_half_even. rewrite (Qfloor_comp _ _ E).
  assert (C : (q - inject_Z (Qfloor q') ?= 1 # 2)%Q
              = (q' - inject_Z (Qfloor q') ?= 1 # 2)%Q).
  { apply Qcompare_comp; [now rewrite E | reflexivity]. }
  now rewrite C.
Qed.

Lemma round_half_even_Z (k : Z) : round_half_even (inject_Z k) = k.
Proof.
  unfold round_half_even. rewrite Qfloor_Z.
  assert (C : (inject_Z k - inject_Z k ?= 1 # 2)%Q = Lt).
  { apply Qlt_alt. unfold Qminus. rewrite Qplus_opp_r. reflexivity. }
  now rewrite C.
Qed.

Lemma round_half_even_near (q : Q) :
  (Qabs (inject_Z (round_half_even q) - q) <= 1 # 2)%Q.
Proof.
  unfold round_half_even.
  pose proof (Qfloor_le q) as L. pose proof (Qlt_floor q) as U.
  rewrite inject_Z_plus in U.
  set (f := Qfloor q) in *.
  assert (S1 : inject_Z (f + 1) = (inject_Z f + 1)%Q) by apply inject_Z_plus.
  change (inject_Z 1) with 1%Q in U.
  apply Qabs_Qle_condition.
  destruct (Qcompare_spec (q - inject_Z f) (1 # 2)) as [E|E|E];
    [destruct (Z.even f)| |]; rewrite ?S1;
    generalize dependent (inject_Z f); intros x; intros; lra.
Qed.

Lemma round_half_even_nonneg (q : Q) : (0 <= q)%Q -> 0 <= round_half_even q.
Proof.
  intros H. unfold round_half_even.
  assert (F : 0 <= Qfloor q).
  { rewrite <- (Qfloor_Z 0). apply Qfloor_resp_le. exact H. }
  destruct (_ ?= _)%Q; [destruct (Z.even _)| |]; lia.
Qed.

Lemma zlog_aux_spec (fuel : nat) (b n : Z) :
  2 <= b -> 1 <= n -> n < 2 ^ Z.of_nat fuel ->
  0 <= zlog_aux fuel b n /\
  b ^ zlog_aux fuel b n <= n < b ^ (zlog_aux fuel b n + 1).
Proof.
  intros Hb. revert n. induction fuel as [|fuel IH]; intros n Hn Hf.
  - cbn in Hf. lia.
  - cbn [zlog_aux]. destruct (Z.ltb_spec n b) as [L|L].
    + split; [lia|]. cbn. lia.
    + assert (H1 : 1 <= n / b) by (apply Z.div_le_lower_bound; lia).
      assert (H2 : n / b < 2 ^ Z.of_nat fuel).
      { apply Z.div_lt_upper_bound; [lia|].
        rewrite Nat2Z.inj_succ, Z.pow_succ_r in Hf by lia.
        assert (0 < 2 ^ Z.of_nat fuel) by (apply Z.pow_pos_nonneg; lia). nia. }
      destruct (IH _ H1 H2) as (P & Lo & Hi).
      set (k := zlog_aux fuel b (n / b)) in *.
      split; [lia|].
      replace (1 + k) with (Z.succ k) by lia.
      replace (Z.succ k + 1) with (Z.succ (k + 1)) by lia.
      rewrite !Z.pow_succ_r by lia.
      pose proof (Z.mul_div_le n b ltac:(lia)).
      pose proof (Z.mul_succ_div_gt n b ltac:(lia)).
      split; nia.
Qed.

Lemma zlog_spec (b n : Z) :
  2 <= b -> 1 <= n ->
  0 <= zlog b n /\ b ^ zlog b n <= n < b ^ (zlog b n + 1).
Proof.
  intros Hb Hn. apply zlog_aux_spec; [exact Hb|exact Hn|].
  rewrite Nat2Z.inj_succ, Z2Nat.id by apply Z.log2_nonneg.
  apply Z.log2_spec. lia.
Qed.

(** The leading digit of [q]: [b ^ ilog b q <= |q|]. *)
Lemma ilog_le (b : Z) (q : Q) :
  2 <= b -> ~ (q == 0)%Q -> (inject_Z b ^ ilog b q <= Qabs q)%Q.
Proof.
  intros Hb Hq. unfold ilog.
  set (n := Z.abs (Qnum q)). set (d := Zpos (Qden q)).
  destruct (Qle_bool _ _) eqn:E; [now apply Qle_bool_iff|].
  assert (Hn : 1 <= n).
  { unfold n. destruct q as [qn qd]. unfold Qeq in Hq. cbn in *. lia. }
  destruct (zlog_spec b n Hb Hn) as (Pn & Ln & _).
  destruct (zlog_spec b d Hb ltac:(unfold d; lia)) as (Pd & _ & Ud).
  set (zn := zlog b n) in *. set (zd := zlog b d) in *.
  assert (B0 : ~ (inject_Z b == 0)%Q).
  { unfold Qeq. cbn. lia. }
  replace (zn - zd - 1) with (zn - (zd + 1)) by lia.
  rewrite (Qpower_minus _ _ _ B0).
  rewrite <- !Zpower_Qpower by lia.
  assert (Y : 0 < b ^ (zd + 1)) by (apply Z.pow_pos_nonneg; lia).
  apply Qle_shift_div_r.
  - unfold Qlt, inject_Z; cbn [Qnum Qden]. lia.
  - assert (A : Qabs q = (n # Qden q)) by (destruct q; reflexivity).
    rewrite A. unfold Qle, Qmult, inject_Z; cbn [Qnum Qden]. fold d.
    assert (0 <= b ^ zn) by (apply Z.pow_nonneg; lia). nia.
Qed.

Lemma ilog_lt (b : Z) (q : Q) :
  2 <= b -> ~ (q == 0)%Q -> (Qabs q < inject_Z b ^ (ilog b q + 1))%Q.
Proof.
  intros Hb Hq. unfold ilog.
  set (n := Z.abs (Qnum q)). set (d := Zpos (Qden q)).
  assert (Hn : 1 <= n).
  { unfold n. destruct q as [qn qd]. unfold Qeq in Hq. cbn in *. lia. }
  destruct (zlog_spec b n Hb Hn) as (Pn & _ & Un).
  destruct (zlog_spec b d Hb ltac:(unfold d; lia)) as (Pd & Ld & _).
  set (zn := zlog b n) in *. set (zd := zlog b d) in *.
  assert (B0 : ~ (inject_Z b == 0)%Q).
  { unfold Qeq. cbn. lia. }
  destruct (Qle_bool _ _) eqn:E.
  - replace (zn - zd + 1) with (zn + 1 - zd) by lia.
    rewrite (Qpower_minus _ _ _ B0).
    rewrite <- !Zpower_Qpower by lia.
    assert (Y : 0 < b ^ zd) by (apply Z.pow_pos_nonneg; lia).
    apply Qlt_shift_div_l.
    + unfold Qlt, inject_Z; cbn [Qnum Qden]. lia.
    + assert (A : Qabs q = (n # Qden q)) by (destruct q; reflexivity).
      rewrite A. unfold Qlt, Qmult, inject_Z; cbn [Qnum Qden]. fold d. nia.
  - replace (zn - zd - 1 + 1) with (zn - zd) by lia.
    apply Qnot_le_lt. intros C. apply Qle_bool_iff in C. congruence.
Qed.

Lemma Qpower_base_pos (b e : Z) : 2 <= b -> (0 < inject_Z b ^ e)%Q.
Proof. intros H. apply Qpower_0_lt. unfold Qlt. cbn. lia. Qed.

Lemma round_sig_eq (b p : Z) (q : Q) :
  ~ (q == 0)%Q ->
  (round_sig b p q ==
   inject_Z (round_half_even (q / inject_Z b ^ (ilog b q - (p - 1))))
   * inject_Z b ^ (ilog b q - (p - 1)))%Q.
Proof.
  intros Hq. unfold round_sig.
  destruct (Z.eqb_spec (Qnum q) 0) as [E|E].
  - exfalso. apply Hq. unfold Qeq. rewrite E. reflexivity.
  - apply Qred_correct.
Qed.

Lemma round_sig_0 (b p : Z) (q : Q) : (q == 0)%Q -> round_sig b p q = 0%Q.
Proof.
  intros Hq. unfold round_sig.
  assert (Qnum q = 0) as -> by (unfold Qeq in Hq; cbn in Hq; lia).
  reflexivity.
Qed.

(** Rounding does not change the sign. *)
Lemma round_sig_nonneg (b p : Z) (q : Q) :
  2 <= b -> (0 <= q)%Q -> (0 <= round_sig b p q)%Q.
Proof.
  intros Hb Hq. unfold round_sig.
  destruct (Qnum q =? 0); [apply Qle_refl|].
  rewrite Qred_correct.
  pose proof (Qpower_base_pos b (ilog b q - (p - 1)) Hb) as P.
  apply Qmult_le_0_compat; [|now apply Qlt_le_weak].
  change 0%Q with (inject_Z 0). rewrite <- Zle_Qle.
  apply round_half_even_nonneg. apply Qle_shift_div_l; [exact P|].
  now rewrite Qmult_0_l.
Qed.

(** The relative error of rounding to [p] digits is at most half a unit of
    the last digit. *)
Lemma round_sig_error (b p : Z) (q : Q) :
  2 <= b ->
  (Qabs (round_sig b p q - q) <= Qabs q * (inject_Z b ^ (1 - p) / 2))%Q.
Proof.
  intros Hb.
  destruct (Qeq_dec q 0) as [Z0|NZ].
  - rewrite (round_sig_0 _ _ _ Z0).
    assert (E0 : (0 - q == 0)%Q) by (rewrite Z0; reflexivity).
    rewrite (Qabs_wd _ _ E0). cbn [Qabs Z.abs Qnum Qden].
    apply Qmult_le_0_compat; [apply Qabs_nonneg|].
    pose proof (Qpower_base_pos b (1 - p) Hb). apply Qlt_le_weak.
    apply Qlt_shift_div_l; [reflexivity|]. now rewrite Qmult_0_l.
  - rewrite (round_sig_eq _ _ _ NZ).
    set (e := ilog b q - (p - 1)).
    pose proof (Qpower_base_pos b e Hb) as P.
    set (B := (inject_Z b ^ e)%Q) in *.
    pose proof (round_half_even_near (q / B)) as N.
    set (k := inject_Z (round_half_even (q / B))) in *.
    assert (E1 : (k * B - q == (k - q / B) * B)%Q) by (field; lra).
    rewrite E1, Qabs_Qmult, (Qabs_pos B) by lra.
    assert (B0 : ~ (inject_Z b == 0)%Q) by (unfold Qeq; cbn; lia).
    assert (E2 : (B == inject_Z b ^ ilog b q * inject_Z b ^ (1 - p))%Q).
    { unfold B, e. rewrite <- (Qpower_plus _ _ _ B0).
      replace (ilog b q + (1 - p)) with (ilog b q - (p - 1)) by lia. reflexivity. }
    pose proof (ilog_le b q Hb NZ) as L.
    pose proof (Qpower_base_pos b (1 - p) Hb) as P1.
    pose proof (Qpower_base_pos b (ilog b q) Hb) as P2.
    set (u := (inject_Z b ^ (1 - p))%Q) in *.
    set (v := (inject_Z b ^ ilog b q)%Q) in *.
    apply (Qle_trans _ ((1 # 2) * B)).
    + apply Qmult_le_compat_r; [exact N | lra].
    + rewrite E2.
      assert (E3 : (Qabs q * (u / 2) == (1 # 2) * (Qabs q * u))%Q) by field.
      rewrite E3.
      apply Qmult_le_l; [reflexivity|].
      apply Qmult_le_compat_r; [exact L | lra].
Qed.

(** An integer below [2 ^ 53] is a binary64. *)
Lemma float_of_int_exact (n : Z) :
  Z.abs n < 2 ^ 53 -> (float_of_int n == inject_Z n)%Q.
Proof.
  intros Hn. unfold float_of_int, float_of_decimal.
  destruct (Z.eq_dec n 0) as [->|N0]; [reflexivity|].
  assert (NZ : ~ (inject_Z n == 0)%Q) by (unfold Qeq; cbn; lia).
  rewrite (round_sig_eq _ _ _ NZ).
  set (e := ilog 2 (inject_Z n) - (53 - 1)).
  assert (He : e <= 0).
  { destruct (Z.le_gt_cases 53 (ilog 2 (inject_Z n))) as [C|C]; [|unfold e; lia].
    exfalso. pose proof (ilog_le 2 (inject_Z n) ltac:(lia) NZ) as L.
    pose proof (Qpower_le_compat_l (inject_Z 2) 53 _ C ltac:(discriminate)) as P.
    assert (A : Qabs (inject_Z n) = inject_Z (Z.abs n)) by reflexivity.
    rewrite A in L. pose proof (Qle_trans _ _ _ P L) as T.
    rewrite <- Zpower_Qpower in T by lia. rewrite <- Zle_Qle in T. lia. }
  assert (B0 : ~ (inject_Z 2 == 0)%Q) by discriminate.
  assert (P : (inject_Z 2 ^ e * inject_Z (2 ^ (- e)) == 1)%Q).
  { rewrite Zpower_Qpower by lia. rewrite <- (Qpower_plus _ _ _ B0).
    replace (e + - e) with 0 by lia. reflexivity. }
  pose proof (Qpower_base_pos 2 e ltac:(lia)) as Pe.
  assert (Y : (inject_Z (2 ^ (- e)) == / inject_Z 2 ^ e)%Q).
  { apply Qmult_inj_l with (z := (inject_Z 2 ^ e)%Q); [lra|].
    rewrite P, Qmult_inv_r; [reflexivity | lra]. }
  assert (X : (inject_Z n / inject_Z 2 ^ e == inject_Z (n * 2 ^ (- e)))%Q).
  { rewrite inject_Z_mult, Y. reflexivity. }
  rewrite (round_half_even_comp _ _ X), round_half_even_Z, inject_Z_mult.
  rewrite <- Qmult_assoc, (Qmult_comm (inject_Z (2 ^ (- e)))), P. ring.
Qed.

(** The price of a fill: the quotient as a 28-digit [Decimal], then as a
    [float], is within [2 ^ -52] of the quotient, relatively. *)
Lemma float_of_quotient_accuracy (q : Q) :
  (Qabs (float_of_decimal (round_sig 10 28 q) - q) <= Qabs q * 2 ^ (- 52))%Q.
Proof.
  unfold float_of_decimal.
  pose proof (round_sig_error 10 28 q ltac:(lia)) as E1.
  pose proof (round_sig_error 2 53 (round_sig 10 28 q) ltac:(lia)) as E2.
  set (d := round_sig 10 28 q) in *. set (f := round_sig 2 53 d) in *.
  assert (T1 : (Qabs (f - q) <= Qabs (f - d) + Qabs (d - q))%Q).
  { assert (E : (f - q == (f - d) + (d - q))%Q) by ring.
    rewrite (Qabs_wd _ _ E). apply Qabs_triangle. }
  assert (T2 : (Qabs d <= Qabs (d - q) + Qabs q)%Q).
  { assert (E : (d == (d - q) + q)%Q) by ring.
    rewrite (Qabs_wd _ _ E) at 1. apply Qabs_triangle. }
  assert (C10 : (inject_Z 10 ^ (1 - 28) / 2 == 1 # 2000000000000000000000000000)%Q)
    by reflexivity.
  assert (C2 : (inject_Z 2 ^ (1 - 53) / 2 == 1 # 9007199254740992)%Q) by reflexivity.
  assert (C52 : (2 ^ (- 52) == 1 # 4503599627370496)%Q) by reflexivity.
  rewrite C10 in E1. rewrite C2 in E2. rewrite C52.
  pose proof (Qabs_nonneg q) as N.
  generalize dependent (Qabs (f - q)). generalize dependent (Qabs (f - d)).
  generalize dependent (Qabs (d - q)). generalize dependent (Qabs d).
  generalize dependent (Qabs q). intros. lra.
Qed.

Lemma decimal_div_zero (a : Z) : decimal_div a 0 = Raise DivisionByZero.
Proof. reflexivity. Qed.

Lemma decimal_div_nonzero (a b : Z) :
  b <> 0 -> decimal_div a b = Ok (round_sig 10 28 (inject_Z a / inject_Z b)).
Proof.
  intros H. unfold decimal_div. destruct (Z.eqb_spec b 0); [contradiction|reflexivity].
Qed.

Example hex_examples :
  hex 77 = "0x4d" /\ hex 0 = "0x0" /\ hex 255 = "0xff" /\ hex (-255) = "-0xff".
Proof. repeat split. Qed.

Example int_of_str_examples :
  int_of_str "77" = Some 77 /\ int_of_str " 1_000 " = Some 1000 /\
  int_of_str "-12" = Some (-12) /\ int_of_str "007" = Some 7 /\
  int_of_str "0x4d" = None /\ int_of_str "1__0" = None /\ int_of_str "" = None.
Proof. repeat split. Qed.

(** [int] skips the whitespace of C, which the separators 0x1c-0x1f are
    not; a [float] is truncated towards zero. *)
Example py_int_examples :
  py_int (JStr (String (ascii_of_N 9) "7 ")) = Some 7 /\
  py_int (JStr (String (ascii_of_N 31) "7")) = None /\
  py_int (JStr "7.5") = None /\
  py_int (JFloat (Some (3 # 2))) = Some 1 /\
  py_int (JFloat (Some (- 3 # 2))) = Some (-1) /\
  py_int (JFloat None) = None /\ py_int JNull = None.
Proof. repeat split. Qed.

(** [Decimal(1) / Decimal(3)] has 28 digits, and its [float] is
    0.3333333333333333; above [2 ^ 53] a [float] is not every integer. *)
Example float_examples :
  decimal_div 1 3
  = Ok (3333333333333333333333333333 # 10000000000000000000000000000)%Q /\
  float_of_decimal (3333333333333333333333333333 # 10000000000000000000000000000)
  = (6004799503160661 # 18014398509481984)%Q /\
  float_of_decimal (1 # 10) = (3602879701896397 # 36028797018963968)%Q /\
  float_of_int (2 ^ 53 + 1) = inject_Z (2 ^ 53) /\
  float_of_int (2 ^ 53 + 3) = inject_Z (2 ^ 53 + 4) /\
  float_of_int (2 ^ 256 - 1) = inject_Z (2 ^ 256).
Proof. repeat split; vm_compute; reflexivity. Qed.

Example to_hex_example : to_hex "ab" = "0x6162".
Proof. reflexivity. Qed.

(** Scenario B of the specification. *)
Example trade_sell_fields :
  t_side trade_sell = "SELL" /\ t_price trade_sell = (1 # 2)%Q /\
  t_token_id trade_sell = hex 77 /\ t_size trade_sell = inject_Z 2000000 /\
  t_outcome trade_sell = "YES".
Proof. repeat split. Qed.

(** [test_process_market_data_missing_outcomes]. *)
Example process_market_data_missing_outcomes :
  process_market_data env_mixed
    {| rm_slug := Some "market-bad"; rm_conditionId := None;
       rm_questionID := None; rm_questionId := None;
       rm_active := JNull; rm_closed := JNull; rm_resolved := JNull;
       rm_clobTokenIds := Some (JList [JStr "1"; JStr "2"]);
       rm_outcomes := Some (JList []) |} = None.
Proof. reflexivity. Qed.

(** ** The store *)

(** Of two rows that list a token, the one that lists it as its YES token
    is returned, also when the other one is older. *)
Example fetch_market_by_token_id_prefers_yes :
  forall older newer : MarketRow,
    m_yes_token_id older = Some "0x1" -> m_no_token_id older = Some "0x4d" ->
    m_yes_token_id newer = Some "0x4d" ->
    fst (fetch_market_by_token_id "0x4d"
           (set_markets [older; newer] 2 empty_db)) = Ok (Some newer).
Proof.
  intros older newer Y N Y'. unfold fetch_market_by_token_id, gets. cbn.
  now rewrite Y, Y'.
Qed.

Lemma sql_eq_some (a : option string) (b : string) :
  sql_eq a (Some b) = true <-> a = Some b.
Proof.
  destruct a as [x|]; cbn; [|split; discriminate].
  rewrite String.eqb_eq. split; congruence.
Qed.

(** What [fetch_market_by_token_id] returns is a stored row that lists the
    token; it returns nothing only if no row lists it. *)
Lemma fetch_market_by_token_id_some (tok : string) (d : DB) (m : MarketRow) :
  fst (fetch_market_by_token_id tok d) = Ok (Some m) ->
  In m (markets d) /\ matches_token tok m.
Proof.
  unfold fetch_market_by_token_id, gets, matches_token. cbn. intros [= H].
  destruct (find _ (markets d)) as [r|] eqn:Y.
  - injection H as ->. destruct (find_some _ _ Y) as (Hin & Hy).
    split; [exact Hin|]. left. now apply sql_eq_some.
  - destruct (find_some _ _ H) as (Hin & Hn).
    split; [exact Hin|]. right. now apply sql_eq_some.
Qed.

Lemma fetch_market_by_token_id_none (tok : string) (d : DB) :
  fst (fetch_market_by_token_id tok d) = Ok None ->
  forall r, In r (markets d) -> ~ matches_token tok r.
Proof.
  unfold fetch_market_by_token_id, gets, matches_token. cbn. intros [= H] r Hin.
  destruct (find _ (markets d)) as [x|] eqn:Y; [discriminate H|].
  pose proof (find_none _ _ Y r Hin) as N1. pose proof (find_none _ _ H r Hin) as N2.
  cbn in N1, N2. intros [E | E]; apply sql_eq_some in E; congruence.
Qed.

Lemma fetch_market_by_token_id_finds (tok : string) (d : DB) (r : MarketRow) :
  In r (markets d) -> matches_token tok r ->
  exists m, fetch_market_by_token_id tok d = (Ok (Some m), d).
Proof.
  intros Hin Hm.
  destruct (fst (fetch_market_by_token_id tok d)) as [[m|]|e] eqn:F.
  - exists m. unfold fetch_market_by_token_id, gets in *. cbn in *. congruence.
  - exfalso. exact (fetch_market_by_token_id_none tok d F r Hin Hm).
  - discriminate F.
Qed.

(** [test_sync_state]. *)
Example update_then_get_sync_state :
  checkpoint (snd (update_sync_state env_mixed 12345 (create_tables empty_db)))
    = Ok 12345 /\
  checkpoint (snd (update_sync_state env_mixed 12346
                     (snd (update_sync_state env_mixed 12345
                             (create_tables empty_db)))))
    = Ok 12346.
Proof. split; reflexivity. Qed.

(** [test_insert_trades_idempotency]. *)
Example insert_same_trade_twice :
  List.length (trades (snd (insert_trades env_mixed [trade_buy] synced_db))) = 1%nat /\
  List.length
    (trades (snd (insert_trades env_mixed [trade_buy]
                    (snd (insert_trades env_mixed [trade_buy] synced_db))))) = 1%nat.
Proof. split; vm_compute; reflexivity. Qed.

Lemma same_key_iff (t : Trade) (r : TradeRow) :
  same_key t r = true <-> trade_key r = (t_tx_hash t, t_log_index t).
Proof.
  unfold same_key, trade_key. rewrite andb_true_iff, String.eqb_eq, Z.eqb_eq.
  split; [intros [-> ->]; reflexivity | intros [= -> ->]; auto].
Qed.

Lemma key_present_iff (t : Trade) (rows : list TradeRow) :
  existsb (same_key t) rows = true <->
  In (t_tx_hash t, t_log_index t) (map trade_key rows).
Proof.
  rewrite existsb_exists, in_map_iff. split.
  - intros (r & Hin & Hk). exists r. split; [now apply same_key_iff | exact Hin].
  - intros (r & Hk & Hin). exists r. split; [exact Hin | now apply same_key_iff].
Qed.

Lemma insert_or_ignore_frame (t : Trade) (d : DB) :
  markets (insert_or_ignore t d) = markets d /\
  markets_seq (insert_or_ignore t d) = markets_seq d /\
  sync_state (insert_or_ignore t d) = sync_state d.
Proof. unfold insert_or_ignore. destruct (existsb _ _); cbn; auto. Qed.

(** A row whose key is in the table is skipped. *)
Lemma insert_or_ignore_present (t : Trade) (d : DB) :
  existsb (same_key t) (trades d) = true ->
  trades (insert_or_ignore t d) = trades d.
Proof. intros H. unfold insert_or_ignore. now rewrite H. Qed.

Lemma insert_or_ignore_keeps (t t' : Trade) (d : DB) :
  existsb (same_key t') (trades d) = true ->
  existsb (same_key t') (trades (insert_or_ignore t d)) = true.
Proof.
  intros H. unfold insert_or_ignore. destruct (existsb (same_key t) _); cbn.
  - exact H.
  - rewrite existsb_app, H. reflexivity.
Qed.

Lemma insert_or_ignore_adds (t : Trade) (d : DB) :
  existsb (same_key t) (trades (insert_or_ignore t d)) = true.
Proof.
  destruct (existsb (same_key t) (trades d)) eqn:E;
    unfold insert_or_ignore; rewrite E; cbn.
  - exact E.
  - rewrite existsb_app. cbn. unfold same_key at 2. cbn.
    rewrite String.eqb_refl, Z.eqb_refl. now rewrite orb_true_r.
Qed.

(** The unique index holds after every statement. *)
Lemma insert_or_ignore_unique (t : Trade) (d : DB) :
  NoDup (map trade_key (trades d)) ->
  NoDup (map trade_key (trades (insert_or_ignore t d))).
Proof.
  intros H. destruct (existsb (same_key t) (trades d)) eqn:E;
    unfold insert_or_ignore; rewrite E; cbn; [exact H|].
  rewrite map_app. cbn. apply NoDup_app. split; [exact H|]. split.
  - intros k Hk Hin. apply list_elem_of_In in Hk. apply list_elem_of_In in Hin.
    destruct Hin as [<- | []]. unfold trade_key in Hk at 1. cbn in Hk.
    apply key_present_iff in Hk. congruence.
  - apply NoDup_singleton.
Qed.

Section StoreFacts.

Variable env : Env.

Lemma executemany_frame (l : list Trade) (i : nat) (d d' : DB) :
  executemany env i l d = Ok d' ->
  markets d' = markets d /\ markets_seq d' = markets_seq d /\
  sync_state d' = sync_state d.
Proof.
  revert i d. induction l as [|t l IH]; intros i d H; cbn in H.
  - injection H as <-. auto.
  - destruct (storage_fails env _); [discriminate|].
    apply IH in H. destruct (insert_or_ignore_frame t d) as (A & B & C).
    destruct H as (A' & B' & C'). repeat split; congruence.
Qed.

(** Whether a batch fails does not depend on the table contents. *)
Lemma executemany_no_failure (l : list Trade) (i : nat) (d d' c : DB) :
  executemany env i l d = Ok d' -> exists c', executemany env i l c = Ok c'.
Proof.
  revert i d c. induction l as [|t l IH]; intros i d c H; cbn in *.
  - eauto.
  - destruct (storage_fails env _); [discriminate|]. eapply IH, H.
Qed.

Lemma executemany_keeps (l : list Trade) (i : nat) (d d' : DB) (t' : Trade) :
  executemany env i l d = Ok d' ->
  existsb (same_key t') (trades d) = true ->
  existsb (same_key t') (trades d') = true.
Proof.
  revert i d. induction l as [|t l IH]; intros i d H Hp; cbn in H.
  - injection H as <-. exact Hp.
  - destruct (storage_fails env _); [discriminate|].
    eapply IH; [exact H|]. now apply insert_or_ignore_keeps.
Qed.

(** After a batch, every key of the batch is in the table. *)
Lemma executemany_adds (l : list Trade) (i : nat) (d d' : DB) (t' : Trade) :
  executemany env i l d = Ok d' -> In t' l ->
  existsb (same_key t') (trades d') = true.
Proof.
  revert i d. induction l as [|t l IH]; intros i d H Hin; cbn in H.
  - destruct Hin.
  - destruct (storage_fails env _); [discriminate|].
    destruct Hin as [-> | Hin].
    + eapply executemany_keeps; [exact H|]. apply insert_or_ignore_adds.
    + eapply IH; eauto.
Qed.

(** A batch whose keys are all in the table adds no row. *)
Lemma executemany_all_present (l : list Trade) (i : nat) (d d' : DB) :
  (forall t, In t l -> existsb (same_key t) (trades d) = true) ->
  executemany env i l d = Ok d' -> trades d' = trades d.
Proof.
  revert i d. induction l as [|t l IH]; intros i d Hall H; cbn in H.
  - now injection H as <-.
  - destruct (storage_fails env _); [discriminate|].
    assert (Ht : trades (insert_or_ignore t d) = trades d)
      by (apply insert_or_ignore_present, Hall; now left).
    rewrite <- Ht. eapply IH; [|exact H].
    intros t0 H0. rewrite Ht. apply Hall. now right.
Qed.

Lemma executemany_unique (l : list Trade) (i : nat) (d d' : DB) :
  executemany env i l d = Ok d' ->
  NoDup (map trade_key (trades d)) -> NoDup (map trade_key (trades d')).
Proof.
  revert i d. induction l as [|t l IH]; intros i d H Hn; cbn in H.
  - now injection H as <-.
  - destruct (storage_fails env _); [discriminate|].
    eapply IH; [exact H|]. now apply insert_or_ignore_unique.
Qed.

(** What a successful [insert_trades] leaves behind. *)
Lemma insert_trades_ok (l : list Trade) (d d' : DB) :
  insert_trades env l d = (Ok tt, d') ->
  markets d' = markets d /\ markets_seq d' = markets_seq d /\
  sync_state d' = sync_state d /\
  (forall t, In t l -> persisted t d') /\
  (forall t, persisted t d -> persisted t d').
Proof.
  unfold insert_trades. destruct l as [|t0 l]; intros H.
  - injection H as <-. repeat split; auto. intros t [].
  - destruct (executemany env 0 (t0 :: l) d) as [c|e] eqn:E; [|discriminate].
    injection H as <-. destruct (executemany_frame _ _ _ _ E) as (A & B & C).
    repeat split; auto.
    + intros t Hin. apply existsb_exists. eapply executemany_adds; eauto.
    + intros t Hp. apply existsb_exists. eapply executemany_keeps; eauto.
      now apply existsb_exists.
Qed.

(** A failing [insert_trades] rolls back: the database is unchanged. *)
Lemma insert_trades_raise (l : list Trade) (d d' : DB) (e : exn) :
  insert_trades env l d = (Raise e, d') -> d' = d.
Proof.
  unfold insert_trades. destruct l as [|t0 l]; [discriminate|].
  destruct (executemany env 0 (t0 :: l) d); [discriminate|].
  now intros [= _ <-].
Qed.

Lemma update_sync_state_ok (b : Z) (d d' : DB) :
  update_sync_state env b d = (Ok tt, d') ->
  checkpoint d' = Ok b /\ markets d' = markets d /\ trades d' = trades d.
Proof.
  unfold update_sync_state. destruct (storage_fails env _); [discriminate|].
  intros [= <-]. unfold checkpoint, get_sync_state, gets. cbn.
  rewrite lookup_insert_eq. auto.
Qed.

Lemma update_sync_state_raise (b : Z) (d d' : DB) (e : exn) :
  update_sync_state env b d = (Raise e, d') -> d' = d.
Proof.
  unfold update_sync_state. destruct (storage_fails env _); [|discriminate].
  now intros [= _ <-].
Qed.

End StoreFacts.

(** ** Market discovery leaves trades and checkpoint alone *)

Lemma trades_untouched_refl (d : DB) : trades_untouched d d.
Proof. unfold trades_untouched. auto. Qed.

Lemma trades_untouched_trans (a b c : DB) :
  trades_untouched a b -> trades_untouched b c -> trades_untouched a c.
Proof.
  unfold trades_untouched. intros (A & B & C) (A' & B' & C').
  repeat split; congruence.
Qed.

Lemma trades_untouched_checkpoint (d d' : DB) :
  trades_untouched d d' -> checkpoint d' = checkpoint d.
Proof.
  intros (_ & _ & H). unfold checkpoint, get_sync_state, gets. cbn. now rewrite H.
Qed.

Create HintDb indexer.
#[local] Hint Resolve trades_untouched_refl : indexer.

Section DiscoveryFacts.

Variable env : Env.

Lemma upsert_market_frame (md : MarketData) (d d' : DB) (r : result unit) :
  upsert_market env md d = (r, d') -> trades_untouched d d'.
Proof.
  unfold upsert_market. destruct (storage_fails env _).
  - intros [= _ <-]. apply trades_untouched_refl.
  - destruct (find _ _); intros [= _ <-]; unfold trades_untouched; cbn; auto.
Qed.

Lemma store_markets_frame (ms : list RawMarket) (count : Z) (d d' : DB)
    (r : result Z) :
  store_markets env ms count d = (r, d') -> trades_untouched d d'.
Proof.
  revert count d. induction ms as [|m ms IH]; intros count d H; cbn in H.
  - injection H as _ <-. apply trades_untouched_refl.
  - destruct (process_market_data env m) as [md|]; [|eapply IH, H].
    cbn in H. unfold bind in H.
    destruct (upsert_market env md d) as [[[]|e] d1] eqn:U.
    + eapply trades_untouched_trans; [eapply upsert_market_frame, U|].
      eapply IH, H.
    + injection H as _ <-. eapply upsert_market_frame, U.
Qed.

Lemma discover_and_store_markets_frame (slug : string) (d d' : DB)
    (r : result Z) :
  discover_and_store_markets env slug d = (r, d') -> trades_untouched d d'.
Proof. apply store_markets_frame. Qed.

End DiscoveryFacts.

(** ** The indexer, log by log *)

#[local] Arguments discover_and_store_markets : simpl never.
#[local] Arguments get_block_timestamp : simpl never.
#[local] Arguments decode_and_process_log : simpl never.
#[local] Arguments insert_trades : simpl never.
#[local] Arguments update_sync_state : simpl never.

Ltac run_monad :=
  unfold bind, ret, raise, emit, modify, with_store, gets, try_except,
    fetch_market_by_token_id in *; cbn in *.

Lemma bind_assoc {S A B C} (m : M S A) (f : A -> M S B) (g : B -> M S C) (s : S) :
  bind (bind m f) g s = bind m (fun x => bind (f x) g) s.
Proof. unfold bind. destruct (m s) as [[a|e] s']; reflexivity. Qed.

Lemma bind_ext {S A B} (m : M S A) (f g : A -> M S B) (s : S) :
  (forall a s', f a s' = g a s') -> bind m f s = bind m g s.
Proof. intros H. unfold bind. destruct (m s) as [[a|e] s']; auto. Qed.

Lemma store_writes_app (a b : list Event) :
  store_writes (a ++ b) = store_writes a ++ store_writes b.
Proof. apply List.filter_app. Qed.

Lemma resolver_calls_app (a b : list Event) :
  resolver_calls (a ++ b) = resolver_calls a ++ resolver_calls b.
Proof. apply List.filter_app. Qed.

Section IndexerFacts.

Variable env : Env.

(** The timestamp lookup never raises and leaves the database alone. *)
Lemma get_block_timestamp_inv (n : Z) (w : World) :
  exists ts evs cache,
    get_block_timestamp env n w =
      (Ok ts, {| db := db w; block_timestamp_cache := cache;
                 trace := trace w ++ evs |}) /\
    (evs = [] \/ evs = [LogError]).
Proof.
  unfold get_block_timestamp.
  destruct (block_timestamp_cache w !! n) as [ts|].
  - exists ts, [], (block_timestamp_cache w). rewrite app_nil_r.
    destruct w; auto.
  - destruct (get_block env n) as [ts|].
    + exists ts, [], (<[n := ts]> (block_timestamp_cache w)).
      rewrite app_nil_r. auto.
    + exists 0, [LogError], (block_timestamp_cache w). run_monad. auto.
Qed.

(** [decode_and_process_log] past the self-fill filter, in stages. *)
Lemma decode_stages (log : Log) (slug : option string) (args : OrderFilledArgs)
    (w : World) :
  process_log env log = Some args ->
  String.eqb (lower (taker args)) (lower (address log)) = false ->
  decode_and_process_log env log slug w =
    (let* market := resolve_market env (traded_token_id args) slug in
     match market with
     | Some market =>
         let* timestamp := get_block_timestamp env (blockNumber log) in
         ret (Some (trade_record log args market timestamp))
     | None => emit LogWarning >> ret None
     end) w.
Proof.
  intros Hp Hs. unfold decode_and_process_log, resolve_market, trade_record,
    traded_token_id. rewrite Hp, Hs.
  destruct (makerAssetId args =? 0); run_monad;
    repeat (match goal with
            | |- context [match ?x with _ => _ end] => destruct x; cbn
            | |- context [if ?x then _ else _] => destruct x; cbn
            end); reflexivity.
Qed.

Lemma resolve_hit (tok : string) (slug : option string) (w : World) (m : MarketRow) :
  fst (fetch_market_by_token_id tok (db w)) = Ok (Some m) ->
  resolve_market env tok slug w =
    (Ok (Some m), advance (db w) [CallFetchMarketByTokenId tok] w).
Proof.
  unfold resolve_market, advance. run_monad. intros [= ->]. reflexivity.
Qed.

Lemma resolve_miss_plain (tok : string) (slug : option string) (w : World) :
  fst (fetch_market_by_token_id tok (db w)) = Ok None ->
  str_truthy slug = false ->
  resolve_market env tok slug w =
    (Ok None, advance (db w) [CallFetchMarketByTokenId tok] w).
Proof.
  unfold resolve_market, advance, str_truthy. run_monad. intros [= ->] Hs.
  destruct slug as [s|]; [rewrite Hs|]; reflexivity.
Qed.

Lemma resolve_miss_discovered (tok slug : string) (w : World) (n : Z) (d1 : DB) :
  fst (fetch_market_by_token_id tok (db w)) = Ok None ->
  slug <> "" ->
  discover_and_store_markets env slug (db w) = (Ok n, d1) ->
  resolve_market env tok (Some slug) w =
    (fst (fetch_market_by_token_id tok d1),
     advance d1 [CallFetchMarketByTokenId tok;
                 CallDiscoverAndStoreMarkets slug;
                 CallFetchMarketByTokenId tok] w).
Proof.
  unfold resolve_market, advance. run_monad. intros [= ->] Hs Hd.
  apply String.eqb_neq in Hs. rewrite Hs. cbn. rewrite Hd. cbn.
  rewrite <- !app_assoc. reflexivity.
Qed.

Lemma resolve_miss_raise (tok slug : string) (w : World) (e : exn) (d1 : DB) :
  fst (fetch_market_by_token_id tok (db w)) = Ok None ->
  slug <> "" ->
  discover_and_store_markets env slug (db w) = (Raise e, d1) ->
  resolve_market env tok (Some slug) w =
    (Raise e,
     advance d1 [CallFetchMarketByTokenId tok;
                 CallDiscoverAndStoreMarkets slug] w).
Proof.
  unfold resolve_market, advance. run_monad. intros [= ->] Hs Hd.
  apply String.eqb_neq in Hs. rewrite Hs. cbn. rewrite Hd. cbn.
  rewrite <- !app_assoc. reflexivity.
Qed.

(** However the resolution ends, it wrote no trade and no checkpoint, and
    a market it returns is stored. *)
Lemma resolve_inv (tok : string) (slug : option string) (w w' : World)
    (r : result (option MarketRow)) :
  resolve_market env tok slug w = (r, w') ->
  trades_untouched (db w) (db w') /\
  store_writes (trace w') = store_writes (trace w) /\
  (forall m, r = Ok (Some m) ->
             fst (fetch_market_by_token_id tok (db w')) = Ok (Some m)).
Proof.
  intros H.
  destruct (fst (fetch_market_by_token_id tok (db w))) as [[m|]|e] eqn:F;
    [| |discriminate F].
  - rewrite (resolve_hit _ _ _ _ F) in H. injection H as <- <-. cbn.
    rewrite store_writes_app, app_nil_r. repeat split; auto with indexer.
    intros m' [= <-]. exact F.
  - destruct (str_truthy slug) eqn:Hs.
    + destruct slug as [s|]; [|discriminate Hs]. cbn in Hs.
      apply negb_true_iff, String.eqb_neq in Hs.
      destruct (discover_and_store_markets env s (db w)) as [[n|e] d1] eqn:D.
      * rewrite (resolve_miss_discovered _ _ _ _ _ F Hs D) in H.
        injection H as <- <-. cbn. rewrite store_writes_app, app_nil_r.
        repeat split; try apply (discover_and_store_markets_frame _ _ _ _ _ D).
        auto.
      * rewrite (resolve_miss_raise _ _ _ _ _ F Hs D) in H.
        injection H as <- <-. cbn. rewrite store_writes_app, app_nil_r.
        repeat split; try apply (discover_and_store_markets_frame _ _ _ _ _ D).
        discriminate.
    + rewrite (resolve_miss_plain _ _ _ F Hs) in H. injection H as <- <-. cbn.
      rewrite store_writes_app, app_nil_r. repeat split; auto with indexer.
      discriminate.
Qed.

(** Every outcome of [decode_and_process_log]: nothing is written to the
    trades table or to the checkpoint, and a trade that is returned is the
    record of a decoded fill that is no self-fill and of a stored market
    listing its token. *)
Lemma decode_inv (log : Log) (slug : option string) (w w' : World)
    (r : result (option Trade)) :
  decode_and_process_log env log slug w = (r, w') ->
  trades_untouched (db w) (db w') /\
  store_writes (trace w') = store_writes (trace w) /\
  (forall t, r = Ok (Some t) ->
     exists args m ts,
       process_log env log = Some args /\
       String.eqb (lower (taker args)) (lower (address log)) = false /\
       fst (fetch_market_by_token_id (traded_token_id args) (db w')) = Ok (Some m) /\
       t = trade_record log args m ts).
Proof.
  intros H.
  destruct (process_log env log) as [args|] eqn:Hp.
  2:{ unfold decode_and_process_log in H. rewrite Hp in H.
      injection H as <- <-. repeat split; auto with indexer. discriminate. }
  destruct (String.eqb (lower (taker args)) (lower (address log))) eqn:Hs.
  { unfold decode_and_process_log in H. rewrite Hp, Hs in H.
    injection H as <- <-. repeat split; auto with indexer. discriminate. }
  rewrite (decode_stages _ _ _ _ Hp Hs) in H. unfold bind at 1 in H.
  destruct (resolve_market env (traded_token_id args) slug w)
    as [[[m|]|e] w1] eqn:R;
    destruct (resolve_inv _ _ _ _ _ R) as (F1 & F2 & F3).
  - unfold bind in H.
    destruct (get_block_timestamp_inv (blockNumber log) w1)
      as (ts & evs & cache & G & Hev).
    rewrite G in H. injection H as <- <-. cbn.
    rewrite store_writes_app.
    assert (store_writes evs = []) as -> by (destruct Hev as [-> | ->]; reflexivity).
    rewrite app_nil_r. repeat split; try apply F1; auto.
    intros t [= <-]. exists args, m, ts. auto.
  - run_monad. injection H as <- <-. cbn. rewrite store_writes_app, app_nil_r.
    repeat split; try apply F1; auto. discriminate.
  - injection H as <- <-. repeat split; try apply F1; auto. discriminate.
Qed.

(** The loop never raises; it only appends to the trades collected so
    far, and writes nothing to the trades table or to the checkpoint. *)
Lemma process_logs_inv (logs : list Log) (slug : option string)
    (acc : list Trade) (w : World) :
  exists ts w',
    process_logs env logs slug acc w = (Ok (acc ++ ts), w') /\
    trades_untouched (db w) (db w') /\
    store_writes (trace w') = store_writes (trace w).
Proof.
  revert acc w. induction logs as [|log logs IH]; intros acc w.
  - exists [], w. cbn. rewrite app_nil_r. repeat split; auto with indexer.
  - cbn [process_logs]. unfold bind at 1, try_except, bind at 1.
    destruct (decode_and_process_log env log slug w) as [[[t|]|e] w1] eqn:D;
      destruct (decode_inv _ _ _ _ _ D) as (F1 & F2 & _); cbn.
    + destruct (IH (acc ++ [t]) w1) as (ts & w' & P & G1 & G2).
      exists (t :: ts), w'. rewrite P, <- app_assoc. cbn.
      split; [reflexivity|].
      split; [eapply trades_untouched_trans; eauto | congruence].
    + destruct (IH acc w1) as (ts & w' & P & G1 & G2).
      exists ts, w'. rewrite P.
      split; [reflexivity|].
      split; [eapply trades_untouched_trans; eauto | congruence].
    + run_monad.
      match goal with
      | |- context [process_logs env logs slug acc ?w2] =>
          destruct (IH acc w2) as (ts & w' & P & G1 & G2)
      end.
      exists ts, w'. rewrite P. cbn in G1, G2.
      rewrite store_writes_app, app_nil_r in G2.
      split; [reflexivity|].
      split; [eapply trades_untouched_trans; eauto | congruence].
Qed.

(** A log for which [decode_and_process_log] returns [None] leaves the
    collected trades as they are, and the loop goes on with the rest. *)
Lemma process_logs_dropped (log : Log) (rest : list Log) (slug : option string)
    (acc : list Trade) (w w1 : World) :
  decode_and_process_log env log slug w = (Ok None, w1) ->
  process_logs env (log :: rest) slug acc w = process_logs env rest slug acc w1.
Proof.
  intros D. cbn [process_logs]. unfold bind at 1, try_except, bind at 1.
  rewrite D. reflexivity.
Qed.

Lemma process_logs_kept (log : Log) (rest : list Log) (slug : option string)
    (acc : list Trade) (w w1 : World) (t : Trade) :
  decode_and_process_log env log slug w = (Ok (Some t), w1) ->
  process_logs env (log :: rest) slug acc w =
  process_logs env rest slug (acc ++ [t]) w1.
Proof.
  intros D. cbn [process_logs]. unfold bind at 1, try_except, bind at 1.
  rewrite D. reflexivity.
Qed.

Lemma process_logs_app (l1 l2 : list Log) (slug : option string)
    (acc : list Trade) (w : World) :
  process_logs env (l1 ++ l2) slug acc w =
  (let* collected := process_logs env l1 slug acc in
   process_logs env l2 slug collected) w.
Proof.
  revert acc w. induction l1 as [|log l1 IH]; intros acc w.
  - reflexivity.
  - cbn [process_logs app]. rewrite bind_assoc. apply bind_ext.
    intros a w1. apply IH.
Qed.

End IndexerFacts.

(** ** The indexer, range by range *)

Section RunFacts.

Variable env : Env.

Lemma run_indexer_fetch_failed (from_block to_block : Z)
    (slug : option string) (w : World) :
  get_logs env from_block to_block = None ->
  run_indexer env from_block to_block slug w =
    (Ok [], advance (db w) [CallGetLogs from_block to_block; LogError] w).
Proof.
  intros H. unfold run_indexer, advance. rewrite H. run_monad.
  rewrite <- app_assoc. reflexivity.
Qed.

(** The outcomes of a run whose logs were fetched, by what the loop
    collected and by how the two store calls ended. *)
Lemma run_indexer_cases (from_block to_block : Z) (slug : option string)
    (w w1 : World) (logs : list Log) (ts : list Trade) :
  get_logs env from_block to_block = Some logs ->
  process_logs env logs slug []
    (advance (db w) [CallGetLogs from_block to_block] w) = (Ok ts, w1) ->
  run_indexer env from_block to_block slug w =
    match ts with
    | [] => (Ok [], w1)
    | _ :: _ =>
        match insert_trades env ts (db w1) with
        | (Raise e, d2) => (Raise e, advance d2 [CallInsertTrades ts] w1)
        | (Ok _, d2) =>
            let evs := [CallInsertTrades ts; CallUpdateSyncState to_block] in
            match update_sync_state env to_block d2 with
            | (Ok _, d3) => (Ok ts, advance d3 evs w1)
            | (Raise e, d3) => (Raise e, advance d3 evs w1)
            end
        end
    end.
Proof.
  intros G P. unfold run_indexer. rewrite G.
  unfold bind at 1. unfold emit at 1, modify. unfold bind at 1.
  unfold advance in P. rewrite P. destruct ts as [|t ts]; [reflexivity|].
  unfold advance. run_monad.
  destruct (insert_trades env (t :: ts) (db w1)) as [[[]|e] d2]; cbn;
    [|reflexivity].
  destruct (update_sync_state env to_block d2) as [[[]|e] d3]; cbn;
    rewrite <- app_assoc; reflexivity.
Qed.

(** A run that returns normally went through one of three paths. *)
Lemma run_indexer_ok (from_block to_block : Z) (slug : option string)
    (w w' : World) (ts : list Trade) :
  run_indexer env from_block to_block slug w = (Ok ts, w') ->
  (ts = [] /\ trades_untouched (db w) (db w') /\
   store_writes (trace w') = store_writes (trace w)) \/
  (ts <> [] /\
   exists w1 d2,
     trades_untouched (db w) (db w1) /\
     store_writes (trace w1) = store_writes (trace w) /\
     insert_trades env ts (db w1) = (Ok tt, d2) /\
     update_sync_state env to_block d2 = (Ok tt, db w') /\
     trace w' = trace w1 ++ [CallInsertTrades ts; CallUpdateSyncState to_block]).
Proof.
  intros H. destruct (get_logs env from_block to_block) as [logs|] eqn:G.
  - destruct (process_logs_inv env logs slug []
                (advance (db w) [CallGetLogs from_block to_block] w))
      as (ts1 & w1 & P & F1 & F2).
    cbn in P, F1, F2. rewrite store_writes_app, app_nil_r in F2.
    rewrite (run_indexer_cases _ _ _ _ _ _ _ G P) in H.
    destruct ts1 as [|t ts1].
    + injection H as <- <-. left. auto.
    + destruct (insert_trades env (t :: ts1) (db w1)) as [[[]|e] d2] eqn:I;
        [|discriminate].
      cbn zeta in H.
      destruct (update_sync_state env to_block d2) as [[[]|e] d3] eqn:U;
        [|discriminate].
      injection H as <- <-. right. split; [discriminate|].
      exists w1, d2. cbn. auto.
  - rewrite (run_indexer_fetch_failed _ _ _ _ G) in H. injection H as <- <-.
    left. cbn. rewrite store_writes_app, app_nil_r. auto with indexer.
Qed.

End RunFacts.

(** * The claims *)

Lemma trade_record_buy (log : Log) (args : OrderFilledArgs) (m : MarketRow) (ts : Z) :
  makerAssetId args = 0 ->
  t_side (trade_record log args m ts) = "BUY" /\
  t_token_id (trade_record log args m ts) = hex (takerAssetId args) /\
  t_size (trade_record log args m ts) = float_of_int (takerAmountFilled args) /\
  t_price (trade_record log args m ts) =
    float_of_decimal
      match decimal_div (makerAmountFilled args) (takerAmountFilled args) with
      | Ok p => p
      | Raise _ => 0%Q
      end.
Proof.
  intros H. unfold trade_record, traded_token_id. rewrite H. cbn.
  rewrite lower_hex. auto.
Qed.

Lemma trade_record_sell (log : Log) (args : OrderFilledArgs) (m : MarketRow) (ts : Z) :
  makerAssetId args <> 0 ->
  t_side (trade_record log args m ts) = "SELL" /\
  t_token_id (trade_record log args m ts) = hex (makerAssetId args) /\
  t_size (trade_record log args m ts) = float_of_int (makerAmountFilled args) /\
  t_price (trade_record log args m ts) =
    float_of_decimal
      match decimal_div (takerAmountFilled args) (makerAmountFilled args) with
      | Ok p => p
      | Raise _ => 0%Q
      end.
Proof.
  intros H. apply Z.eqb_neq in H. unfold trade_record, traded_token_id.
  rewrite H. cbn. rewrite lower_hex. auto.
Qed.

Lemma follows_rule_intro (t : Trade) (side : string) (token amount paid : Z) :
  uint256 amount -> uint256 paid ->
  t_side t = side ->
  t_token_id t = hex token ->
  t_size t = float_of_int amount ->
  t_price t = float_of_decimal
                match decimal_div paid amount with Ok p => p | Raise _ => 0%Q end ->
  follows_rule t side token amount paid.
Proof.
  intros Ha Hp S T Z P. unfold follows_rule.
  split; [exact S|]. split; [exact T|].
  split; [rewrite T; apply HexString.to_Z_of_Z|]. split; [exact Z|]. split.
  - intros Hlt. rewrite Z. apply float_of_int_exact. unfold uint256 in Ha. lia.
  - intros Hz. rewrite P, (decimal_div_nonzero _ _ Hz). split; [reflexivity|].
    assert (N : (0 <= inject_Z paid / inject_Z amount)%Q).
    { unfold uint256 in *. apply Qle_shift_div_l.
      - unfold Qlt, inject_Z; cbn [Qnum Qden]. lia.
      - rewrite Qmult_0_l. unfold Qle, inject_Z; cbn [Qnum Qden]. lia. }
    eapply Qle_trans; [apply float_of_quotient_accuracy|].
    rewrite (Qabs_pos _ N). apply Qle_refl.
Qed.

(** C1 — the normalizer of [decode_and_process_log] follows the rule table.
    For a decoded fill with [uint256] amounts that is no self-fill: once the
    market of the token is found (at the first lookup, or at the one after a
    discovery), a trade is returned; and every trade returned is the row of
    the table that [makerAssetId] selects. With [makerAssetId = 0]: side BUY, token
    [takerAssetId], size [takerAmountFilled], price
    [makerAmountFilled / takerAmountFilled]. Otherwise: side SELL, token
    [makerAssetId], size [makerAmountFilled], price
    [takerAmountFilled / makerAmountFilled]. Size and price are the [float]s
    the code stores ([follows_rule]). In particular 500000 against 1000000
    with [makerAssetId = 0] gives BUY at price 1/2 and size 1000000. *)
Theorem normalizer_rule_table (env : Env) (log : Log) (slug : option string)
    (w : World) (args : OrderFilledArgs) :
  process_log env log = Some args ->
  uint256 (makerAmountFilled args) -> uint256 (takerAmountFilled args) ->
  (String.eqb (lower (taker args)) (lower (address log)) = false ->
   (forall m,
      fst (fetch_market_by_token_id (traded_token_id args) (db w)) = Ok (Some m) ->
      exists ts w',
        decode_and_process_log env log slug w
        = (Ok (Some (trade_record log args m ts)), w')) /\
   (forall m w1,
      resolve_market env (traded_token_id args) slug w = (Ok (Some m), w1) ->
      exists ts w',
        decode_and_process_log env log slug w
        = (Ok (Some (trade_record log args m ts)), w'))) /\
  (forall t w',
     decode_and_process_log env log slug w = (Ok (Some t), w') ->
     (makerAssetId args = 0 ->
      follows_rule t "BUY" (takerAssetId args)
        (takerAmountFilled args) (makerAmountFilled args)) /\
     (makerAssetId args <> 0 ->
      follows_rule t "SELL" (makerAssetId args)
        (makerAmountFilled args) (takerAmountFilled args)) /\
     (makerAssetId args = 0 -> makerAmountFilled args = 500000 ->
      takerAmountFilled args = 1000000 ->
      t_side t = "BUY" /\ t_price t = (1 # 2)%Q /\
      t_token_id t = hex (takerAssetId args) /\ t_size t = inject_Z 1000000)).
Proof.
  intros Hp Hma Hta. split.
  - intros Hs.
    assert (Found : forall m w1,
               resolve_market env (traded_token_id args) slug w = (Ok (Some m), w1) ->
               exists ts w',
                 decode_and_process_log env log slug w
                 = (Ok (Some (trade_record log args m ts)), w')).
    { intros m w1 R. rewrite (decode_stages _ _ _ _ _ Hp Hs).
      unfold bind at 1. rewrite R.
      destruct (get_block_timestamp_inv env (blockNumber log) w1)
        as (ts & evs & cache & G & _).
      exists ts. eexists. unfold bind, ret. rewrite G. reflexivity. }
    split; [|exact Found].
    intros m F. exact (Found m _ (resolve_hit _ _ _ _ _ F)).
  - intros t w' Hd. destruct (decode_inv _ _ _ _ _ _ Hd) as (_ & _ & Ht).
    destruct (Ht t eq_refl) as (args' & m & ts & Hp' & _ & _ & ->).
    assert (args' = args) as -> by congruence. clear Ht Hp'.
    split; [|split].
    + intros Hm. destruct (trade_record_buy log args m ts Hm) as (A & B & C & D).
      now apply follows_rule_intro.
    + intros Hm. destruct (trade_record_sell log args m ts Hm) as (A & B & C & D).
      now apply follows_rule_intro.
    + intros Hm Ha Hb.
      destruct (trade_record_buy log args m ts Hm) as (A & B & C & D).
      rewrite D, C, Ha, Hb. repeat split; auto.
Qed.

Lemma normalizer_rule_table_witness :
  (exists ts w',
     decode_and_process_log env_mixed (sample_log 1) None synced_world
     = (Ok (Some (trade_record (sample_log 1) args_buy row_77 ts)), w')) /\
  (exists ts w',
     decode_and_process_log env_mixed (sample_log 2) None synced_world
     = (Ok (Some (trade_record (sample_log 2) args_sell row_77 ts)), w')) /\
  follows_rule trade_buy "BUY" 77 1000000 500000 /\
  follows_rule trade_sell "SELL" 77 2000000 1000000 /\
  t_price trade_buy = (1 # 2)%Q /\ t_size trade_buy = inject_Z 1000000 /\
  t_price trade_sell = (1 # 2)%Q /\ t_size trade_sell = inject_Z 2000000.
Proof.
  assert (U : forall n, (0 <=? n) && (n <? 2 ^ 256) = true -> uint256 n).
  { intros n Hn. unfold uint256. apply andb_true_iff in Hn. lia. }
  destruct (normalizer_rule_table env_mixed (sample_log 1) None synced_world
              args_buy eq_refl (U 500000 eq_refl) (U 1000000 eq_refl))
    as (Buy & RBuy).
  destruct (normalizer_rule_table env_mixed (sample_log 2) None synced_world
              args_sell eq_refl (U 2000000 eq_refl) (U 1000000 eq_refl))
    as (Sell & RSell).
  assert (HB : decode_and_process_log env_mixed (sample_log 1) None synced_world
               = (Ok (Some trade_buy),
                  snd (decode_and_process_log env_mixed (sample_log 1) None
                         synced_world))) by (vm_compute; reflexivity).
  assert (HS : decode_and_process_log env_mixed (sample_log 2) None synced_world
               = (Ok (Some trade_sell),
                  snd (decode_and_process_log env_mixed (sample_log 2) None
                         synced_world))) by (vm_compute; reflexivity).
  split; [|split; [|split; [|split]]].
  - exact (proj1 (Buy eq_refl) row_77 eq_refl).
  - exact (proj1 (Sell eq_refl) row_77 eq_refl).
  - exact (proj1 (RBuy _ _ HB) eq_refl).
  - exact (proj1 (proj2 (RSell _ _ HS)) ltac:(discriminate)).
  - destruct (proj2 (proj2 (RBuy _ _ HB)) eq_refl eq_refl eq_refl)
      as (_ & P & _ & S).
    split; [exact P|]. split; [exact S|]. split; reflexivity.
Defined.

(** C2 — [insert_trades] is idempotent. After a successful call, calling it
    again with the same list succeeds as well (a conflict on
    [(tx_hash, log_index)] raises nothing) and leaves the trades table, its
    row count, the markets and the checkpoint as they were; a batch whose
    keys are all in the table adds no row, and no key ever occurs twice. *)
Theorem insert_trades_idempotent (env : Env) (trades_list : list Trade)
    (d d1 : DB) :
  insert_trades env trades_list d = (Ok tt, d1) ->
  (exists d2,
     insert_trades env trades_list d1 = (Ok tt, d2) /\
     trades d2 = trades d1 /\
     List.length (trades d2) = List.length (trades d1) /\
     markets d2 = markets d1 /\ sync_state d2 = sync_state d1) /\
  ((forall t, In t trades_list -> persisted t d) -> trades d1 = trades d) /\
  (NoDup (map trade_key (trades d)) -> NoDup (map trade_key (trades d1))).
Proof.
  unfold insert_trades. destruct trades_list as [|t0 l].
  - intros [= <-]. split; [exists d; auto|]. auto.
  - destruct (executemany env 0 (t0 :: l) d) as [c|e] eqn:E; [|discriminate].
    intros [= <-]. split; [|split].
    + destruct (executemany_no_failure env _ _ _ _ c E) as (d2 & E2).
      exists d2. rewrite E2.
      assert (T : trades d2 = trades c).
      { eapply executemany_all_present; [|exact E2].
        intros t Ht. eapply executemany_adds; eauto. }
      destruct (executemany_frame env _ _ _ _ E2) as (A & _ & C).
      rewrite T. auto.
    + intros Hall. eapply executemany_all_present; [|exact E].
      intros t Ht. apply existsb_exists, Hall, Ht.
    + apply (executemany_unique env _ _ _ _ E).
Qed.

Lemma insert_trades_idempotent_witness :
  insert_trades env_mixed [trade_buy; trade_sell; trade_buy] synced_db
    = (Ok tt, snd (insert_trades env_mixed [trade_buy; trade_sell; trade_buy]
                     synced_db)) /\
  List.length (trades (snd (insert_trades env_mixed
                              [trade_buy; trade_sell; trade_buy] synced_db))) = 2%nat /\
  exists d2,
    insert_trades env_mixed [trade_buy; trade_sell; trade_buy]
      (snd (insert_trades env_mixed [trade_buy; trade_sell; trade_buy] synced_db))
      = (Ok tt, d2) /\
    List.length (trades d2) = 2%nat.
Proof.
  assert (H : insert_trades env_mixed [trade_buy; trade_sell; trade_buy] synced_db
              = (Ok tt, snd (insert_trades env_mixed
                               [trade_buy; trade_sell; trade_buy] synced_db))).
  { vm_compute. reflexivity. }
  split; [exact H|]. split; [vm_compute; reflexivity|].
  destruct (insert_trades_idempotent env_mixed _ _ _ H)
    as ((d2 & I & _ & L & _) & _).
  exists d2. split; [exact I|]. rewrite L. vm_compute. reflexivity.
Defined.

(** C6 — a log whose decoded taker equals its source address, both in
    lowercase, yields [None]: the world is left as it was (no lookup, no
    discovery, no write) and the loop of [run_indexer] collects nothing
    from it. *)
Theorem self_fill_dropped (env : Env) (log : Log) (slug : option string)
    (w : World) (args : OrderFilledArgs) :
  process_log env log = Some args ->
  lower (taker args) = lower (address log) ->
  decode_and_process_log env log slug w = (Ok None, w) /\
  (forall rest acc,
     process_logs env (log :: rest) slug acc w = process_logs env rest slug acc w).
Proof.
  intros Hp Hs.
  assert (D : decode_and_process_log env log slug w = (Ok None, w)).
  { unfold decode_and_process_log. rewrite Hp, Hs, String.eqb_refl. reflexivity. }
  split; [exact D|]. intros rest acc. now apply process_logs_dropped.
Qed.

Lemma self_fill_dropped_witness :
  process_log env_mixed (sample_log 5) = Some args_self /\
  taker args_self <> address (sample_log 5) /\
  decode_and_process_log env_mixed (sample_log 5) (Some "rain") synced_world
    = (Ok None, synced_world).
Proof.
  split; [reflexivity|]. split; [discriminate|].
  exact (proj1 (self_fill_dropped env_mixed (sample_log 5) (Some "rain")
                  synced_world args_self eq_refl eq_refl)).
Defined.



(** C3 — the checkpoint moves only after the batch insert succeeded. For a
    run whose loop collected a non-empty batch [ts]: if the run returns, it
    returns [ts], [get_sync_state] then reads [to_block], the only store
    writes were [insert_trades ts] followed by [update_sync_state to_block],
    and every trade of the batch has its row; if [insert_trades] raises, the
    run raises the same exception, [update_sync_state] is not called, and
    the checkpoint and the trades table are as before the run. *)
Theorem checkpoint_only_after_insert (env : Env) (from_block to_block : Z)
    (slug : option string) (w w1 : World) (logs : list Log) (ts : list Trade) :
  get_logs env from_block to_block = Some logs ->
  process_logs env logs slug []
    (advance (db w) [CallGetLogs from_block to_block] w) = (Ok ts, w1) ->
  ts <> [] ->
  (forall r w',
     run_indexer env from_block to_block slug w = (Ok r, w') ->
     r = ts /\
     checkpoint (db w') = Ok to_block /\
     store_writes (trace w') =
       store_writes (trace w) ++ [CallInsertTrades ts; CallUpdateSyncState to_block] /\
     (forall t, In t ts -> persisted t (db w'))) /\
  (forall e d2,
     insert_trades env ts (db w1) = (Raise e, d2) ->
     exists w',
       run_indexer env from_block to_block slug w = (Raise e, w') /\
       checkpoint (db w') = checkpoint (db w) /\
       trades (db w') = trades (db w) /\
       store_writes (trace w') = store_writes (trace w) ++ [CallInsertTrades ts]).
Proof.
  intros G P Hne.
  destruct (process_logs_inv env logs slug []
              (advance (db w) [CallGetLogs from_block to_block] w))
    as (ts0 & w0 & P0 & F1 & F2).
  rewrite P in P0. injection P0 as -> <-. cbn in F1, F2.
  rewrite store_writes_app, app_nil_r in F2.
  pose proof (run_indexer_cases env _ to_block _ _ _ _ _ G P) as R.
  destruct ts0 as [|t0 ts0]; [contradiction|]. split.
  - intros r w' H. rewrite H in R.
    destruct (insert_trades env (t0 :: ts0) (db w1)) as [[[]|e] d2] eqn:I;
      [|discriminate].
    cbn zeta in R.
    destruct (update_sync_state env to_block d2) as [[[]|e] d3] eqn:U;
      [|discriminate].
    injection R as -> ->. cbn.
    destruct (insert_trades_ok env _ _ _ I) as (_ & _ & _ & Hp & _).
    destruct (update_sync_state_ok env _ _ _ U) as (C & _ & T).
    split; [reflexivity|]. split; [exact C|]. split.
    + rewrite store_writes_app, F2. reflexivity.
    + intros t Ht. destruct (Hp t Ht) as (row & Hin & Hk).
      exists row. rewrite T. auto.
  - intros e d2 I. rewrite I in R. eexists. split; [exact R|]. cbn.
    rewrite (insert_trades_raise env _ _ _ _ I).
    split; [apply trades_untouched_checkpoint, F1|].
    split; [apply F1|]. rewrite store_writes_app, F2. reflexivity.
Qed.

Lemma checkpoint_only_after_insert_witness :
  fst (run_indexer env_mixed 100 200 (Some "rain") fresh_world)
    = Ok [trade_buy; trade_sell] /\
  checkpoint (db (snd (run_indexer env_mixed 100 200 (Some "rain") fresh_world)))
    = Ok 200 /\
  checkpoint (db fresh_world) = Ok 0 /\
  exists w',
    run_indexer env_insert_fails 100 200 (Some "rain") fresh_world
      = (Raise StorageError, w') /\
    checkpoint (db w') = Ok 0 /\ trades (db w') = [].
Proof.
  split; [vm_compute; reflexivity|].
  assert (P1 : process_logs env_mixed
                 [sample_log 1; sample_log 4; sample_log 2] (Some "rain") []
                 (advance (db fresh_world) [CallGetLogs 100 200] fresh_world)
               = (Ok [trade_buy; trade_sell],
                  snd (process_logs env_mixed
                         [sample_log 1; sample_log 4; sample_log 2] (Some "rain") []
                         (advance (db fresh_world) [CallGetLogs 100 200] fresh_world)))).
  { vm_compute. reflexivity. }
  assert (P2 : process_logs env_insert_fails
                 [sample_log 1; sample_log 4; sample_log 2] (Some "rain") []
                 (advance (db fresh_world) [CallGetLogs 100 200] fresh_world)
               = (Ok [trade_buy; trade_sell],
                  snd (process_logs env_insert_fails
                         [sample_log 1; sample_log 4; sample_log 2] (Some "rain") []
                         (advance (db fresh_world) [CallGetLogs 100 200] fresh_world)))).
  { vm_compute. reflexivity. }
  assert (Hne : [trade_buy; trade_sell] <> []) by discriminate.
  split.
  - destruct (checkpoint_only_after_insert env_mixed 100 200 (Some "rain")
                fresh_world _ _ _ eq_refl P1 Hne) as (S & _).
    apply (S [trade_buy; trade_sell]
             (snd (run_indexer env_mixed 100 200 (Some "rain") fresh_world))).
    vm_compute. reflexivity.
  - split; [reflexivity|].
    destruct (checkpoint_only_after_insert env_insert_fails 100 200 (Some "rain")
                fresh_world _ _ _ eq_refl P2 Hne) as (_ & F).
    destruct (F StorageError
                (db (snd (process_logs env_insert_fails
                            [sample_log 1; sample_log 4; sample_log 2]
                            (Some "rain") []
                            (advance (db fresh_world) [CallGetLogs 100 200]
                               fresh_world)))))
      as (w' & R & C & T & _).
    { vm_compute. reflexivity. }
    exists w'. split; [exact R|]. split; [rewrite C; reflexivity | exact T].
Defined.

(** C4 as stated fails: with an unreachable RPC endpoint the run returns the
    empty list; no exception reaches the caller. *)
Lemma fetch_error_is_not_raised :
  get_logs env_rpc_down 100 200 = None /\
  fst (run_indexer env_rpc_down 100 200 (Some "rain") fresh_world) = Ok [] /\
  ~ (exists e, fst (run_indexer env_rpc_down 100 200 (Some "rain") fresh_world)
               = Raise e).
Proof.
  split; [reflexivity|]. split; [reflexivity|]. intros (e & H). discriminate H.
Qed.

(** C4 — when [get_logs] fails, [run_indexer] logs the error and returns the
    empty list: the range is given up, the database (trades and checkpoint
    included) is as before, and the only records of the run are the call and
    the error message. *)
Theorem fetch_error_gives_empty_result (env : Env) (from_block to_block : Z)
    (slug : option string) (w : World) :
  get_logs env from_block to_block = None ->
  exists w',
    run_indexer env from_block to_block slug w = (Ok [], w') /\
    db w' = db w /\
    checkpoint (db w') = checkpoint (db w) /\
    trace w' = trace w ++ [CallGetLogs from_block to_block; LogError] /\
    store_writes (trace w') = store_writes (trace w).
Proof.
  intros H. eexists. split; [apply run_indexer_fetch_failed, H|]. cbn.
  rewrite store_writes_app, app_nil_r. auto.
Qed.

Lemma fetch_error_gives_empty_result_witness :
  get_logs env_rpc_down 100 200 = None /\
  exists w',
    run_indexer env_rpc_down 100 200 (Some "rain") synced_world = (Ok [], w') /\
    db w' = synced_db /\ checkpoint (db w') = Ok 200.
Proof.
  split; [reflexivity|].
  destruct (fetch_error_gives_empty_result env_rpc_down 100 200 (Some "rain")
              synced_world eq_refl) as (w' & R & D & C & _).
  exists w'. split; [exact R|]. split; [exact D|]. rewrite C. reflexivity.
Defined.

(** C5 — a token that no stored market lists, with an event slug supplied.
    When the registry refresh returns, the call made exactly these resolver
    calls: the lookup, one [discover_and_store_markets] for the slug, one
    second lookup; and if the token is still not listed, the call logs a
    warning and returns [None], and the loop of [run_indexer] keeps the
    trades collected so far and goes on with the rest of the logs. When the
    refresh raises instead (a storage failure), the call raises after that
    one refresh, and the loop logs the error and goes on as well. The loop
    never raises, and every trade a run returns has its row in the trades
    table. *)
Theorem unresolved_token_dropped (env : Env) (log : Log) (slug : string)
    (args : OrderFilledArgs) (w : World) :
  process_log env log = Some args ->
  String.eqb (lower (taker args)) (lower (address log)) = false ->
  slug <> "" ->
  fst (fetch_market_by_token_id (traded_token_id args) (db w)) = Ok None ->
  (forall n d1,
     discover_and_store_markets env slug (db w) = (Ok n, d1) ->
     (forall r w',
        decode_and_process_log env log (Some slug) w = (r, w') ->
        resolver_calls (trace w') =
          resolver_calls (trace w) ++
          [CallFetchMarketByTokenId (traded_token_id args);
           CallDiscoverAndStoreMarkets slug;
           CallFetchMarketByTokenId (traded_token_id args)]) /\
     (fst (fetch_market_by_token_id (traded_token_id args) d1) = Ok None ->
      exists w2,
        w2 = advance d1 [CallFetchMarketByTokenId (traded_token_id args);
                         CallDiscoverAndStoreMarkets slug;
                         CallFetchMarketByTokenId (traded_token_id args);
                         LogWarning] w /\
        decode_and_process_log env log (Some slug) w = (Ok None, w2) /\
        (forall rest acc,
           process_logs env (log :: rest) (Some slug) acc w =
           process_logs env rest (Some slug) acc w2))) /\
  (forall e d1,
     discover_and_store_markets env slug (db w) = (Raise e, d1) ->
     exists w2,
       w2 = advance d1 [CallFetchMarketByTokenId (traded_token_id args);
                        CallDiscoverAndStoreMarkets slug] w /\
       decode_and_process_log env log (Some slug) w = (Raise e, w2) /\
       (forall rest acc,
          process_logs env (log :: rest) (Some slug) acc w =
          process_logs env rest (Some slug) acc (advance d1 [LogError] w2))) /\
  (forall rest acc,
     exists ts w',
       process_logs env (log :: rest) (Some slug) acc w = (Ok (acc ++ ts), w')) /\
  (forall from_block to_block w0 ts w',
     run_indexer env from_block to_block (Some slug) w0 = (Ok ts, w') ->
     forall t, In t ts -> persisted t (db w')).
Proof.
  intros Hp Hs Hslug Hmiss.
  split; [|split; [|split]].
  - intros n d1 Hd.
    pose proof (resolve_miss_discovered env _ _ _ _ _ Hmiss Hslug Hd) as R.
    split.
    + intros r w' H. rewrite (decode_stages _ _ _ _ _ Hp Hs) in H.
      unfold bind at 1 in H. rewrite R in H.
      destruct (fst (fetch_market_by_token_id (traded_token_id args) d1))
        as [[m|]|e]; [| |].
      * unfold bind in H.
        match type of H with
        | context [get_block_timestamp env ?b ?w1] =>
            destruct (get_block_timestamp_inv env b w1)
              as (ts & evs & cache & G & Hev)
        end.
        rewrite G in H. injection H as _ <-. cbn.
        rewrite !resolver_calls_app.
        assert (resolver_calls evs = []) as ->
            by (destruct Hev as [-> | ->]; reflexivity).
        rewrite app_nil_r. reflexivity.
      * run_monad. injection H as _ <-. cbn.
        rewrite !resolver_calls_app. cbn. rewrite app_nil_r. reflexivity.
      * injection H as _ <-. cbn. rewrite resolver_calls_app. reflexivity.
    + intros Hstill. eexists. split; [reflexivity|].
      assert (D : decode_and_process_log env log (Some slug) w =
                  (Ok None,
                   advance d1 [CallFetchMarketByTokenId (traded_token_id args);
                               CallDiscoverAndStoreMarkets slug;
                               CallFetchMarketByTokenId (traded_token_id args);
                               LogWarning] w)).
      { rewrite (decode_stages _ _ _ _ _ Hp Hs). unfold bind at 1.
        rewrite R, Hstill. unfold advance. run_monad.
        rewrite <- app_assoc. reflexivity. }
      split; [exact D|]. intros rest acc. apply process_logs_dropped, D.
  - intros e d1 Hd.
    pose proof (resolve_miss_raise env _ _ _ _ _ Hmiss Hslug Hd) as R.
    assert (D : decode_and_process_log env log (Some slug) w =
                (Raise e,
                 advance d1 [CallFetchMarketByTokenId (traded_token_id args);
                             CallDiscoverAndStoreMarkets slug] w)).
    { rewrite (decode_stages _ _ _ _ _ Hp Hs). unfold bind at 1.
      rewrite R. reflexivity. }
    eexists. split; [reflexivity|]. split; [exact D|].
    intros rest acc. cbn [process_logs].
    unfold bind at 1, try_except, bind at 1. rewrite D. reflexivity.
  - intros rest acc.
    destruct (process_logs_inv env (log :: rest) (Some slug) acc w)
      as (ts & w' & P & _). eauto.
  - intros from_block to_block w0 ts w' H t Ht.
    destruct (run_indexer_ok env _ _ _ _ _ _ H) as [(-> & _) | (_ & R')];
      [destruct Ht|].
    destruct R' as (w1 & d2 & _ & _ & I & U & _).
    destruct (insert_trades_ok env _ _ _ I) as (_ & _ & _ & Hpers & _).
    destruct (update_sync_state_ok env _ _ _ U) as (_ & _ & T).
    destruct (Hpers t Ht) as (row & Hin & Hk). exists row. rewrite T. auto.
Qed.

Lemma unresolved_token_dropped_witness :
  process_log env_mixed (sample_log 4) = Some args_unknown /\
  traded_token_id args_unknown = "0x63" /\
  (exists w2,
     decode_and_process_log env_mixed (sample_log 4) (Some "rain") fresh_world
       = (Ok None, w2) /\
     trace w2 = [CallFetchMarketByTokenId "0x63";
                 CallDiscoverAndStoreMarkets "rain";
                 CallFetchMarketByTokenId "0x63"; LogWarning]) /\
  fst (run_indexer env_mixed 100 200 (Some "rain") fresh_world)
    = Ok [trade_buy; trade_sell] /\
  persisted trade_buy
    (db (snd (run_indexer env_mixed 100 200 (Some "rain") fresh_world))) /\
  persisted trade_sell
    (db (snd (run_indexer env_mixed 100 200 (Some "rain") fresh_world))).
Proof.
  split; [reflexivity|]. split; [reflexivity|].
  assert (Hn : "rain" <> "") by discriminate.
  assert (Hd : discover_and_store_markets env_mixed "rain" (db fresh_world)
               = (Ok 1, snd (discover_and_store_markets env_mixed "rain"
                               (db fresh_world)))).
  { vm_compute. reflexivity. }
  destruct (unresolved_token_dropped env_mixed (sample_log 4) "rain" args_unknown
              fresh_world eq_refl eq_refl Hn eq_refl) as (Found & _ & _ & Pers).
  destruct (Found _ _ Hd) as (_ & Drop).
  split.
  - destruct (Drop eq_refl) as (w2 & -> & D & _). eexists. split; [exact D|].
    reflexivity.
  - split; [vm_compute; reflexivity|].
    assert (R : run_indexer env_mixed 100 200 (Some "rain") fresh_world
                = (Ok [trade_buy; trade_sell],
                   snd (run_indexer env_mixed 100 200 (Some "rain") fresh_world))).
    { vm_compute. reflexivity. }
    split; apply (Pers _ _ _ _ _ R); cbn; auto.
Defined.

(** C8 as stated fails: a successful run over an earlier range lowers the
    checkpoint from 200 to 20. *)
Lemma checkpoint_can_decrease :
  checkpoint (db synced_world) = Ok 200 /\
  fst (run_indexer env_early 10 20 None synced_world) = Ok [trade_early] /\
  store_writes (trace (snd (run_indexer env_early 10 20 None synced_world)))
    = [CallInsertTrades [trade_early]; CallUpdateSyncState 20] /\
  checkpoint (db (snd (run_indexer env_early 10 20 None synced_world))) = Ok 20 /\
  ~ (200 <= 20).
Proof.
  split; [reflexivity|]. split; [vm_compute; reflexivity|].
  split; [vm_compute; reflexivity|]. split; [vm_compute; reflexivity|]. lia.
Qed.

(** C8 — what a successful run does to the checkpoint. A run that returns a
    non-empty batch leaves [to_block] as the value [get_sync_state] reads,
    whatever the value was; a run that returns the empty list leaves the
    value as it was. Hence the value does not decrease when [to_block] is
    not below it. [get_sync_state] reads 0 when the table has no
    ['last_block'] row, and after [create_tables] on an empty database. *)
Theorem checkpoint_after_run (env : Env) (from_block to_block : Z)
    (slug : option string) (w w' : World) (ts : list Trade) :
  run_indexer env from_block to_block slug w = (Ok ts, w') ->
  (ts <> [] -> checkpoint (db w') = Ok to_block) /\
  (ts = [] -> checkpoint (db w') = checkpoint (db w)) /\
  (forall before after,
     checkpoint (db w) = Ok before -> checkpoint (db w') = Ok after ->
     before <= to_block -> before <= after) /\
  (forall d, sync_state d !! "last_block" = None -> checkpoint d = Ok 0) /\
  checkpoint (create_tables empty_db) = Ok 0.
Proof.
  intros H.
  destruct (run_indexer_ok env _ _ _ _ _ _ H)
    as [(-> & F & _) | (Hne & w1 & d2 & _ & _ & _ & U & _)].
  - split; [intros C; contradiction|].
    split; [intros _; apply trades_untouched_checkpoint, F|].
    split.
    + intros before after B A _.
      rewrite (trades_untouched_checkpoint _ _ F), B in A.
      injection A as <-. lia.
    + split; [|reflexivity]. intros d Hd.
      unfold checkpoint, get_sync_state, gets. cbn. now rewrite Hd.
  - destruct (update_sync_state_ok env _ _ _ U) as (C & _).
    split; [intros _; exact C|]. split; [intros E; contradiction|].
    split.
    + intros before after B A Hle. rewrite C in A. injection A as <-. exact Hle.
    + split; [|reflexivity]. intros d Hd.
      unfold checkpoint, get_sync_state, gets. cbn. now rewrite Hd.
Qed.

Lemma checkpoint_after_run_witness :
  run_indexer env_mixed 100 200 (Some "rain") fresh_world
    = (Ok [trade_buy; trade_sell],
       snd (run_indexer env_mixed 100 200 (Some "rain") fresh_world)) /\
  checkpoint (db fresh_world) = Ok 0 /\
  checkpoint (db (snd (run_indexer env_mixed 100 200 (Some "rain") fresh_world)))
    = Ok 200.
Proof.
  assert (R : run_indexer env_mixed 100 200 (Some "rain") fresh_world
              = (Ok [trade_buy; trade_sell],
                 snd (run_indexer env_mixed 100 200 (Some "rain") fresh_world))).
  { vm_compute. reflexivity. }
  split; [exact R|]. split; [reflexivity|].
  destruct (checkpoint_after_run env_mixed 100 200 (Some "rain") fresh_world _ _ R)
    as (C & _).
  apply C. discriminate.
Defined.

(** ** The markets table *)

Lemma omap_condition_id_update (f : MarketRow -> MarketRow) (ms : list MarketRow) :
  (forall r, m_condition_id (f r) = m_condition_id r) ->
  omap m_condition_id (map f ms) = omap m_condition_id ms.
Proof.
  intros Hf. induction ms as [|r ms IH]; [reflexivity|].
  cbn. rewrite Hf, IH. reflexivity.
Qed.

Lemma find_condition_id_none (c : string) (ms : list MarketRow) :
  find (fun r => sql_eq (m_condition_id r) (Some c)) ms = None ->
  ~ In c (omap m_condition_id ms).
Proof.
  intros Hf Hin. apply list_elem_of_In, list_elem_of_omap in Hin.
  destruct Hin as (r & Hr & Hc). apply list_elem_of_In in Hr.
  pose proof (find_none _ _ Hf r Hr) as Hn. cbn in Hn.
  rewrite Hc in Hn. cbn in Hn. rewrite String.eqb_refl in Hn. discriminate.
Qed.

(** [upsert_market] keeps the non-null condition ids pairwise distinct. *)
Lemma upsert_market_unique (env : Env) (md : MarketData) (d d' : DB)
    (r : result unit) :
  condition_ids_unique (markets d) ->
  upsert_market env md d = (r, d') ->
  condition_ids_unique (markets d').
Proof.
  unfold condition_ids_unique, upsert_market. intros Hu.
  destruct (storage_fails env _); [intros [= _ <-]; exact Hu|].
  destruct (find _ (markets d)) as [row|] eqn:F; intros [= _ <-]; cbn.
  - rewrite omap_condition_id_update; [exact Hu|].
    intros r0. destruct (m_id r0 =? m_id row); reflexivity.
  - rewrite omap_app. cbn. destruct (md_condition_id md) as [c|] eqn:C; cbn.
    + apply NoDup_app. split; [exact Hu|]. split; [|apply NoDup_singleton].
      intros x Hx Hc. apply list_elem_of_In in Hx. apply list_elem_of_In in Hc.
      destruct Hc as [<- | []]. eapply find_condition_id_none; eauto.
    + rewrite app_nil_r. exact Hu.
Qed.

(** C9 as stated fails: a registry entry whose outcomes are not YES and NO
    is stored through the discovery path with both token ids null. *)
Lemma discovery_stores_market_without_tokens :
  fst (discover_and_store_markets env_up_down "btc" (create_tables empty_db))
    = Ok 1 /\
  ~ spec_market_invariant
      (markets (snd (discover_and_store_markets env_up_down "btc"
                       (create_tables empty_db)))).
Proof.
  split; [vm_compute; reflexivity|].
  intros (_ & Htok & _).
  destruct (Htok (new_market 1
                    {| md_slug := Some "btc-up-or-down";
                       md_condition_id := Some "0xdef";
                       md_question_id := None;
                       md_yes_token_id := None;
                       md_no_token_id := None;
                       md_status := "ACTIVE" |}))
    as (y & n & Hy & _).
  - vm_compute. left. reflexivity.
  - discriminate Hy.
Qed.

(** Nor are token ids kept apart: discovery stores a second market that
    lists token 77 as its YES and as its NO token, next to the first. *)
Example discovery_stores_shared_token :
  map (fun r => (m_condition_id r, m_yes_token_id r, m_no_token_id r, m_status r))
      (markets (snd (discover_and_store_markets env_shared_token "rain"
                       (create_tables empty_db))))
  = [(Some "0xabc", Some "0x4d", Some "0x4e", Some "ACTIVE");
     (Some "0x999", Some "0x4d", Some "0x4d", Some "CLOSED")].
Proof. vm_compute. reflexivity. Qed.

(** C9 — what the discovery and upsert path keeps: if no two rows of the
    markets table carry the same non-null [condition_id], this is still so
    after [discover_and_store_markets], however it ends, and the rows of an
    empty table satisfy it. (Token ids are stored as [process_market_data]
    found them: nothing checks that they are present, distinct, or listed by
    one market only.) *)
Theorem discovery_keeps_condition_ids_unique (env : Env) (slug : string)
    (d d' : DB) (r : result Z) :
  condition_ids_unique (markets d) ->
  discover_and_store_markets env slug d = (r, d') ->
  condition_ids_unique (markets d') /\
  condition_ids_unique (markets (create_tables empty_db)).
Proof.
  intros Hu H. split; [|apply NoDup_nil_2].
  unfold discover_and_store_markets in H.
  revert H. generalize 0 as count. revert d Hu.
  induction (fetch_markets_by_slug env slug) as [|m ms IH]; intros d Hu count H;
    cbn in H.
  - injection H as _ <-. exact Hu.
  - destruct (process_market_data env m) as [md|]; [|eapply IH; eauto].
    cbn in H. unfold bind in H.
    destruct (upsert_market env md d) as [[[]|e] d1] eqn:U.
    + eapply IH; [|exact H]. eapply upsert_market_unique; eauto.
    + injection H as _ <-. eapply upsert_market_unique; eauto.
Qed.

Lemma discovery_keeps_condition_ids_unique_witness :
  condition_ids_unique (markets synced_db) /\
  markets (snd (discover_and_store_markets env_mixed "rain" synced_db)) = [row_77] /\
  condition_ids_unique
    (markets (snd (discover_and_store_markets env_mixed "rain" synced_db))).
Proof.
  assert (Hu : condition_ids_unique (markets synced_db)).
  { vm_compute. apply NoDup_singleton. }
  split; [exact Hu|]. split; [vm_compute; reflexivity|].
  exact (proj1 (discovery_keeps_condition_ids_unique env_mixed "rain" synced_db
                  _ _ Hu (surjective_pairing _))).
Defined.

(** C10 — a run in which no trade survives. If the loop collects nothing
    (in particular when [get_logs] returns no log), [run_indexer] returns the
    empty list in the world the loop left; whenever [run_indexer] returns
    the empty list, neither [insert_trades] nor [update_sync_state] was
    called and the trades table, its sequence and the checkpoint are as
    before the run; and [insert_trades] on the empty list leaves the
    database as it is. *)
Theorem empty_batch_writes_nothing (env : Env) (from_block to_block : Z)
    (slug : option string) (w : World) :
  (forall logs w1,
     get_logs env from_block to_block = Some logs ->
     process_logs env logs slug []
       (advance (db w) [CallGetLogs from_block to_block] w) = (Ok [], w1) ->
     run_indexer env from_block to_block slug w = (Ok [], w1)) /\
  (get_logs env from_block to_block = Some [] ->
   run_indexer env from_block to_block slug w =
     (Ok [], advance (db w) [CallGetLogs from_block to_block] w)) /\
  (forall w',
     run_indexer env from_block to_block slug w = (Ok [], w') ->
     store_writes (trace w') = store_writes (trace w) /\
     trades_untouched (db w) (db w') /\
     trades (db w') = trades (db w) /\
     checkpoint (db w') = checkpoint (db w)) /\
  (forall d, insert_trades env [] d = (Ok tt, d)).
Proof.
  split; [|split; [|split]].
  - intros logs w1 G P. now rewrite (run_indexer_cases env _ _ _ _ _ _ _ G P).
  - intros G. now rewrite (run_indexer_cases env _ _ _ _ _ _ _ G eq_refl).
  - intros w' H.
    destruct (run_indexer_ok env _ _ _ _ _ _ H) as [(_ & F & T) | (Hne & _)];
      [|contradiction].
    split; [exact T|]. split; [exact F|]. split; [apply F|].
    apply trades_untouched_checkpoint, F.
  - reflexivity.
Qed.

Lemma empty_batch_writes_nothing_witness :
  exists w',
    run_indexer env_nothing_survives 100 200 None synced_world = (Ok [], w') /\
    store_writes (trace w') = [] /\
    trades (db w') = [] /\
    checkpoint (db w') = Ok 200.
Proof.
  assert (R : run_indexer env_nothing_survives 100 200 None synced_world
              = (Ok [], snd (run_indexer env_nothing_survives 100 200 None
                               synced_world))).
  { vm_compute. reflexivity. }
  destruct (empty_batch_writes_nothing env_nothing_survives 100 200 None
              synced_world) as (_ & _ & F & _).
  destruct (F _ R) as (T & _ & Tr & C).
  eexists. split; [exact R|]. split; [exact T|]. split; [exact Tr|exact C].
Defined.

(** * Further properties *)

(** ** Schema and store *)

Lemma create_tables_rows (d : DB) :
  markets (create_tables d) = markets d /\ trades (create_tables d) = trades d.
Proof.
  unfold create_tables. destruct (sync_state d !! "last_block"); auto.
Qed.

(** X1 — [create_tables] on a database that is already set up changes
    nothing that is read back: it is idempotent, keeps markets and trades,
    and [get_sync_state] reads the same value before and after (an existing
    checkpoint is not reset to 0). *)
Theorem create_tables_keeps_checkpoint (d : DB) :
  create_tables (create_tables d) = create_tables d /\
  markets (create_tables d) = markets d /\
  trades (create_tables d) = trades d /\
  checkpoint (create_tables d) = checkpoint d.
Proof.
  unfold create_tables, checkpoint, get_sync_state, gets. cbn.
  destruct (sync_state d !! "last_block") as [v|] eqn:E; cbn.
  - rewrite E. auto.
  - rewrite lookup_insert_eq. auto.
Qed.

Lemma find_map_stable {A} (P : A -> bool) (f : A -> A) (l : list A) :
  (forall x, P (f x) = P x) ->
  find P (map f l) = option_map f (find P l).
Proof.
  intros H. induction l as [|x l IH]; [reflexivity|].
  cbn. rewrite H. destruct (P x); [reflexivity | exact IH].
Qed.

Lemma max_rowid_bound {R} (id : R -> Z) (rows : list R) (r : R) :
  In r rows -> id r <= max_rowid id rows.
Proof.
  unfold max_rowid. induction rows as [|x l IH]; intros Hr; [destruct Hr|].
  cbn. destruct Hr as [-> | Hr]; [lia | specialize (IH Hr); lia].
Qed.

Lemma update_market_twice (md : MarketData) (r : MarketRow) :
  update_market md (update_market md r) = update_market md r.
Proof. reflexivity. Qed.

(** X2 — [upsert_market] is idempotent on a market that has a
    [condition_id]: after one successful call, the same call again succeeds
    and leaves the whole database as it is. *)
Theorem upsert_market_idempotent (env : Env) (md : MarketData) (c : string)
    (d d1 : DB) :
  md_condition_id md = Some c ->
  upsert_market env md d = (Ok tt, d1) ->
  upsert_market env md d1 = (Ok tt, d1).
Proof.
  intros Hc. unfold upsert_market.
  destruct (storage_fails env _); [discriminate|]. rewrite Hc.
  set (P := fun r => sql_eq (m_condition_id r) (Some c)).
  destruct (find P (markets d)) as [row|] eqn:F; intros [= <-]; cbn.
  - set (f := fun r => if m_id r =? m_id row then update_market md r else r).
    assert (Hf : forall x, P (f x) = P x).
    { intros x. unfold f, P. destruct (m_id x =? m_id row); reflexivity. }
    rewrite (find_map_stable P f _ Hf), F. cbn.
    assert (Hid : m_id (f row) = m_id row).
    { unfold f. destruct (m_id row =? m_id row); reflexivity. }
    rewrite Hid. unfold set_markets. cbn. f_equal. f_equal.
    rewrite map_map. apply map_ext. intros r. unfold f.
    destruct (m_id r =? m_id row) eqn:E; cbn; rewrite E; reflexivity.
  - assert (Hn : forall rows, find P rows = None ->
                 find P (rows ++ [new_market
                                    (new_rowid m_id (markets d) (markets_seq d)) md])
                 = Some (new_market (new_rowid m_id (markets d) (markets_seq d)) md)).
    { induction rows as [|x rows IH]; cbn.
      - intros _. unfold P at 1. cbn. rewrite Hc. cbn.
        now rewrite String.eqb_refl.
      - destruct (P x); [discriminate | exact IH]. }
    rewrite (Hn _ F). cbn. unfold set_markets. cbn. f_equal. f_equal.
    rewrite map_app. cbn. rewrite Z.eqb_refl. f_equal.
    rewrite <- (map_id (markets d)) at 2. apply map_ext_in. intros r Hr.
    destruct (Z.eqb_spec (m_id r)
                (new_rowid m_id (markets d) (markets_seq d))) as [E|]; [|reflexivity].
    exfalso. unfold new_rowid in E.
    assert (m_id r <= max_rowid m_id (markets d)).
    { apply max_rowid_bound, Hr. }
    lia.
Qed.

Lemma upsert_market_idempotent_witness :
  upsert_market env_mixed
    {| md_slug := Some "will-it-rain"; md_condition_id := Some "0xabc";
       md_question_id := Some "0xq1"; md_yes_token_id := Some "0x4d";
       md_no_token_id := Some "0x4e"; md_status := "RESOLVED" |}
    (snd (upsert_market env_mixed
            {| md_slug := Some "will-it-rain"; md_condition_id := Some "0xabc";
               md_question_id := Some "0xq1"; md_yes_token_id := Some "0x4d";
               md_no_token_id := Some "0x4e"; md_status := "RESOLVED" |}
            synced_db))
  = (Ok tt,
     snd (upsert_market env_mixed
            {| md_slug := Some "will-it-rain"; md_condition_id := Some "0xabc";
               md_question_id := Some "0xq1"; md_yes_token_id := Some "0x4d";
               md_no_token_id := Some "0x4e"; md_status := "RESOLVED" |}
            synced_db)).
Proof.
  apply (upsert_market_idempotent env_mixed _ "0xabc" synced_db);
    [reflexivity | vm_compute; reflexivity].
Defined.

(** X3 — a market without [condition_id] is never matched by the SELECT of
    [upsert_market] (SQL [=] is not true on NULL): every successful call
    appends a new row, so storing the same such market again duplicates
    it. *)
Theorem upsert_market_null_condition_id_appends (env : Env) (md : MarketData)
    (d d1 : DB) :
  md_condition_id md = None ->
  upsert_market env md d = (Ok tt, d1) ->
  markets d1 =
    markets d ++ [new_market (new_rowid m_id (markets d) (markets_seq d)) md] /\
  exists d2,
    upsert_market env md d1 = (Ok tt, d2) /\
    List.length (markets d2) = S (S (List.length (markets d))).
Proof.
  intros Hc.
  assert (F : forall rows,
             find (fun r => sql_eq (m_condition_id r) (md_condition_id md)) rows
             = None).
  { intros rows. rewrite Hc. induction rows as [|x rows IH]; [reflexivity|].
    cbn. destruct (m_condition_id x); exact IH. }
  unfold upsert_market. destruct (storage_fails env _); [discriminate|].
  rewrite !F. intros [= <-]. cbn. split; [reflexivity|].
  eexists. split; [reflexivity|]. cbn. rewrite !length_app. cbn. lia.
Qed.

Lemma upsert_market_null_condition_id_appends_witness :
  List.length
    (markets
       (snd (upsert_market env_mixed
               {| md_slug := Some "no-condition"; md_condition_id := None;
                  md_question_id := None; md_yes_token_id := Some "0x1";
                  md_no_token_id := Some "0x2"; md_status := "ACTIVE" |}
               synced_db))) = 2%nat.
Proof.
  destruct (upsert_market_null_condition_id_appends env_mixed
              {| md_slug := Some "no-condition"; md_condition_id := None;
                 md_question_id := None; md_yes_token_id := Some "0x1";
                 md_no_token_id := Some "0x2"; md_status := "ACTIVE" |}
              synced_db _ eq_refl (surjective_pairing _)) as (E & _).
  rewrite E. reflexivity.
Defined.

(** The rows after a successful [upsert_market]: each one is a row of
    before or carries the new values, and at least one carries them. *)
Lemma upsert_market_rows (env : Env) (md : MarketData) (d d1 : DB) :
  upsert_market env md d = (Ok tt, d1) ->
  (forall r, In r (markets d1) -> carries md r \/ In r (markets d)) /\
  (exists r, In r (markets d1) /\ carries md r).
Proof.
  unfold upsert_market. destruct (storage_fails env _); [discriminate|].
  destruct (find _ (markets d)) as [row|] eqn:F; intros [= <-]; cbn.
  - split.
    + intros r Hr. apply in_map_iff in Hr. destruct Hr as (r0 & <- & Hr0).
      destruct (m_id r0 =? m_id row); [left; repeat split | right; exact Hr0].
    + exists (update_market md row). split; [|repeat split].
      apply in_map_iff. exists row. rewrite Z.eqb_refl.
      split; [reflexivity|]. apply (find_some _ _ F).
  - split.
    + intros r Hr. apply in_app_iff in Hr.
      destruct Hr as [Hr | [<- | []]]; [right; exact Hr | left; repeat split].
    + eexists. split; [apply in_app_iff; right; left; reflexivity | repeat split].
Qed.

Lemma upsert_market_finds_token (env : Env) (md : MarketData) (d d1 : DB)
    (y : string) :
  upsert_market env md d = (Ok tt, d1) ->
  md_yes_token_id md = Some y \/ md_no_token_id md = Some y ->
  exists m,
    fetch_market_by_token_id y d1 = (Ok (Some m), d1) /\
    In m (markets d1) /\ matches_token y m /\
    (fst (fetch_market_by_token_id y d) = Ok None -> carries md m).
Proof.
  intros U Hy. destruct (upsert_market_rows env md d d1 U) as (Hall & r & Hr & Hc).
  assert (Hr' : matches_token y r).
  { destruct Hc as (_ & _ & Cy & Cn & _). unfold matches_token.
    destruct Hy as [Hy | Hy]; [left | right]; congruence. }
  destruct (fetch_market_by_token_id_finds y d1 r Hr Hr') as (m & F).
  exists m. split; [exact F|].
  destruct (fetch_market_by_token_id_some y d1 m) as (Hin & Hm);
    [now rewrite F|].
  split; [exact Hin|]. split; [exact Hm|].
  intros Hnone. destruct (Hall m Hin) as [C | Hold]; [exact C|].
  exfalso. exact (fetch_market_by_token_id_none y d Hnone m Hold Hm).
Qed.

(** X4 — insert then look up by token. After a successful [upsert_market] of
    a market with YES token [y], [fetch_market_by_token_id y] finds a market
    that lists [y]; and if no row listed [y] before, the market found
    carries the values just stored. The same holds for the NO token. *)
Theorem upsert_then_fetch_by_token (env : Env) (md : MarketData) (d d1 : DB)
    (y : string) :
  upsert_market env md d = (Ok tt, d1) ->
  md_yes_token_id md = Some y \/ md_no_token_id md = Some y ->
  exists m,
    fetch_market_by_token_id y d1 = (Ok (Some m), d1) /\
    In m (markets d1) /\ matches_token y m /\
    (fst (fetch_market_by_token_id y d) = Ok None -> carries md m).
Proof. apply upsert_market_finds_token. Qed.

Lemma upsert_then_fetch_by_token_witness :
  exists m,
    fetch_market_by_token_id "0x4e" db_77 = (Ok (Some m), db_77) /\
    m_slug m = Some "will-it-rain".
Proof.
  destruct (upsert_then_fetch_by_token env_mixed data_77
              (create_tables empty_db) db_77 "0x4e")
    as (m & F & _ & _ & C).
  - vm_compute. reflexivity.
  - right. reflexivity.
  - exists m. split; [exact F|]. apply C. reflexivity.
Defined.

(** X5 — insert then look up by slug. After a successful [upsert_market] of
    a market with slug [s], [fetch_market_by_slug s] finds a market with
    that slug; if no row had the slug before, it carries the values just
    stored. A market stored without a slug cannot be found by slug. *)
Theorem upsert_then_fetch_by_slug (env : Env) (md : MarketData) (d d1 : DB)
    (s : string) :
  upsert_market env md d = (Ok tt, d1) ->
  md_slug md = Some s ->
  exists m,
    fetch_market_by_slug s d1 = (Ok (Some m), d1) /\
    In m (markets d1) /\ m_slug m = Some s /\
    (fst (fetch_market_by_slug s d) = Ok None -> carries md m).
Proof.
  intros U Hs. destruct (upsert_market_rows env md d d1 U) as (Hall & r & Hr & Hc).
  unfold fetch_market_by_slug, gets. cbn.
  set (P := fun r => sql_eq (m_slug r) (Some s)).
  assert (HP : forall x, P x = true <-> m_slug x = Some s).
  { intros x. unfold P, sql_eq. destruct (m_slug x);
      rewrite ?String.eqb_eq; intuition congruence. }
  destruct (find P (markets d1)) as [m|] eqn:F.
  - exists m. destruct (find_some _ _ F) as (Hin & Hm).
    split; [reflexivity|]. split; [exact Hin|]. split; [now apply HP|].
    intros Hnone. destruct (Hall m Hin) as [C | Hold]; [exact C|].
    injection Hnone as Hnone. pose proof (find_none _ _ Hnone m Hold) as N.
    fold P in N. congruence.
  - exfalso. pose proof (find_none _ _ F r Hr) as N.
    assert (P r = true); [|congruence].
    apply HP. destruct Hc as (Cs & _). congruence.
Qed.

Lemma upsert_then_fetch_by_slug_witness :
  exists m,
    fetch_market_by_slug "will-it-rain" db_77 = (Ok (Some m), db_77) /\
    m_yes_token_id m = Some "0x4d".
Proof.
  destruct (upsert_then_fetch_by_slug env_mixed data_77
              (create_tables empty_db) db_77 "will-it-rain")
    as (m & F & _ & _ & C).
  - vm_compute. reflexivity.
  - reflexivity.
  - exists m. split; [exact F|].
    destruct (C eq_refl) as (_ & _ & Cy & _). exact Cy.
Defined.

Lemma upsert_market_keeps_rows (env : Env) (md : MarketData) (d d1 : DB)
    (r : result unit) :
  upsert_market env md d = (r, d1) ->
  (exists ids, map m_id (markets d1) = map m_id (markets d) ++ ids) /\
  (exists cs, map m_condition_id (markets d1) = map m_condition_id (markets d) ++ cs) /\
  (NoDup (map m_id (markets d)) -> NoDup (map m_id (markets d1))).
Proof.
  unfold upsert_market. destruct (storage_fails env _).
  { intros [= _ <-]. split; [exists []|split; [exists []|]];
      rewrite ?app_nil_r; auto. }
  destruct (find _ (markets d)) as [row|] eqn:F; intros [= _ <-]; cbn.
  - assert (I : map m_id
                  (map (fun r0 => if m_id r0 =? m_id row
                                  then update_market md r0 else r0) (markets d))
                = map m_id (markets d)).
    { rewrite map_map. apply map_ext. intros x.
      destruct (m_id x =? m_id row); reflexivity. }
    assert (C : map m_condition_id
                  (map (fun r0 => if m_id r0 =? m_id row
                                  then update_market md r0 else r0) (markets d))
                = map m_condition_id (markets d)).
    { rewrite map_map. apply map_ext. intros x.
      destruct (m_id x =? m_id row); reflexivity. }
    rewrite I, C. split; [exists []|split; [exists []|]];
      rewrite ?app_nil_r; auto.
  - rewrite !map_app. cbn. split; [eauto|]. split; [eauto|].
    intros Hn. apply NoDup_app. split; [exact Hn|].
    split; [|apply NoDup_singleton].
    intros x Hx Hin. apply list_elem_of_In in Hx. apply list_elem_of_In in Hin.
    destruct Hin as [<- | []]. apply in_map_iff in Hx.
    destruct Hx as (r0 & E & Hr0).
    pose proof (max_rowid_bound m_id _ _ Hr0). unfold new_rowid in E. lia.
Qed.

(** X6 — the discovery path never deletes or renumbers a market: however
    [discover_and_store_markets] ends, the ids and the condition ids of the
    rows of before are still there, in place, followed by those of the new
    rows; and if the ids were pairwise distinct they still are. *)
Theorem discovery_keeps_rows (env : Env) (slug : string) (d d' : DB)
    (r : result Z) :
  discover_and_store_markets env slug d = (r, d') ->
  (exists ids, map m_id (markets d') = map m_id (markets d) ++ ids) /\
  (exists cs, map m_condition_id (markets d') = map m_condition_id (markets d) ++ cs) /\
  (NoDup (map m_id (markets d)) -> NoDup (map m_id (markets d'))).
Proof.
  unfold discover_and_store_markets. generalize 0 as count. revert d.
  induction (fetch_markets_by_slug env slug) as [|m ms IH]; intros d count H;
    cbn in H.
  - injection H as _ <-. split; [exists []|split; [exists []|]];
      rewrite ?app_nil_r; auto.
  - destruct (process_market_data env m) as [md|]; [|eapply IH; eauto].
    cbn in H. unfold bind in H.
    destruct (upsert_market env md d) as [[[]|e] d1] eqn:U;
      destruct (upsert_market_keeps_rows env md d d1 _ U)
        as ((ids & I) & (cs & C) & N).
    + destruct (IH _ _ H) as ((ids' & I') & (cs' & C') & N').
      split; [|split].
      * exists (ids ++ ids'). rewrite I', I, app_assoc. reflexivity.
      * exists (cs ++ cs'). rewrite C', C, app_assoc. reflexivity.
      * auto.
    + injection H as _ <-. eauto.
Qed.

Lemma discovery_keeps_rows_witness :
  map m_id (markets (snd (discover_and_store_markets env_shared_token "rain" db_77)))
  = [1; 2] /\
  NoDup (map m_id (markets (snd (discover_and_store_markets env_shared_token
                                   "rain" db_77)))).
Proof.
  split; [vm_compute; reflexivity|].
  apply (discovery_keeps_rows env_shared_token "rain" db_77 _ _
           (surjective_pairing _)).
  vm_compute. apply NoDup_singleton.
Defined.

Lemma persisted_mono (t : Trade) (d d' : DB) (news : list TradeRow) :
  trades d' = trades d ++ news -> persisted t d -> persisted t d'.
Proof.
  intros E (r & Hin & Hk). exists r. rewrite E. split; [|exact Hk].
  apply in_app_iff. now left.
Qed.

Lemma executemany_appends (env : Env) (l : list Trade) (i : nat) (c c' : DB) :
  executemany env i l c = Ok c' ->
  exists news,
    trades c' = trades c ++ news /\ added_by l c news /\
    (NoDup (map row_id (trades c)) -> NoDup (map row_id (trades c'))).
Proof.
  revert i c. induction l as [|t l IH]; intros i c H; cbn in H.
  - injection H as <-. exists []. rewrite app_nil_r.
    split; [reflexivity|]. split; [split; [cbn; lia | constructor]|auto].
  - destruct (storage_fails env _); [discriminate|].
    destruct (IH _ _ H) as (news & E & (Hlen & Hall) & Hn). clear IH H.
    unfold insert_or_ignore in *.
    destruct (existsb (same_key t) (trades c)) eqn:P; cbn in *.
    + exists news. split; [exact E|]. split; [|exact Hn].
      split; [cbn; lia|]. eapply Forall_impl; [exact Hall|]. cbn.
      intros r ((t' & Hin & Hr & Hp) & Hid). split; [|exact Hid].
      exists t'. split; [now right|]. split; [exact Hr|].
      intros Hp'. apply Hp. destruct Hp' as (r0 & Hin0 & Hk). exists r0. auto.
    + set (row := trade_row (new_rowid row_id (trades c) (trades_seq c)) t) in *.
      exists (row :: news). split; [rewrite E, <- app_assoc; reflexivity|].
      assert (Hfresh : forall r0, In r0 (trades c) -> row_id r0 < row_id row).
      { intros r0 Hr0. pose proof (max_rowid_bound row_id _ _ Hr0).
        unfold row, new_rowid. cbn. lia. }
      split; [split|].
      * cbn. lia.
      * constructor.
        -- split; [|exact Hfresh]. exists t. split; [now left|].
           split; [reflexivity|]. intros Hp. apply existsb_exists in Hp. congruence.
        -- eapply Forall_impl; [exact Hall|]. cbn.
           intros r ((t' & Hin & Hr & Hp) & Hid). split.
           ++ exists t'. split; [now right|]. split; [exact Hr|].
              intros (r0 & Hin0 & Hk). apply Hp. exists r0.
              split; [apply in_app_iff; now left | exact Hk].
           ++ intros r0 Hr0. apply Hid, in_app_iff. now left.
      * intros Hnd. apply Hn. rewrite map_app. cbn.
        apply NoDup_app. split; [exact Hnd|]. split; [|apply NoDup_singleton].
        intros x Hx Hin. apply list_elem_of_In in Hx. apply list_elem_of_In in Hin.
        destruct Hin as [<- | []]. apply in_map_iff in Hx.
        destruct Hx as (r0 & E0 & Hr0). specialize (Hfresh r0 Hr0).
        unfold row in *. cbn in *. lia.
Qed.

(** X7 — stored trades are never modified or deleted by [insert_trades]: a
    successful call leaves the rows of before in place and appends at most
    one row per trade of the batch, each built from a trade of the batch
    whose key was absent, with an id above every id of before; row ids stay
    pairwise distinct. *)
Theorem insert_trades_appends (env : Env) (l : list Trade) (d d' : DB) :
  insert_trades env l d = (Ok tt, d') ->
  exists news,
    trades d' = trades d ++ news /\
    (List.length news <= List.length l)%nat /\
    (forall r, In r news ->
       (exists t, In t l /\ r = trade_row (row_id r) t /\ ~ persisted t d) /\
       (forall r0, In r0 (trades d) -> row_id r0 < row_id r)) /\
    (NoDup (map row_id (trades d)) -> NoDup (map row_id (trades d'))).
Proof.
  unfold insert_trades. destruct l as [|t0 l].
  - intros [= <-]. exists []. rewrite app_nil_r.
    split; [reflexivity|]. split; [reflexivity|]. split; [intros r0 []|auto].
  - destruct (executemany env 0 (t0 :: l) d) as [c|e] eqn:E; [|discriminate].
    intros [= <-]. destruct (executemany_appends env _ _ _ _ E)
      as (news & T & (Hlen & Hall) & Hn).
    exists news. split; [exact T|]. split; [exact Hlen|]. split; [|exact Hn].
    intros r Hr. rewrite Forall_forall in Hall. apply Hall, list_elem_of_In, Hr.
Qed.

Lemma insert_trades_appends_witness :
  exists news,
    trades (snd (insert_trades env_mixed [trade_buy; trade_sell; trade_buy]
                   (snd (insert_trades env_mixed [trade_buy] synced_db))))
    = trades (snd (insert_trades env_mixed [trade_buy] synced_db)) ++ news /\
    map row_id news = [3] /\ map row_log_index news = [2].
Proof.
  destruct (insert_trades_appends env_mixed [trade_buy; trade_sell; trade_buy]
              (snd (insert_trades env_mixed [trade_buy] synced_db)) _
              (surjective_pairing _)) as (news & E & _).
  exists news. split; [exact E|].
  assert (N : news = drop 1 (trades (snd (insert_trades env_mixed
                                            [trade_buy; trade_sell; trade_buy]
                                            (snd (insert_trades env_mixed
                                                    [trade_buy] synced_db)))))).
  { rewrite E. reflexivity. }
  rewrite N. split; vm_compute; reflexivity.
Defined.

(** ** Reading trades back *)




Lemma limit_offset_sublist {A} (limit offset : Z) (rows : list A) :
  limit_offset limit offset rows `sublist_of` rows.
Proof.
  unfold limit_offset. destruct (limit <? 0).
  - apply sublist_drop.
  - etransitivity; [apply sublist_take | apply sublist_drop].
Qed.

(** Rows that tie on timestamp and log index come in rowid order. *)
Example order_by_keeps_ties :
  forall r1 r2 r3 r4 : TradeRow,
    row_timestamp r1 = 5 -> row_timestamp r2 = 5 -> row_timestamp r3 = 5 ->
    row_timestamp r4 = 9 ->
    row_log_index r1 = 0 -> row_log_index r2 = 0 -> row_log_index r3 = 0 ->
    order_by [r1; r2; r3; r4] = [r4; r1; r2; r3].
Proof.
  intros r1 r2 r3 r4 T1 T2 T3 T4 L1 L2 L3. unfold order_by. cbn [fold_right].
  repeat (cbn [sorter_insert]; unfold newer_first;
          rewrite ?T1, ?T2, ?T3, ?T4, ?L1, ?L2, ?L3; cbn).
  reflexivity.
Qed.


Lemma sorter_insert_perm (r : TradeRow) (l : list TradeRow) :
  Permutation (r :: l) (sorter_insert r l).
Proof.
  induction l as [|x l IH]; cbn; [reflexivity|].
  destruct (newer_first r x); [reflexivity|].
  rewrite perm_swap. now constructor.
Qed.

Lemma order_by_perm (l : list TradeRow) : Permutation l (order_by l).
Proof.
  induction l as [|r l IH]; cbn; [reflexivity|].
  rewrite <- sorter_insert_perm. now constructor.
Qed.




Lemma fetch_trades_for_market_rows (market_id limit cursor_val : Z) (d : DB)
    (rows : list TradeRow) (r : TradeRow) :
  fetch_trades_for_market market_id limit cursor_val d = (Ok rows, d) ->
  In r rows -> In r (trades d) /\ row_market_id r = market_id.
Proof.
  intros [= <-] Hr. apply list_elem_of_In in Hr.
  eapply elem_of_sublist in Hr; [|apply limit_offset_sublist].
  apply list_elem_of_In in Hr.
  apply (Permutation_in _ (Permutation_sym (order_by_perm _))) in Hr.
  apply filter_In in Hr. destruct Hr as (Hin & Hm).
  split; [exact Hin | now apply Z.eqb_eq].
Qed.




(** ** The API *)

(** X10 — [GET /markets/{slug}/trades] answers with rows only when
    [GET /markets/{slug}] answers with a market, and then every row is a
    stored trade of that market, whose slug is the one asked for; otherwise
    both endpoints raise the same error (500 without a store, 404 without a
    market of that slug). *)
Theorem api_trades_of_market (store : option DB) (slug : string)
    (limit cursor : option Z) :
  (forall rows,
     get_market_trades store slug limit cursor = Response rows ->
     exists d market,
       store = Some d /\ get_market store slug = Response market /\
       In market (markets d) /\ m_slug market = Some slug /\
       (forall r, In r rows -> In r (trades d) /\ row_market_id r = m_id market)) /\
  (forall code detail,
     get_market store slug = HTTPException code detail ->
     get_market_trades store slug limit cursor = HTTPException code detail /\
     (code = 500 /\ store = None \/
      code = 404 /\ exists d, store = Some d /\
                              forall r, In r (markets d) -> m_slug r <> Some slug)).
Proof.
  unfold get_market_trades, get_market, fetch_market_by_slug, gets. cbn.
  destruct store as [d|]; cbn.
  2:{ split; [discriminate|]. intros code detail [= <- <-]. auto. }
  destruct (find _ (markets d)) as [market|] eqn:F.
  - split; [|discriminate]. intros rows [= <-].
    destruct (find_some _ _ F) as (Hin & Hs).
    exists d, market. split; [reflexivity|]. split; [reflexivity|].
    split; [exact Hin|]. split.
    + unfold sql_eq in Hs. destruct (m_slug market); [|discriminate].
      apply String.eqb_eq in Hs. congruence.
    + intros r.
      now apply (fetch_trades_for_market_rows (m_id market)
                   (match limit with Some n => n | None => 100 end)
                   (match cursor with Some n => n | None => 0 end) d).
  - split; [discriminate|]. intros code detail [= <- <-].
    split; [reflexivity|]. right. split; [reflexivity|]. exists d.
    split; [reflexivity|]. intros r Hr E.
    pose proof (find_none _ _ F r Hr) as N. cbn in N. rewrite E in N. cbn in N.
    rewrite String.eqb_refl in N. discriminate.
Qed.

Lemma api_trades_of_market_witness :
  exists rows,
    get_market_trades (Some db_traded) "will-it-rain" None None = Response rows /\
    map row_log_index rows = [2; 1] /\
    (forall r, In r rows -> In r (trades db_traded)).
Proof.
  destruct (api_trades_of_market (Some db_traded) "will-it-rain" None None)
    as (R & _).
  eexists. split; [reflexivity|]. split; [vm_compute; reflexivity|].
  destruct (R _ eq_refl) as (d & market & E & _ & _ & _ & Hall).
  injection E as <-. intros r Hr. apply (Hall r Hr).
Defined.

(** ** Registry entries *)

Lemma ascii_lower_twice (c : ascii) : ascii_lower (ascii_lower c) = ascii_lower c.
Proof. destruct c as [[] [] [] [] [] [] [] []]; reflexivity. Qed.

Lemma lower_twice (s : string) : lower (lower s) = lower s.
Proof.
  induction s as [|c s IH]; [reflexivity|].
  cbn. now rewrite ascii_lower_twice, IH.
Qed.

Lemma token_hexes_spec (l : list json) (hs : list string) :
  token_hexes l = Some hs ->
  List.length hs = List.length l /\ Forall (fun h => exists n, h = hex n) hs.
Proof.
  revert hs. induction l as [|t l IH]; intros hs H; cbn in H.
  - injection H as <-. split; [reflexivity | constructor].
  - destruct (py_int t) as [n|]; [|discriminate].
    destruct (token_hexes l) as [hs'|]; [|discriminate].
    injection H as <-. destruct (IH _ eq_refl) as (L & F).
    split; [cbn; now rewrite L|]. constructor; [|exact F].
    exists n. apply lower_hex.
Qed.

Lemma assign_tokens_spec (P : option string -> Prop) (os : list json)
    (hs : list string) (y n y' n' : option string) :
  Forall (fun h => P (Some h)) hs -> P y -> P n ->
  assign_tokens os hs y n = Some (y', n') -> P y' /\ P n'.
Proof.
  revert hs y n. induction os as [|o os IH]; intros hs y n F Py Pn H; cbn in H.
  - injection H as <- <-. auto.
  - destruct hs as [|h hs]; [discriminate|]. destruct o; try discriminate.
    apply Forall_cons in F. destruct F as (Ph & F).
    destruct (String.eqb (upper s) "YES"); [eapply IH; [| | |exact H]; auto|].
    destruct (String.eqb (upper s) "NO"); eapply IH; [| | |exact H| | | |exact H];
      auto.
Qed.

(** A token id of an accepted entry is the rendering of an integer. *)
Lemma process_market_data_tokens (env : Env) (market : RawMarket)
    (md : MarketData) (y : string) :
  process_market_data env market = Some md ->
  md_yes_token_id md = Some y \/ md_no_token_id md = Some y ->
  exists n, y = hex n.
Proof.
  unfold process_market_data. intros H Hy.
  destruct (load_token_ids env market) as [v|]; [|discriminate H].
  destruct (py_iter v) as [ids|]; [|discriminate H]. cbn [option_bind] in H.
  destruct (token_hexes ids) as [hs|] eqn:T; [|discriminate H].
  destruct (token_hexes_spec _ _ T) as (_ & F).
  destruct hs as [|h hs]; [discriminate H|].
  destruct (negb (truthy (load_outcomes env market))); [discriminate H|].
  destruct (py_len (load_outcomes env market)) as [k|]; [|discriminate H].
  destruct (py_iter (load_outcomes env market)) as [os|]; [|discriminate H].
  destruct (negb (Nat.eqb (List.length (h :: hs)) k)); [discriminate H|].
  destruct (assign_tokens os (h :: hs) None None) as [[yes no]|] eqn:A;
    [|discriminate H].
  injection H as <-. cbn in Hy.
  set (P := fun o : option string => forall v, o = Some v -> exists k, v = hex k).
  assert (F' : Forall (fun x => P (Some x)) (h :: hs)).
  { eapply Forall_impl; [exact F|]. intros x Hx z [= <-]. exact Hx. }
  assert (PN : P None) by (intros z; discriminate).
  destruct (assign_tokens_spec P _ _ _ _ _ _ F' PN PN A) as (Py & Pn).
  destruct Hy as [Hy | Hy]; [exact (Py _ Hy) | exact (Pn _ Hy)].
Qed.

(** X11 — what [process_market_data] returns is normalised: the status is
    ACTIVE, CLOSED or RESOLVED, with RESOLVED taking precedence over CLOSED
    and CLOSED over ACTIVE; the condition and question ids are in lowercase;
    a token id, when present, is the [hex] rendering of an integer (the form
    [decode_and_process_log] looks up); the slug is passed through. *)
Theorem process_market_data_normalized (env : Env) (market : RawMarket)
    (md : MarketData) :
  process_market_data env market = Some md ->
  md_status md =
    (if truthy (rm_resolved market) then "RESOLVED"
     else if truthy (rm_closed market) then "CLOSED"
     else if truthy (rm_active market) then "ACTIVE" else "CLOSED") /\
  (forall c, md_condition_id md = Some c -> lower c = c) /\
  (forall q, md_question_id md = Some q -> lower q = q) /\
  (forall y, md_yes_token_id md = Some y -> exists n, y = hex n) /\
  (forall y, md_no_token_id md = Some y -> exists n, y = hex n) /\
  md_slug md = rm_slug market.
Proof.
  unfold process_market_data. intros H.
  repeat match type of H with
         | match ?x with _ => _ end = Some _ =>
             let E := fresh "E" in destruct x eqn:E; try discriminate H
         | (if ?x then _ else _) = Some _ =>
             let E := fresh "E" in destruct x eqn:E; try discriminate H
         end.
  injection H as <-. subst. cbn.
  match goal with
  | E : option_bind _ _ token_hexes ?x = Some ?hs |- _ =>
      destruct x as [ids|] eqn:I; [cbn in E|discriminate E];
      destruct (token_hexes_spec _ _ E) as (_ & F)
  end.
  set (P := fun o : option string => forall v, o = Some v -> exists k, v = hex k).
  assert (F' : Forall (fun h => P (Some h)) (s :: l0)).
  { eapply Forall_impl; [exact F|]. intros h Hh v [= <-]. exact Hh. }
  assert (PN : P None) by (intros v; discriminate).
  match goal with
  | E : assign_tokens _ _ None None = Some _ |- _ =>
      destruct (assign_tokens_spec P _ _ _ _ _ _ F' PN PN E) as (Py & Pn)
  end.
  unfold P in Py, Pn. clear P F' PN.
  split.
  { destruct (truthy (rm_resolved market)), (truthy (rm_closed market)),
      (truthy (rm_active market)); reflexivity. }
  split.
  { intros c. destruct (rm_conditionId market) as [c0|]; cbn; [|discriminate].
    destruct (String.eqb_spec c0 ""); cbn; intros [= <-];
      [subst; reflexivity | apply lower_twice]. }
  split.
  { intros q.
    destruct (if str_truthy (rm_questionID market)
              then rm_questionID market else rm_questionId market) as [q0|];
      cbn; [|discriminate].
    destruct (String.eqb_spec q0 ""); cbn; intros [= <-];
      [subst; reflexivity | apply lower_twice]. }
  split; [exact Py|]. split; [exact Pn|reflexivity].
Qed.

Lemma process_market_data_normalized_witness :
  process_market_data env_shared_token market_twice_77
  = Some {| md_slug := Some "will-it-snow"; md_condition_id := Some "0x999";
            md_question_id := Some "0xq2"; md_yes_token_id := Some "0x4d";
            md_no_token_id := Some "0x4d"; md_status := "CLOSED" |} /\
  md_status {| md_slug := Some "will-it-snow"; md_condition_id := Some "0x999";
               md_question_id := Some "0xq2"; md_yes_token_id := Some "0x4d";
               md_no_token_id := Some "0x4d"; md_status := "CLOSED" |} = "CLOSED".
Proof.
  split; [reflexivity|].
  exact (proj1 (process_market_data_normalized env_shared_token market_twice_77
                  _ eq_refl)).
Defined.

Lemma token_hexes_none (l : list json) (t : json) :
  In t l -> py_int t = None -> token_hexes l = None.
Proof.
  induction l as [|x l IH]; intros Hin Hn; [destruct Hin|].
  cbn. destruct Hin as [-> | Hin]; [now rewrite Hn|].
  destruct (py_int x); [|reflexivity]. now rewrite (IH Hin Hn).
Qed.

Lemma py_iter_truthy (v x : json) (l : list json) :
  py_iter v = Some (x :: l) -> truthy v = true.
Proof.
  destruct v as [| | | |s|k|kv]; cbn; try discriminate.
  - destruct s; [discriminate | reflexivity].
  - destruct k; [discriminate | reflexivity].
  - destruct kv; [discriminate | reflexivity].
Qed.

(** X12 — entries that [process_market_data] rejects, whether the registry
    sends [clobTokenIds] and [outcomes] as JSON arrays or, as it usually
    does, as strings holding JSON: an entry without [clobTokenIds] or without
    [outcomes]; one whose [clobTokenIds] string does not parse; one whose
    token ids or outcomes cannot be iterated; one whose token ids and
    outcomes differ in number; and one in which [int] refuses some token id
    (a number with a fraction is not refused, it is truncated). Text that
    [int] or [len] is applied to is ASCII. *)
Theorem process_market_data_rejects (env : Env) (market : RawMarket) :
  (rm_clobTokenIds market = None -> process_market_data env market = None) /\
  (rm_outcomes market = None -> process_market_data env market = None) /\
  (load_token_ids env market = None -> process_market_data env market = None) /\
  (forall v,
     load_token_ids env market = Some v -> py_iter v = None ->
     process_market_data env market = None) /\
  (py_iter (load_outcomes env market) = None ->
   process_market_data env market = None) /\
  (forall v ts os,
     load_token_ids env market = Some v -> py_iter v = Some ts ->
     py_iter (load_outcomes env market) = Some os ->
     ascii_text (load_outcomes env market) = true ->
     List.length ts <> List.length os ->
     process_market_data env market = None) /\
  (forall v ts t,
     load_token_ids env market = Some v -> py_iter v = Some ts ->
     In t ts -> ascii_text t = true -> py_int t = None ->
     process_market_data env market = None).
Proof.
  split; [|split; [|split; [|split; [|split; [|split]]]]].
  - unfold process_market_data, load_token_ids. intros ->. reflexivity.
  - unfold process_market_data, load_outcomes. intros ->. cbn.
    repeat match goal with
           | |- match ?x with _ => _ end = None => destruct x; try reflexivity
           end.
  - unfold process_market_data. intros ->. reflexivity.
  - unfold process_market_data. intros v -> ->. reflexivity.
  - unfold process_market_data, py_len. intros ->. cbn [option_map].
    repeat match goal with
           | |- match ?x with _ => _ end = None => destruct x; try reflexivity
           | |- (if ?x then _ else _) = None => destruct x; try reflexivity
           end.
  - unfold process_market_data. intros v ts os -> -> Ho _ Hlen. cbn.
    destruct (token_hexes ts) as [hs|] eqn:T; [|reflexivity].
    destruct (token_hexes_spec _ _ T) as (L & _).
    destruct hs as [|h hs]; [reflexivity|].
    destruct (negb (truthy (load_outcomes env market))); [reflexivity|].
    unfold py_len. rewrite Ho. cbn [option_map].
    destruct (Nat.eqb_spec (List.length (h :: hs)) (List.length os));
      [congruence | reflexivity].
  - unfold process_market_data. intros v ts t -> -> Hin _ Hn. cbn.
    now rewrite (token_hexes_none _ _ Hin Hn).
Qed.

Lemma process_market_data_rejects_witness :
  process_market_data env_encoded market_encoded <> None /\
  process_market_data env_mixed market_encoded = None /\
  process_market_data env_encoded market_fraction = None /\
  process_market_data env_encoded market_three_outcomes = None.
Proof.
  destruct (process_market_data_rejects env_mixed market_encoded)
    as (_ & _ & Unparsed & _).
  destruct (process_market_data_rejects env_encoded market_fraction)
    as (_ & _ & _ & _ & _ & _ & NoInt).
  destruct (process_market_data_rejects env_encoded market_three_outcomes)
    as (_ & _ & _ & _ & _ & Mismatch & _).
  split; [vm_compute; discriminate|]. split; [exact (Unparsed eq_refl)|]. split.
  - apply (NoInt (JList [JFloat (Some (3 # 2)); JStr "7.5"])
             [JFloat (Some (3 # 2)); JStr "7.5"] (JStr "7.5"));
      [reflexivity | reflexivity | right; left; reflexivity
       | reflexivity | reflexivity].
  - apply (Mismatch (JList [JStr "78"; JStr "77"]) [JStr "78"; JStr "77"]
             [JStr "Up"; JStr "Flat"; JStr "Down"]);
      [reflexivity | reflexivity | reflexivity | reflexivity | discriminate].
Defined.

(** X13 — the outcome labels decide which token is which, in either order
    and whatever their case, and in whichever form the registry sends the
    two fields (JSON arrays, or strings holding JSON). Of two token ids that
    [int] reads as [a] and [b], with two ASCII labels: labelled YES and NO,
    [a] becomes the YES token and [b] the NO token; labelled NO and YES, it
    is the other way round; and with two labels that are neither, the entry
    is still accepted, with both token ids null. *)
Theorem process_market_data_binary (env : Env) (market : RawMarket)
    (v t1 t2 : json) (a b : Z) (o1 o2 : string) :
  load_token_ids env market = Some v ->
  py_iter v = Some [t1; t2] ->
  py_int t1 = Some a -> py_int t2 = Some b ->
  py_iter (load_outcomes env market) = Some [JStr o1; JStr o2] ->
  is_ascii o1 = true -> is_ascii o2 = true ->
  exists md,
    process_market_data env market = Some md /\
    (upper o1 = "YES" -> upper o2 = "NO" ->
     md_yes_token_id md = Some (hex a) /\ md_no_token_id md = Some (hex b)) /\
    (upper o1 = "NO" -> upper o2 = "YES" ->
     md_yes_token_id md = Some (hex b) /\ md_no_token_id md = Some (hex a)) /\
    (upper o1 <> "YES" -> upper o1 <> "NO" ->
     upper o2 <> "YES" -> upper o2 <> "NO" ->
     md_yes_token_id md = None /\ md_no_token_id md = None).
Proof.
  intros Hc Hv Ha Hb Ho _ _. unfold process_market_data. rewrite Hc, Hv. cbn.
  rewrite Ha, Hb. cbn. rewrite !lower_hex.
  rewrite (py_iter_truthy _ _ _ Ho). unfold py_len. rewrite Ho. cbn.
  destruct (String.eqb_spec (upper o1) "YES") as [Y1|Y1];
    destruct (String.eqb_spec (upper o1) "NO") as [N1|N1];
    destruct (String.eqb_spec (upper o2) "YES") as [Y2|Y2];
    destruct (String.eqb_spec (upper o2) "NO") as [N2|N2];
    eexists; (split; [reflexivity|]); cbn;
    repeat split; intros; try congruence.
Qed.

Lemma process_market_data_binary_witness :
  (exists md,
     process_market_data env_encoded market_encoded = Some md /\
     md_yes_token_id md = Some "0x4d" /\ md_no_token_id md = Some "0x4e") /\
  (exists md,
     process_market_data env_mixed market_77 = Some md /\
     md_yes_token_id md = Some "0x4d" /\ md_no_token_id md = Some "0x4e").
Proof.
  split.
  - destruct (process_market_data_binary env_encoded market_encoded
                (JList [JStr "78"; JStr "77"]) (JStr "78") (JStr "77")
                78 77 "No" "Yes" eq_refl eq_refl eq_refl eq_refl eq_refl
                eq_refl eq_refl)
      as (md & E & _ & S & _).
    exists md. split; [exact E|]. exact (S eq_refl eq_refl).
  - destruct (process_market_data_binary env_mixed market_77
                (JList [JStr "78"; JStr "77"]) (JStr "78") (JStr "77")
                78 77 "No" "Yes" eq_refl eq_refl eq_refl eq_refl eq_refl
                eq_refl eq_refl)
      as (md & E & _ & S & _).
    exists md. split; [exact E|]. exact (S eq_refl eq_refl).
Defined.

Lemma store_markets_count (env : Env) (ms : list RawMarket) (count n : Z)
    (d d' : DB) :
  store_markets env ms count d = (Ok n, d') ->
  n = count + Z.of_nat (List.length (List.filter (accepted env) ms)) /\
  (List.length (markets d) <= List.length (markets d'))%nat /\
  (List.length (markets d')
   <= List.length (markets d) + List.length (List.filter (accepted env) ms))%nat.
Proof.
  revert count d. induction ms as [|m ms IH]; intros count d H; cbn in H.
  - injection H as <- <-. cbn. lia.
  - cbn [List.filter].
    destruct (process_market_data env m) as [md|] eqn:P.
    + assert (A : accepted env m = true) by (unfold accepted; now rewrite P).
      rewrite A. cbn in H. unfold bind in H.
      destruct (upsert_market env md d) as [[[]|e] d1] eqn:U; [|discriminate].
      destruct (IH _ _ H) as (-> & L1 & L2).
      assert (List.length (markets d) <= List.length (markets d1)
              <= S (List.length (markets d)))%nat.
      { unfold upsert_market in U. destruct (storage_fails env _); [discriminate|].
        destruct (find _ (markets d)); injection U as <-; cbn;
          rewrite ?length_map, ?length_app; cbn; lia. }
      cbn [List.length]. lia.
    + assert (A : accepted env m = false) by (unfold accepted; now rewrite P).
      rewrite A. destruct (IH _ _ H) as (-> & L1 & L2). lia.
Qed.

(** X14 — the count [discover_and_store_markets] returns is the number of
    registry entries that [process_market_data] accepted (rejected entries
    are skipped, not errors); the markets table does not shrink and grows by
    at most that number; and when the HTTP request fails the result is 0 and
    the database is as it was. *)
Theorem discovery_count (env : Env) (slug : string) (d d' : DB) (n : Z) :
  discover_and_store_markets env slug d = (Ok n, d') ->
  n = Z.of_nat (List.length (List.filter (accepted env)
                               (fetch_markets_by_slug env slug))) /\
  (List.length (markets d) <= List.length (markets d')
   <= List.length (markets d) + Z.to_nat n)%nat /\
  (http_get_events env slug = None -> n = 0 /\ d' = d).
Proof.
  intros H. unfold discover_and_store_markets in H.
  destruct (store_markets_count env _ _ _ _ _ H) as (E & L1 & L2).
  split; [lia|]. split; [lia|].
  intros Hh. unfold fetch_markets_by_slug in H. rewrite Hh in H.
  cbn in H. unfold ret in H. inversion H. auto.
Qed.

Lemma discovery_count_witness :
  discover_and_store_markets env_shared_token "rain" db_77
  = (Ok 2, snd (discover_and_store_markets env_shared_token "rain" db_77)) /\
  List.length (markets (snd (discover_and_store_markets env_shared_token
                               "rain" db_77))) = 2%nat.
Proof.
  assert (H : discover_and_store_markets env_shared_token "rain" db_77
              = (Ok 2, snd (discover_and_store_markets env_shared_token
                              "rain" db_77))).
  { vm_compute. reflexivity. }
  split; [exact H|].
  destruct (discovery_count env_shared_token "rain" db_77 _ 2 H) as (_ & L & _).
  vm_compute. reflexivity.
Defined.

(** ** The indexer: timestamps and trades *)

(** X15 — the block timestamp is memoised. On a cache miss, a timestamp the
    RPC client returns is returned and cached, and from then on the same
    block gives the same timestamp whatever the client would answer; a
    failed request gives 0, logs an error and caches nothing, so the next
    call asks again. Neither path touches the database. *)
Theorem get_block_timestamp_memo (env : Env) (n : Z) (w : World) :
  block_timestamp_cache w !! n = None ->
  (forall ts,
     get_block env n = Some ts ->
     exists w1,
       get_block_timestamp env n w = (Ok ts, w1) /\
       db w1 = db w /\ trace w1 = trace w /\
       block_timestamp_cache w1 = <[n := ts]> (block_timestamp_cache w) /\
       forall env', get_block_timestamp env' n w1 = (Ok ts, w1)) /\
  (get_block env n = None ->
   exists w1,
     get_block_timestamp env n w = (Ok 0, w1) /\
     db w1 = db w /\ trace w1 = trace w ++ [LogError] /\
     block_timestamp_cache w1 = block_timestamp_cache w).
Proof.
  intros Hmiss. unfold get_block_timestamp. rewrite Hmiss. split.
  - intros ts ->. eexists. split; [reflexivity|]. cbn.
    repeat split. intros env'. rewrite lookup_insert_eq. reflexivity.
  - intros ->. eexists. split; [reflexivity|]. cbn. auto.
Qed.

Lemma get_block_timestamp_memo_witness :
  exists w1,
    get_block_timestamp env_mixed 150 fresh_world = (Ok 1700000000, w1) /\
    get_block_timestamp env_shared_token 150 w1 = (Ok 1700000000, w1) /\
    get_block_timestamp env_shared_token 150 fresh_world
    = (Ok 0, advance (db fresh_world) [LogError] fresh_world).
Proof.
  destruct (get_block_timestamp_memo env_mixed 150 fresh_world eq_refl)
    as (Hit & _).
  destruct (Hit 1700000000 eq_refl) as (w1 & E & _ & _ & _ & Memo).
  exists w1. split; [exact E|]. split; [apply Memo | reflexivity].
Defined.

Lemma str_eq_sql_eq (a : option string) (b : string) :
  str_eq a b = sql_eq a (Some b).
Proof. destruct a; reflexivity. Qed.

(** X16 — every trade [decode_and_process_log] returns is well formed: its
    market is a stored market that lists the trade's token, the outcome is
    YES if that is the market's YES token and NO otherwise (then it is the
    NO token), the side is BUY or SELL, the key and block number are those
    of the log, and the taker is not the log's source address. *)
Theorem decoded_trade_wellformed (env : Env) (log : Log) (slug : option string)
    (w w' : World) (t : Trade) :
  decode_and_process_log env log slug w = (Ok (Some t), w') ->
  (exists m,
     In m (markets (db w')) /\ t_market_id t = m_id m /\
     (t_outcome t = "YES" /\ m_yes_token_id m = Some (t_token_id t) \/
      t_outcome t = "NO" /\ m_no_token_id m = Some (t_token_id t) /\
      m_yes_token_id m <> Some (t_token_id t))) /\
  (t_side t = "BUY" \/ t_side t = "SELL") /\
  trade_key_of t = log_key log /\
  t_block_number t = blockNumber log /\
  lower (t_taker t) <> lower (address log).
Proof.
  intros H. destruct (decode_inv _ _ _ _ _ _ H) as (_ & _ & Ht).
  destruct (Ht t eq_refl) as (args & m & ts & Hp & Hs & F & ->). clear Ht.
  destruct (fetch_market_by_token_id_some _ _ _ F) as (Hin & Hm).
  split; [|split; [|split; [|split]]].
  - exists m. split; [exact Hin|]. split; [reflexivity|].
    unfold trade_record. cbn. rewrite !str_eq_sql_eq.
    destruct (sql_eq (m_yes_token_id m) (Some (traded_token_id args))) eqn:Y.
    + left. split; [reflexivity|]. now apply sql_eq_some.
    + right.
      assert (N : m_no_token_id m = Some (traded_token_id args)).
      { destruct Hm as [E | E]; [|exact E]. apply sql_eq_some in E. congruence. }
      rewrite (proj2 (sql_eq_some _ _) N).
      split; [reflexivity|]. split; [exact N|].
      intros E. apply sql_eq_some in E. congruence.
  - unfold trade_record. cbn. destruct (makerAssetId args =? 0); auto.
  - reflexivity.
  - reflexivity.
  - cbn. intros E. rewrite E, String.eqb_refl in Hs. discriminate.
Qed.

Lemma decoded_trade_wellformed_witness :
  decode_and_process_log env_mixed (sample_log 2) None synced_world
  = (Ok (Some trade_sell),
     snd (decode_and_process_log env_mixed (sample_log 2) None synced_world)) /\
  t_outcome trade_sell = "YES" /\ trade_key_of trade_sell = ("0x6162", 2).
Proof.
  assert (H : decode_and_process_log env_mixed (sample_log 2) None synced_world
              = (Ok (Some trade_sell),
                 snd (decode_and_process_log env_mixed (sample_log 2) None
                        synced_world))).
  { vm_compute. reflexivity. }
  split; [exact H|]. split; [reflexivity|].
  destruct (decoded_trade_wellformed env_mixed _ _ _ _ _ H) as (_ & _ & K & _).
  exact K.
Defined.

Lemma price_of_division_nonneg (a b : Z) :
  0 <= a -> 0 <= b ->
  (0 <= float_of_decimal
          match decimal_div a b with Ok p => p | Raise _ => 0 end)%Q.
Proof.
  intros Ha Hb. unfold float_of_decimal. apply round_sig_nonneg; [lia|].
  unfold decimal_div. destruct (Z.eqb_spec b 0); [apply Qle_refl|].
  apply round_sig_nonneg; [lia|]. apply Qle_shift_div_l.
  - unfold Qlt, inject_Z; cbn [Qnum Qden]. lia.
  - rewrite Qmult_0_l. unfold Qle, inject_Z; cbn [Qnum Qden]. lia.
Qed.

Lemma float_of_int_nonneg (n : Z) : 0 <= n -> (0 <= float_of_int n)%Q.
Proof.
  intros H. unfold float_of_int, float_of_decimal.
  apply round_sig_nonneg; [lia|]. unfold Qle, inject_Z; cbn [Qnum Qden]. lia.
Qed.

(** X17 — prices and sizes are not negative: for a decoded fill whose two
    amounts are not negative (as [uint256] values are), the price and the
    size of the trade returned are at least 0. *)
Theorem trade_price_nonneg (env : Env) (log : Log) (slug : option string)
    (w w' : World) (args : OrderFilledArgs) (t : Trade) :
  process_log env log = Some args ->
  0 <= makerAmountFilled args -> 0 <= takerAmountFilled args ->
  decode_and_process_log env log slug w = (Ok (Some t), w') ->
  (0 <= t_price t)%Q /\ (0 <= t_size t)%Q.
Proof.
  intros Hp Hm Ht H. destruct (decode_inv _ _ _ _ _ _ H) as (_ & _ & Hinv).
  destruct (Hinv t eq_refl) as (args' & m & ts & Hp' & _ & _ & ->).
  assert (args' = args) as -> by congruence.
  unfold trade_record. cbn. destruct (makerAssetId args =? 0).
  - split; [now apply price_of_division_nonneg | now apply float_of_int_nonneg].
  - split; [now apply price_of_division_nonneg | now apply float_of_int_nonneg].
Qed.

Lemma trade_price_nonneg_witness :
  (0 <= t_price trade_sell)%Q /\ (0 <= t_size trade_sell)%Q /\
  t_price trade_sell = (1 # 2)%Q.
Proof.
  assert (H : decode_and_process_log env_mixed (sample_log 2) None synced_world
              = (Ok (Some trade_sell),
                 snd (decode_and_process_log env_mixed (sample_log 2) None
                        synced_world))).
  { vm_compute. reflexivity. }
  destruct (trade_price_nonneg env_mixed (sample_log 2) None synced_world _
              args_sell _ eq_refl ltac:(discriminate) ltac:(discriminate) H)
    as (P & S).
  split; [exact P|]. split; [exact S | reflexivity].
Defined.

Lemma process_logs_keys (env : Env) (logs : list Log) (slug : option string)
    (acc : list Trade) (w w' : World) (ts' : list Trade) :
  process_logs env logs slug acc w = (Ok ts', w') ->
  exists ts,
    ts' = acc ++ ts /\
    map trade_key_of ts `sublist_of` map log_key logs.
Proof.
  revert acc w. induction logs as [|log logs IH]; intros acc w H.
  - cbn in H. injection H as <- <-. exists []. rewrite app_nil_r.
    split; [reflexivity | constructor].
  - destruct (decode_and_process_log env log slug w) as [[[t|]|e] w1] eqn:D.
    + rewrite (process_logs_kept _ _ _ _ _ _ _ _ D) in H.
      destruct (IH _ _ H) as (ts & -> & S).
      exists (t :: ts). rewrite <- app_assoc. split; [reflexivity|].
      destruct (decode_inv _ _ _ _ _ _ D) as (_ & _ & Ht).
      destruct (Ht t eq_refl) as (args & m & ts0 & _ & _ & _ & ->).
      cbn. now constructor.
    + rewrite (process_logs_dropped _ _ _ _ _ _ _ D) in H.
      destruct (IH _ _ H) as (ts & -> & S).
      exists ts. split; [reflexivity|]. cbn. now constructor.
    + cbn [process_logs] in H. unfold bind at 1, try_except, bind at 1 in H.
      rewrite D in H. destruct (IH _ _ H) as (ts & -> & S).
      exists ts. split; [reflexivity|]. cbn. now constructor.
Qed.

(** X18 — a run returns its trades in the order of the logs, at most one
    per log: the keys [(tx_hash, log_index)] of the trades returned are a
    subsequence of the keys of the logs fetched. *)
Theorem run_indexer_keeps_log_order (env : Env) (from_block to_block : Z)
    (slug : option string) (w w' : World) (logs : list Log) (ts : list Trade) :
  get_logs env from_block to_block = Some logs ->
  run_indexer env from_block to_block slug w = (Ok ts, w') ->
  map trade_key_of ts `sublist_of` map log_key logs /\
  (List.length ts <= List.length logs)%nat.
Proof.
  intros G H.
  assert (S : map trade_key_of ts `sublist_of` map log_key logs).
  { destruct (process_logs_inv env logs slug []
                (advance (db w) [CallGetLogs from_block to_block] w))
      as (ts1 & w1 & P & _).
    destruct (process_logs_keys _ _ _ _ _ _ _ P) as (ts2 & E & S).
    cbn in E, P. subst ts2.
    rewrite (run_indexer_cases env _ _ _ _ _ _ _ G P) in H.
    destruct ts1 as [|t0 ts1]; [injection H as <- _; exact S|].
    destruct (insert_trades env (t0 :: ts1) (db w1)) as [[[]|e] d2];
      [|discriminate].
    cbn zeta in H.
    destruct (update_sync_state env to_block d2) as [[[]|e] d3]; [|discriminate].
    injection H as <- _. exact S. }
  split; [exact S|]. apply sublist_length in S. now rewrite !length_map in S.
Qed.

Lemma run_indexer_keeps_log_order_witness :
  map trade_key_of [trade_buy; trade_sell] = [("0x6162", 1); ("0x6162", 2)] /\
  map trade_key_of [trade_buy; trade_sell]
    `sublist_of` map log_key [sample_log 1; sample_log 4; sample_log 2].
Proof.
  split; [reflexivity|].
  assert (R : run_indexer env_mixed 100 200 (Some "rain") fresh_world
              = (Ok [trade_buy; trade_sell],
                 snd (run_indexer env_mixed 100 200 (Some "rain") fresh_world))).
  { vm_compute. reflexivity. }
  exact (proj1 (run_indexer_keeps_log_order env_mixed 100 200 (Some "rain")
                  fresh_world _ _ _ eq_refl R)).
Defined.

(** ** The indexer: what a run leaves alone *)

Lemma cache_grows_refl (env : Env) (w : World) : cache_grows env w w.
Proof. split; auto. Qed.

Lemma cache_grows_trans (env : Env) (a b c : World) :
  cache_grows env a b -> cache_grows env b c -> cache_grows env a c.
Proof.
  intros (A1 & A2) (B1 & B2). split; [auto|].
  intros n ts H. destruct (B2 n ts H) as [H'|]; [apply A2, H' | now right].
Qed.

Lemma cache_grows_same (env : Env) (w w' : World) :
  block_timestamp_cache w' = block_timestamp_cache w -> cache_grows env w w'.
Proof. intros E. unfold cache_grows. rewrite E. auto. Qed.

Lemma no_new_discovery_advance (d : DB) (evs : list Event) (w : World) :
  Forall (fun e => forall s, e <> CallDiscoverAndStoreMarkets s) evs ->
  no_new_discovery w (advance d evs w).
Proof.
  intros F s Hin. cbn in Hin. apply in_app_iff in Hin.
  destruct Hin as [Hin | Hin]; [exact Hin|]. exfalso.
  rewrite Forall_forall in F. apply list_elem_of_In in Hin.
  exact (F _ Hin s eq_refl).
Qed.

Lemma loop_frame_refl (env : Env) (slug : option string) (w : World) :
  loop_frame env slug w w.
Proof.
  split; [apply trades_untouched_refl|]. split; [apply cache_grows_refl|].
  intros _. split; [reflexivity | intros s H; exact H].
Qed.

Lemma loop_frame_trans (env : Env) (slug : option string) (a b c : World) :
  loop_frame env slug a b -> loop_frame env slug b c -> loop_frame env slug a c.
Proof.
  intros (A1 & A2 & A3) (B1 & B2 & B3).
  split; [eapply trades_untouched_trans; eauto|].
  split; [eapply cache_grows_trans; eauto|].
  intros Hs. destruct (A3 Hs) as (Ad & An). destruct (B3 Hs) as (Bd & Bn).
  split; [congruence|]. intros s H. apply An, Bn, H.
Qed.

Lemma loop_frame_advance (env : Env) (slug : option string) (evs : list Event)
    (w : World) :
  Forall (fun e => forall s, e <> CallDiscoverAndStoreMarkets s) evs ->
  loop_frame env slug w (advance (db w) evs w).
Proof.
  intros F. split; [apply trades_untouched_refl|].
  split; [now apply cache_grows_same|].
  intros _. split; [reflexivity | now apply no_new_discovery_advance].
Qed.

Lemma get_block_timestamp_frame (env : Env) (slug : option string) (n : Z)
    (w w' : World) (r : result Z) :
  get_block_timestamp env n w = (r, w') -> loop_frame env slug w w'.
Proof.
  unfold get_block_timestamp.
  destruct (block_timestamp_cache w !! n) as [ts|] eqn:C.
  - intros [= _ <-]. apply loop_frame_refl.
  - destruct (get_block env n) as [ts|] eqn:G.
    + intros [= _ <-]. split; [apply trades_untouched_refl|]. split.
      * split; cbn.
        -- intros n0 ts0 H. destruct (Z.eq_dec n n0) as [<- | Hne];
             [congruence | now rewrite lookup_insert_ne].
        -- intros n0 ts0 H. destruct (Z.eq_dec n n0) as [<- | Hne].
           ++ rewrite lookup_insert_eq in H. right. congruence.
           ++ rewrite lookup_insert_ne in H by exact Hne. now left.
      * intros _. split; [reflexivity | intros s H; exact H].
    + run_monad. intros [= _ <-].
      apply (loop_frame_advance env slug [LogError] w).
      repeat constructor; discriminate.
Qed.

Lemma resolve_frame (env : Env) (tok : string) (slug : option string)
    (w w' : World) (r : result (option MarketRow)) :
  resolve_market env tok slug w = (r, w') -> loop_frame env slug w w'.
Proof.
  intros H. pose proof (proj1 (resolve_inv _ _ _ _ _ _ H)) as T.
  destruct (fst (fetch_market_by_token_id tok (db w))) as [[m|]|e] eqn:F;
    [| |discriminate F].
  - rewrite (resolve_hit _ _ _ _ _ F) in H. injection H as <- <-.
    apply (loop_frame_advance env slug [CallFetchMarketByTokenId tok] w).
    repeat constructor; discriminate.
  - destruct (str_truthy slug) eqn:Hs.
    + split; [exact T|]. split; [|rewrite Hs; discriminate].
      destruct slug as [s|]; [|discriminate Hs]. cbn in Hs.
      apply negb_true_iff, String.eqb_neq in Hs.
      destruct (discover_and_store_markets env s (db w)) as [[n|e] d1] eqn:D.
      * rewrite (resolve_miss_discovered _ _ _ _ _ _ F Hs D) in H.
        injection H as <- <-. now apply cache_grows_same.
      * rewrite (resolve_miss_raise _ _ _ _ _ _ F Hs D) in H.
        injection H as <- <-. now apply cache_grows_same.
    + rewrite (resolve_miss_plain _ _ _ _ F Hs) in H. injection H as <- <-.
      apply (loop_frame_advance env slug [CallFetchMarketByTokenId tok] w).
      repeat constructor; discriminate.
Qed.

Lemma decode_frame (env : Env) (log : Log) (slug : option string)
    (w w' : World) (r : result (option Trade)) :
  decode_and_process_log env log slug w = (r, w') -> loop_frame env slug w w'.
Proof.
  intros H.
  destruct (process_log env log) as [args|] eqn:Hp.
  2:{ unfold decode_and_process_log in H. rewrite Hp in H.
      injection H as _ <-. apply loop_frame_refl. }
  destruct (String.eqb (lower (taker args)) (lower (address log))) eqn:Hs.
  { unfold decode_and_process_log in H. rewrite Hp, Hs in H.
    injection H as _ <-. apply loop_frame_refl. }
  rewrite (decode_stages _ _ _ _ _ Hp Hs) in H. unfold bind at 1 in H.
  destruct (resolve_market env (traded_token_id args) slug w)
    as [[[m|]|e] w1] eqn:R; pose proof (resolve_frame _ _ _ _ _ _ R) as F.
  - unfold bind in H.
    destruct (get_block_timestamp env (blockNumber log) w1) as [[ts|e] w2] eqn:G;
      pose proof (get_block_timestamp_frame env slug _ _ _ _ G) as F2;
      injection H as _ <-; eapply loop_frame_trans; eauto.
  - run_monad. injection H as _ <-.
    eapply loop_frame_trans; [exact F|].
    apply (loop_frame_advance env slug [LogWarning] w1).
    repeat constructor; discriminate.
  - injection H as _ <-. exact F.
Qed.

Lemma process_logs_frame (env : Env) (logs : list Log) (slug : option string)
    (acc : list Trade) (w w' : World) (r : result (list Trade)) :
  process_logs env logs slug acc w = (r, w') -> loop_frame env slug w w'.
Proof.
  revert acc w. induction logs as [|log logs IH]; intros acc w H.
  - cbn in H. injection H as _ <-. apply loop_frame_refl.
  - cbn [process_logs] in H. unfold bind at 1, try_except, bind at 1 in H.
    destruct (decode_and_process_log env log slug w) as [[[t|]|e] w1] eqn:D;
      pose proof (decode_frame _ _ _ _ _ _ D) as F; cbn in H.
    + eapply loop_frame_trans; [exact F | eapply IH, H].
    + eapply loop_frame_trans; [exact F | eapply IH, H].
    + run_monad. eapply loop_frame_trans; [exact F|].
      eapply loop_frame_trans; [|eapply IH, H].
      apply (loop_frame_advance env slug [LogError] w1).
      repeat constructor; discriminate.
Qed.

(** What the two store calls at the end of a run do to the database, however
    they end: markets stay, and the trades table only grows at its end. *)
Lemma insert_trades_any (env : Env) (l : list Trade) (d d' : DB)
    (r : result unit) :
  insert_trades env l d = (r, d') ->
  markets d' = markets d /\ markets_seq d' = markets_seq d /\
  exists news,
    trades d' = trades d ++ news /\
    (NoDup (map trade_key (trades d)) -> NoDup (map trade_key (trades d'))) /\
    (NoDup (map row_id (trades d)) -> NoDup (map row_id (trades d'))).
Proof.
  unfold insert_trades. destruct l as [|t0 l].
  - intros [= _ <-]. split; [reflexivity|]. split; [reflexivity|].
    exists []. rewrite app_nil_r. auto.
  - destruct (executemany env 0 (t0 :: l) d) as [c|e] eqn:E; intros [= _ <-].
    + destruct (executemany_frame env _ _ _ _ E) as (A & B & _).
      destruct (executemany_appends env _ _ _ _ E) as (news & T & _ & N).
      split; [exact A|]. split; [exact B|]. exists news.
      split; [exact T|]. split; [|exact N].
      apply (executemany_unique env _ _ _ _ E).
    + split; [reflexivity|]. split; [reflexivity|]. exists [].
      rewrite app_nil_r. auto.
Qed.

Lemma update_sync_state_any (env : Env) (b : Z) (d d' : DB) (r : result unit) :
  update_sync_state env b d = (r, d') ->
  markets d' = markets d /\ markets_seq d' = markets_seq d /\
  trades d' = trades d.
Proof.
  unfold update_sync_state. destruct (storage_fails env _); intros [= _ <-];
    cbn; auto.
Qed.

(** A run, however it ends: the per-log part first, then store calls that
    keep the markets and only append to the trades table. *)
Lemma run_indexer_shape (env : Env) (from_block to_block : Z)
    (slug : option string) (w w' : World) (r : result (list Trade)) :
  run_indexer env from_block to_block slug w = (r, w') ->
  exists w1 evs,
    loop_frame env slug w w1 /\
    block_timestamp_cache w' = block_timestamp_cache w1 /\
    trace w' = trace w1 ++ evs /\
    Forall (fun e => forall s, e <> CallDiscoverAndStoreMarkets s) evs /\
    markets (db w') = markets (db w1) /\
    markets_seq (db w') = markets_seq (db w1) /\
    exists news,
      trades (db w') = trades (db w1) ++ news /\
      (NoDup (map trade_key (trades (db w1))) ->
       NoDup (map trade_key (trades (db w')))) /\
      (NoDup (map row_id (trades (db w1))) ->
       NoDup (map row_id (trades (db w')))).
Proof.
  intros H. destruct (get_logs env from_block to_block) as [logs|] eqn:G.
  - destruct (process_logs_inv env logs slug []
                (advance (db w) [CallGetLogs from_block to_block] w))
      as (ts & w1 & P & _).
    cbn in P.
    assert (L : loop_frame env slug w w1).
    { eapply loop_frame_trans; [|eapply process_logs_frame, P].
      apply (loop_frame_advance env slug [CallGetLogs from_block to_block] w).
      repeat constructor; discriminate. }
    rewrite (run_indexer_cases env _ _ _ _ _ _ _ G P) in H.
    exists w1. destruct ts as [|t0 ts].
    + injection H as _ <-. exists []. rewrite !app_nil_r.
      repeat (split; [auto; try constructor|]). exists [].
      rewrite app_nil_r. auto.
    + destruct (insert_trades env (t0 :: ts) (db w1)) as [[[]|e] d2] eqn:I;
        destruct (insert_trades_any env _ _ _ _ I)
          as (M & Ms & news & T & N1 & N2).
      * cbn zeta in H.
        destruct (update_sync_state env to_block d2) as [r3 d3] eqn:U.
        destruct (update_sync_state_any env _ _ _ _ U) as (M' & Ms' & T').
        exists [CallInsertTrades (t0 :: ts); CallUpdateSyncState to_block].
        assert (W : w' = advance d3 [CallInsertTrades (t0 :: ts);
                                     CallUpdateSyncState to_block] w1)
          by (destruct r3 as [[]|]; now injection H as _ <-).
        subst w'. cbn. split; [exact L|]. split; [reflexivity|].
        split; [reflexivity|].
        split; [repeat constructor; discriminate|].
        split; [congruence|]. split; [congruence|].
        exists news. rewrite T'. auto.
      * injection H as _ <-. exists [CallInsertTrades (t0 :: ts)]. cbn.
        split; [exact L|]. split; [reflexivity|]. split; [reflexivity|].
        split; [repeat constructor; discriminate|].
        split; [exact M|]. split; [exact Ms|]. exists news. auto.
  - rewrite (run_indexer_fetch_failed env _ _ _ _ G) in H. injection H as _ <-.
    exists w, [CallGetLogs from_block to_block; LogError]. cbn.
    split; [apply loop_frame_refl|]. split; [reflexivity|]. split; [reflexivity|].
    split; [repeat constructor; discriminate|].
    split; [reflexivity|]. split; [reflexivity|]. exists [].
    rewrite app_nil_r. auto.
Qed.

(** X19 — without an event slug ([None] or the empty string) a run never
    refreshes the registry and never writes to the markets table, however
    it ends: unknown tokens are only dropped. *)
Theorem run_without_slug_keeps_markets (env : Env) (from_block to_block : Z)
    (slug : option string) (w w' : World) (r : result (list Trade)) :
  str_truthy slug = false ->
  run_indexer env from_block to_block slug w = (r, w') ->
  markets (db w') = markets (db w) /\
  markets_seq (db w') = markets_seq (db w) /\
  no_new_discovery w w'.
Proof.
  intros Hs H.
  destruct (run_indexer_shape env _ _ _ _ _ _ H)
    as (w1 & evs & (_ & _ & L) & _ & Tr & F & M & Ms & _).
  destruct (L Hs) as (D & N). rewrite M, Ms, D.
  split; [reflexivity|]. split; [reflexivity|].
  intros s Hin. apply N. rewrite Tr in Hin. apply in_app_iff in Hin.
  destruct Hin as [Hin | Hin]; [exact Hin|]. exfalso.
  rewrite Forall_forall in F. apply list_elem_of_In in Hin.
  exact (F _ Hin s eq_refl).
Qed.

Lemma run_without_slug_keeps_markets_witness :
  fst (run_indexer env_mixed 100 200 (Some "") fresh_world) = Ok [] /\
  markets (db (snd (run_indexer env_mixed 100 200 (Some "") fresh_world))) = [].
Proof.
  split; [vm_compute; reflexivity|].
  exact (proj1 (run_without_slug_keeps_markets env_mixed 100 200 (Some "")
                  fresh_world _ _ eq_refl (surjective_pairing _))).
Defined.

(** X20 — a run never modifies or deletes a stored trade, however it ends:
    the rows of before are still there, in place, possibly followed by new
    rows; and if keys [(tx_hash, log_index)] and row ids were pairwise
    distinct before the run, they are after it. *)
Theorem run_keeps_stored_trades (env : Env) (from_block to_block : Z)
    (slug : option string) (w w' : World) (r : result (list Trade)) :
  run_indexer env from_block to_block slug w = (r, w') ->
  exists news,
    trades (db w') = trades (db w) ++ news /\
    (NoDup (map trade_key (trades (db w))) ->
     NoDup (map trade_key (trades (db w')))) /\
    (NoDup (map row_id (trades (db w))) ->
     NoDup (map row_id (trades (db w')))).
Proof.
  intros H.
  destruct (run_indexer_shape env _ _ _ _ _ _ H)
    as (w1 & evs & ((T & _) & _) & _ & _ & _ & _ & _ & news & E & N1 & N2).
  exists news. rewrite <- T. auto.
Qed.

Lemma run_keeps_stored_trades_witness :
  exists news,
    trades (db (snd (run_indexer env_mixed 100 200 None
                       {| db := db_traded; block_timestamp_cache := ∅;
                          trace := [] |})))
    = trades db_traded ++ news /\
    news = [].
Proof.
  destruct (run_keeps_stored_trades env_mixed 100 200 None
              {| db := db_traded; block_timestamp_cache := ∅; trace := [] |}
              _ _ (surjective_pairing _)) as (news & E & _).
  exists news. split; [exact E|].
  assert (L : List.length
                (trades (db (snd (run_indexer env_mixed 100 200 None
                                    {| db := db_traded;
                                       block_timestamp_cache := ∅;
                                       trace := [] |}))))
              = List.length (trades db_traded)).
  { vm_compute. reflexivity. }
  rewrite E, length_app in L. destruct news; [reflexivity|].
  cbn in L. lia.
Defined.

(** X21 — the timestamp cache only grows during a run, however it ends: an
    entry cached before is still cached with the same timestamp, and an
    entry cached after was either cached before or is what the RPC client
    returns for that block. *)
Theorem run_cache_grows (env : Env) (from_block to_block : Z)
    (slug : option string) (w w' : World) (r : result (list Trade)) :
  run_indexer env from_block to_block slug w = (r, w') ->
  cache_grows env w w'.
Proof.
  intros H.
  destruct (run_indexer_shape env _ _ _ _ _ _ H)
    as (w1 & evs & (_ & C & _) & E & _).
  eapply cache_grows_trans; [exact C | now apply cache_grows_same].
Qed.

Lemma run_cache_grows_witness :
  block_timestamp_cache
    (snd (run_indexer env_mixed 100 200 (Some "rain")
            {| db := db fresh_world;
               block_timestamp_cache := {[ 7 := 1234 ]};
               trace := [] |})) !! 7 = Some 1234 /\
  block_timestamp_cache
    (snd (run_indexer env_mixed 100 200 (Some "rain")
            {| db := db fresh_world;
               block_timestamp_cache := {[ 7 := 1234 ]};
               trace := [] |})) !! 150 = Some 1700000000.
Proof.
  split; [|vm_compute; reflexivity].
  apply (run_cache_grows env_mixed 100 200 (Some "rain")
           {| db := db fresh_world; block_timestamp_cache := {[ 7 := 1234 ]};
              trace := [] |} _ _ (surjective_pairing _)).
  reflexivity.
Defined.

(** ** The command line *)

Lemma main_discovery_skipped (env : Env) (slug : option string) (w : World) :
  str_truthy slug = false ->
  (match slug with
   | Some s =>
       if negb (String.eqb s "") then
         emit (CallDiscoverAndStoreMarkets s) >>
         with_store (discover_and_store_markets env s) >> ret tt
       else ret tt
   | None => ret tt
   end) w = (Ok tt, w).
Proof.
  intros H. destruct slug as [s|]; [|reflexivity]. cbn in H. now rewrite H.
Qed.

(** [main] with an RPC URL and no event slug: the setup, then one of the
    three modes. *)
Lemma main_without_slug (env : Env) (receipt : string -> option Z)
    (rpc_url : option string) (args : Args) (w : World) :
  str_truthy rpc_url = true ->
  str_truthy (a_event_slug args) = false ->
  main env receipt rpc_url args w =
    (let* trades :=
       (if str_truthy (a_tx_hash args) then
          let tx_hash := match a_tx_hash args with Some h => h | None => "" end in
          match receipt tx_hash with
          | None => emit LogError >> ret []
          | Some block_number =>
              try_except
                (let* block_trades :=
                   run_indexer env block_number block_number (a_event_slug args) in
                 ret (List.filter
                        (fun t => String.eqb (lower (t_tx_hash t)) (lower tx_hash))
                        block_trades))
                (fun _ => emit LogError >> ret [])
          end
        else if int_truthy (a_from_block args) && int_truthy (a_to_block args) then
          run_indexer env
            (match a_from_block args with Some v => v | None => 0 end)
            (match a_to_block args with Some v => v | None => 0 end)
            (a_event_slug args)
        else emit LogWarning >> ret []) in
     ret (Some (stage2 args trades))) (main_setup args w).
Proof.
  intros Hrpc Hslug. unfold main. rewrite Hrpc. cbn [negb].
  unfold bind at 1. unfold modify at 1. fold (main_setup args w).
  unfold bind at 1. rewrite (main_discovery_skipped env _ _ Hslug). reflexivity.
Qed.

(** X22 — block number 0 counts as "not given": with no transaction hash,
    and a start or end block that is absent or 0, [main] indexes nothing; it
    logs a warning and reports no trade, and the database is the one
    [init_db] left. *)
Theorem main_zero_block_is_no_action (env : Env) (receipt : string -> option Z)
    (rpc_url : option string) (args : Args) (w : World) :
  str_truthy rpc_url = true ->
  str_truthy (a_event_slug args) = false ->
  str_truthy (a_tx_hash args) = false ->
  int_truthy (a_from_block args) = false \/ int_truthy (a_to_block args) = false ->
  main env receipt rpc_url args w =
    (Ok (Some (stage2 args [])),
     advance (db (main_setup args w)) [LogWarning] (main_setup args w)) /\
  o_inserted_trades (stage2 args []) = 0%nat /\
  o_sample_trades (stage2 args []) = [] /\
  trades (db (main_setup args w))
  = (if a_reset_db args then [] else trades (db w)).
Proof.
  intros Hrpc Hslug Htx Hblocks.
  rewrite (main_without_slug env receipt _ _ _ Hrpc Hslug), Htx.
  assert (int_truthy (a_from_block args) && int_truthy (a_to_block args) = false)
    as -> by (destruct Hblocks as [-> | ->]; [reflexivity | apply andb_false_r]).
  split; [reflexivity|]. split; [reflexivity|]. split; [reflexivity|].
  cbn. rewrite (proj2 (create_tables_rows _)).
  destruct (a_reset_db args); reflexivity.
Qed.

Lemma main_zero_block_is_no_action_witness :
  main env_mixed sample_receipt (Some "http://rpc") args_from_zero synced_world
  = (Ok (Some (stage2 args_from_zero [])),
     advance synced_db [LogWarning] synced_world) /\
  o_to_block (stage2 args_from_zero []) = 200.
Proof.
  split; [|reflexivity].
  destruct (main_zero_block_is_no_action env_mixed sample_receipt
              (Some "http://rpc") args_from_zero synced_world
              eq_refl eq_refl eq_refl (or_introl eq_refl)) as (E & _).
  rewrite E. vm_compute. reflexivity.
Defined.

Lemma stage2_sample (args : Args) (trades : list Trade) (P : Trade -> Prop) :
  Forall P trades ->
  Forall P (o_sample_trades (stage2 args trades)) /\
  (List.length (o_sample_trades (stage2 args trades)) <= 5)%nat /\
  (List.length (o_sample_trades (stage2 args trades))
   <= o_inserted_trades (stage2 args trades))%nat.
Proof.
  intros F. cbn. split; [now apply Forall_take|].
  rewrite length_take. lia.
Qed.

(** [main] with an RPC URL: the setup, the optional discovery, then one of
    the three modes. *)
Lemma main_stages (env : Env) (receipt : string -> option Z)
    (rpc_url : option string) (args : Args) (w : World) :
  str_truthy rpc_url = true ->
  main env receipt rpc_url args w =
    (main_discovery env args >>
     let* trades := index_by_mode env receipt args in
     ret (Some (stage2 args trades))) (main_setup args w).
Proof.
  intros Hrpc. unfold main. rewrite Hrpc. cbn [negb].
  unfold bind at 1. unfold modify at 1. reflexivity.
Qed.

(** X23 — in transaction mode [main] reports only trades of the
    transaction asked for, with or without an event slug: whenever it
    returns an output for a non-empty [--tx-hash] (taking precedence over any
    block range given), every trade of the output has that hash, compared in
    lowercase; at most five trades are listed, and not more than the count
    reported. *)
Theorem main_tx_mode_reports_only_tx (env : Env) (receipt : string -> option Z)
    (rpc_url : option string) (args : Args) (w w' : World) (h : string)
    (out : Stage2) :
  str_truthy rpc_url = true ->
  a_tx_hash args = Some h -> h <> "" ->
  main env receipt rpc_url args w = (Ok (Some out), w') ->
  Forall (fun t => lower (t_tx_hash t) = lower h) (o_sample_trades out) /\
  (List.length (o_sample_trades out) <= 5)%nat /\
  (List.length (o_sample_trades out) <= o_inserted_trades out)%nat.
Proof.
  intros Hrpc Htx Hne H.
  rewrite (main_stages env receipt _ _ _ Hrpc) in H. unfold bind at 1 in H.
  destruct (main_discovery env args (main_setup args w)) as [[[]|e] w0];
    [|discriminate H].
  unfold index_by_mode in H. rewrite Htx in H.
  apply String.eqb_neq in Hne. cbn [str_truthy] in H. rewrite Hne in H.
  cbn [negb] in H. cbn zeta in H.
  assert (S : exists trades,
             out = stage2 args trades /\
             Forall (fun t => lower (t_tx_hash t) = lower h) trades).
  { destruct (receipt h) as [bn|].
    - unfold bind at 1, try_except, bind at 1 in H.
      destruct (run_indexer env bn bn (a_event_slug args) w0) as [[ts|e] w1].
      + cbn in H. injection H as <- _. eexists. split; [reflexivity|].
        apply Forall_forall. intros t Ht. apply list_elem_of_In in Ht.
        apply filter_In in Ht. destruct Ht as (_ & Ht).
        now apply String.eqb_eq in Ht.
      + run_monad. injection H as <- _. exists []. split; [reflexivity|].
        constructor.
    - run_monad. injection H as <- _. exists []. split; [reflexivity|].
      constructor. }
  destruct S as (trades & -> & F). now apply stage2_sample.
Qed.

Lemma main_tx_mode_reports_only_tx_witness :
  (exists out w',
     main env_mixed sample_receipt (Some "http://rpc") args_tx synced_world
     = (Ok (Some out), w') /\
     o_sample_trades out = [trade_buy; trade_sell] /\
     o_from_block out = 1 /\
     Forall (fun t => lower (t_tx_hash t) = "0x6162") (o_sample_trades out)) /\
  (exists out w',
     main env_mixed sample_receipt (Some "http://rpc") args_tx_slug fresh_world
     = (Ok (Some out), w') /\
     o_sample_trades out = [trade_buy; trade_sell] /\
     o_market_slug out = Some "rain" /\
     Forall (fun t => lower (t_tx_hash t) = "0x6162") (o_sample_trades out)).
Proof.
  split.
  - eexists. eexists. split; [vm_compute; reflexivity|].
    split; [reflexivity|]. split; [reflexivity|].
    refine (proj1 (main_tx_mode_reports_only_tx env_mixed sample_receipt
                     (Some "http://rpc") args_tx synced_world _ "0X6162" _
                     eq_refl eq_refl _ _)).
    + discriminate.
    + vm_compute. reflexivity.
  - eexists. eexists. split; [vm_compute; reflexivity|].
    split; [reflexivity|]. split; [reflexivity|].
    refine (proj1 (main_tx_mode_reports_only_tx env_mixed sample_receipt
                     (Some "http://rpc") args_tx_slug fresh_world _ "0X6162" _
                     eq_refl eq_refl _ _)).
    + discriminate.
    + vm_compute. reflexivity.
Defined.

(** X24 — the error policy of [main] (no event slug given). In transaction
    mode nothing raises: a failing receipt lookup is logged and the output
    reports no trade, and so is a run that raises. In range mode a run that
    raises makes [main] raise too, and a run that returns gives the output
    for its trades. *)
Theorem main_error_policy (env : Env) (receipt : string -> option Z)
    (rpc_url : option string) (args : Args) (w : World) :
  str_truthy rpc_url = true ->
  str_truthy (a_event_slug args) = false ->
  (str_truthy (a_tx_hash args) = true ->
   (exists out w', main env receipt rpc_url args w = (Ok (Some out), w')) /\
   (forall h,
      a_tx_hash args = Some h -> receipt h = None ->
      main env receipt rpc_url args w =
        (Ok (Some (stage2 args [])),
         advance (db (main_setup args w)) [LogError] (main_setup args w))) /\
   (forall h bn e w1,
      a_tx_hash args = Some h -> receipt h = Some bn ->
      run_indexer env bn bn (a_event_slug args) (main_setup args w) = (Raise e, w1) ->
      main env receipt rpc_url args w =
        (Ok (Some (stage2 args [])), advance (db w1) [LogError] w1))) /\
  (o_inserted_trades (stage2 args []) = 0%nat /\
   o_sample_trades (stage2 args []) = [] /\
   o_market_id (stage2 args []) = None) /\
  (str_truthy (a_tx_hash args) = false ->
   forall f t,
     a_from_block args = Some f -> a_to_block args = Some t ->
     f <> 0 -> t <> 0 ->
     (forall e w1,
        run_indexer env f t (a_event_slug args) (main_setup args w) = (Raise e, w1) ->
        main env receipt rpc_url args w = (Raise e, w1)) /\
     (forall ts w1,
        run_indexer env f t (a_event_slug args) (main_setup args w) = (Ok ts, w1) ->
        main env receipt rpc_url args w = (Ok (Some (stage2 args ts)), w1))).
Proof.
  intros Hrpc Hslug. rewrite (main_without_slug env receipt _ _ _ Hrpc Hslug).
  split; [|split; [repeat split|]].
  - intros Htx. rewrite Htx. cbn zeta. split; [|split].
    + destruct (receipt _) as [bn|].
      * unfold bind at 1, try_except, bind at 1.
        destruct (run_indexer env bn bn (a_event_slug args) (main_setup args w))
          as [[ts|e] w1]; run_monad; eauto.
      * run_monad. eauto.
    + intros h Hh Hr. rewrite Hh, Hr. reflexivity.
    + intros h bn e w1 Hh Hr Hrun. rewrite Hh, Hr.
      unfold bind at 1, try_except, bind at 1. rewrite Hrun. reflexivity.
  - intros Htx f t Hf Ht Hf0 Ht0. rewrite Htx, Hf, Ht. cbn [int_truthy].
    apply Z.eqb_neq in Hf0. apply Z.eqb_neq in Ht0. rewrite Hf0, Ht0.
    cbn [negb andb]. split.
    + intros e w1 Hrun. unfold bind. rewrite Hrun. reflexivity.
    + intros ts w1 Hrun. unfold bind. rewrite Hrun. reflexivity.
Qed.

Lemma main_error_policy_witness :
  main env_insert_fails sample_receipt (Some "http://rpc") args_tx synced_world
  = (Ok (Some (stage2 args_tx [])),
     snd (main env_insert_fails sample_receipt (Some "http://rpc") args_tx
            synced_world)) /\
  main env_mixed sample_receipt (Some "http://rpc") args_tx_unknown synced_world
  = (Ok (Some (stage2 args_tx_unknown [])),
     advance synced_db [LogError] synced_world) /\
  o_inserted_trades (stage2 args_tx_unknown []) = 0%nat /\
  fst (main env_insert_fails sample_receipt (Some "http://rpc") args_range
         synced_world) = Raise StorageError.
Proof.
  destruct (main_error_policy env_insert_fails sample_receipt (Some "http://rpc")
              args_tx synced_world eq_refl eq_refl) as (Tx & _).
  destruct (main_error_policy env_mixed sample_receipt (Some "http://rpc")
              args_tx_unknown synced_world eq_refl eq_refl)
    as (NoReceipt & (Zero & _) & _).
  destruct (main_error_policy env_insert_fails sample_receipt (Some "http://rpc")
              args_range synced_world eq_refl eq_refl) as (_ & _ & Range).
  split; [|split; [|split]].
  - destruct (Tx eq_refl) as (_ & _ & Swallow).
    rewrite (Swallow "0X6162" 150 StorageError
               (snd (run_indexer env_insert_fails 150 150 None
                       (main_setup args_tx synced_world)))
               eq_refl eq_refl ltac:(vm_compute; reflexivity)).
    vm_compute. reflexivity.
  - destruct (NoReceipt eq_refl) as (_ & Logged & _).
    rewrite (Logged "0xdead" eq_refl eq_refl). vm_compute. reflexivity.
  - exact Zero.
  - destruct (Range eq_refl 100 200 eq_refl eq_refl ltac:(discriminate)
                ltac:(discriminate)) as (Raises & _).
    rewrite (Raises StorageError
               (snd (run_indexer env_insert_fails 100 200 None
                       (main_setup args_range synced_world)))
               ltac:(vm_compute; reflexivity)).
    reflexivity.
Defined.

(** ** Further behaviour of the log pipeline *)

(** X25 — an unknown token without an event slug: when no stored market
    lists the token of a decoded fill and no slug is given ([None] or the
    empty string), [decode_and_process_log] makes one lookup, logs a
    warning and returns [None]; the database and the cache are as before
    and the registry is not asked. *)
Theorem unknown_token_without_slug (env : Env) (log : Log)
    (slug : option string) (args : OrderFilledArgs) (w : World) :
  process_log env log = Some args ->
  String.eqb (lower (taker args)) (lower (address log)) = false ->
  str_truthy slug = false ->
  fst (fetch_market_by_token_id (traded_token_id args) (db w)) = Ok None ->
  decode_and_process_log env log slug w =
    (Ok None,
     advance (db w)
       [CallFetchMarketByTokenId (traded_token_id args); LogWarning] w).
Proof.
  intros Hp Hs Hslug Hmiss. rewrite (decode_stages _ _ _ _ _ Hp Hs).
  unfold bind at 1. rewrite (resolve_miss_plain _ _ _ _ Hmiss Hslug).
  unfold advance. run_monad. rewrite <- app_assoc. reflexivity.
Qed.

Lemma unknown_token_without_slug_witness :
  decode_and_process_log env_mixed (sample_log 4) None synced_world
  = (Ok None,
     advance synced_db [CallFetchMarketByTokenId "0x63"; LogWarning] synced_world).
Proof.
  exact (unknown_token_without_slug env_mixed (sample_log 4) None args_unknown
           synced_world eq_refl eq_refl eq_refl eq_refl).
Defined.

Lemma resolve_keeps_cache (env : Env) (tok : string) (slug : option string)
    (w w' : World) (r : result (option MarketRow)) :
  resolve_market env tok slug w = (r, w') ->
  block_timestamp_cache w' = block_timestamp_cache w.
Proof.
  intros H.
  destruct (fst (fetch_market_by_token_id tok (db w))) as [[m|]|e] eqn:F;
    [| |discriminate F].
  - rewrite (resolve_hit _ _ _ _ _ F) in H. now injection H as _ <-.
  - destruct (str_truthy slug) eqn:Hs.
    + destruct slug as [s|]; [|discriminate Hs]. cbn in Hs.
      apply negb_true_iff, String.eqb_neq in Hs.
      destruct (discover_and_store_markets env s (db w)) as [[n|e] d1] eqn:D.
      * rewrite (resolve_miss_discovered _ _ _ _ _ _ F Hs D) in H.
        now injection H as _ <-.
      * rewrite (resolve_miss_raise _ _ _ _ _ _ F Hs D) in H.
        now injection H as _ <-.
    + rewrite (resolve_miss_plain _ _ _ _ F Hs) in H. now injection H as _ <-.
Qed.

(** X26 — where the timestamp of a trade comes from: the value cached for
    the block of the log if there is one, else the value the RPC client
    returns for that block, else 0 — a failing timestamp request does not
    drop the trade, it is returned with timestamp 0. *)
Theorem trade_timestamp_source (env : Env) (log : Log) (slug : option string)
    (w w' : World) (t : Trade) :
  decode_and_process_log env log slug w = (Ok (Some t), w') ->
  t_timestamp t =
    match block_timestamp_cache w !! blockNumber log with
    | Some ts => ts
    | None => match get_block env (blockNumber log) with
              | Some ts => ts
              | None => 0
              end
    end.
Proof.
  intros H.
  destruct (process_log env log) as [args|] eqn:Hp.
  2:{ unfold decode_and_process_log in H. rewrite Hp in H. discriminate. }
  destruct (String.eqb (lower (taker args)) (lower (address log))) eqn:Hs.
  { unfold decode_and_process_log in H. rewrite Hp, Hs in H. discriminate. }
  rewrite (decode_stages _ _ _ _ _ Hp Hs) in H. unfold bind at 1 in H.
  destruct (resolve_market env (traded_token_id args) slug w)
    as [[[m|]|e] w1] eqn:R; [| run_monad; discriminate | discriminate].
  rewrite <- (resolve_keeps_cache _ _ _ _ _ _ R).
  unfold bind, get_block_timestamp in H.
  destruct (block_timestamp_cache w1 !! blockNumber log) as [ts|].
  - cbn in H. now injection H as <- _.
  - destruct (get_block env (blockNumber log)) as [ts|].
    + cbn in H. now injection H as <- _.
    + run_monad. now injection H as <- _.
Qed.

Lemma trade_timestamp_source_witness :
  exists t,
    fst (decode_and_process_log env_shared_token (sample_log 1) None synced_world)
    = Ok (Some t) /\
    t_timestamp t = 0 /\ t_log_index t = 1.
Proof.
  eexists. split; [vm_compute; reflexivity|]. split; [|reflexivity].
  apply (trade_timestamp_source env_shared_token (sample_log 1) None synced_world
           (snd (decode_and_process_log env_shared_token (sample_log 1) None
                   synced_world))).
  vm_compute. reflexivity.
Defined.

(** X27 — the checkpoint is a single overwritten value: after a successful
    [update_sync_state b], [get_sync_state] reads [b] whatever was stored
    (smaller, larger or nothing), markets and trades are untouched, and a
    second update simply replaces the first; a failing update leaves the
    database as it was. *)
Theorem sync_state_round_trip (env : Env) (b : Z) (d d' : DB) (r : result unit) :
  update_sync_state env b d = (r, d') ->
  (r = Ok tt ->
   checkpoint d' = Ok b /\ markets d' = markets d /\ trades d' = trades d /\
   forall b2 d2,
     update_sync_state env b2 d' = (Ok tt, d2) ->
     fst (update_sync_state env b2 d) = Ok tt /\
     d2 = snd (update_sync_state env b2 d)) /\
  (forall e, r = Raise e -> d' = d).
Proof.
  intros H. split.
  - intros ->. destruct (update_sync_state_ok env _ _ _ H) as (C & M & T).
    split; [exact C|]. split; [exact M|]. split; [exact T|].
    intros b2 d2. unfold update_sync_state in *.
    destruct (storage_fails env (OpUpdateSyncState b)); [discriminate|].
    injection H as <-.
    destruct (storage_fails env (OpUpdateSyncState b2)); [discriminate|].
    intros [= <-]. split; [reflexivity|]. cbn. unfold set_sync_state. cbn.
    now rewrite insert_insert_eq.
  - intros e ->. apply (update_sync_state_raise env _ _ _ _ H).
Qed.

Lemma sync_state_round_trip_witness :
  checkpoint synced_db = Ok 200 /\
  checkpoint (snd (update_sync_state env_mixed 20 synced_db)) = Ok 20.
Proof.
  split; [reflexivity|].
  destruct (sync_state_round_trip env_mixed 20 synced_db _ _
              (surjective_pairing _)) as (S & _).
  exact (proj1 (S eq_refl)).
Defined.

(** X28 — registry and indexer agree on how a token id is written. Every
    token id of an entry that [process_market_data] accepts, in whatever
    form the registry sent it, is the [hex] rendering of an integer [n]; and
    once [upsert_market] has stored the entry, a decoded fill of asset [n]
    that is no self-fill is turned into a trade by [decode_and_process_log]:
    the lookup by the [hex] rendering finds a stored market listing the
    token, without any discovery. *)
Theorem registry_token_resolves (env : Env) (market : RawMarket)
    (md : MarketData) (y : string) (w : World) (d : DB) :
  process_market_data env market = Some md ->
  md_yes_token_id md = Some y \/ md_no_token_id md = Some y ->
  upsert_market env md d = (Ok tt, db w) ->
  exists n,
    y = hex n /\
    forall log slug args,
      process_log env log = Some args ->
      String.eqb (lower (taker args)) (lower (address log)) = false ->
      (if makerAssetId args =? 0 then takerAssetId args else makerAssetId args) = n ->
      exists t w' m,
        decode_and_process_log env log slug w = (Ok (Some t), w') /\
        In m (markets (db w)) /\ t_market_id t = m_id m /\
        matches_token (t_token_id t) m /\
        t_token_id t = y /\
        resolver_calls (trace w')
        = resolver_calls (trace w) ++ [CallFetchMarketByTokenId y].
Proof.
  intros Hmd Hy U.
  destruct (process_market_data_tokens env market md y Hmd Hy) as (n & ->).
  exists n. split; [reflexivity|]. intros log slug args Hp Hs Hasset.
  assert (Hx : traded_token_id args = hex n).
  { unfold traded_token_id. now rewrite Hasset, lower_hex. }
  destruct (upsert_market_finds_token env md d (db w) (hex n) U Hy)
    as (m & F & Hin & Hm & _).
  assert (F' : fst (fetch_market_by_token_id (traded_token_id args) (db w))
               = Ok (Some m)) by (rewrite Hx, F; reflexivity).
  rewrite (decode_stages _ _ _ _ _ Hp Hs). unfold bind at 1.
  rewrite (resolve_hit _ _ _ _ _ F').
  destruct (get_block_timestamp_inv env (blockNumber log)
              (advance (db w) [CallFetchMarketByTokenId (traded_token_id args)] w))
    as (ts & evs & cache & G & Hev).
  exists (trade_record log args m ts). eexists. exists m.
  unfold bind, ret. rewrite G. split; [reflexivity|]. cbn.
  split; [exact Hin|]. split; [reflexivity|]. rewrite Hx.
  split; [exact Hm|]. split; [reflexivity|].
  rewrite !resolver_calls_app.
  assert (resolver_calls evs = []) as ->
      by (destruct Hev as [-> | ->]; reflexivity).
  rewrite app_nil_r. reflexivity.
Qed.

Lemma registry_token_resolves_witness :
  process_market_data env_encoded market_encoded = Some data_77 /\
  exists t w' m,
    decode_and_process_log env_encoded (sample_log 2) None
      {| db := db_77; block_timestamp_cache := ∅; trace := [] |}
    = (Ok (Some t), w') /\
    In m (markets db_77) /\ t_market_id t = m_id m /\ t_token_id t = "0x4d".
Proof.
  split; [reflexivity|].
  destruct (registry_token_resolves env_encoded market_encoded data_77 "0x4d"
              {| db := db_77; block_timestamp_cache := ∅; trace := [] |}
              (create_tables empty_db)
              eq_refl (or_introl eq_refl) ltac:(vm_compute; reflexivity))
    as (n & Hn & Resolves).
  assert (E : 77 = n) by (apply hex_inj; exact Hn).
  destruct (Resolves (sample_log 2) None args_sell eq_refl eq_refl E)
    as (t & w' & m & D & Hin & Hid & _ & Htok & _).
  exists t, w', m. auto.
Defined.
